(** * Bank-statement import: recognition pipeline of [src/lib/pdfParser.ts]
      and the CSV row parser of the financial data context.

    The TypeScript sources are embedded as executable Rocq functions.
    JavaScript strings are sequences of code units; the embedding covers
    text whose code units lie in 0..255 (ASCII and Latin-1), represented as
    [list ascii].  Numbers produced by [parseFloat] are kept as exact
    rationals, with the two IEEE-754 saturations (to zero and to Infinity)
    applied; the rounding of the mantissa is not represented. *)

From Stdlib Require Import Ascii String DecimalString DecimalNat.
From Stdlib Require Import ZArith QArith Qabs Lia Bool Arith List Permutation.
Import ListNotations.

Set Implicit Arguments.
Local Close Scope Q_scope.
Local Open Scope nat_scope.
Local Open Scope list_scope.

(* ===================================================================== *)
(** ** JavaScript string primitives *)
(* ===================================================================== *)

Module JS.

Definition str := list ascii.

(** String literals of the sources are written [$"..."]. *)
Definition lit (s : string) : str := list_ascii_of_string s.

Definition code (c : ascii) : nat := nat_of_ascii c.

Definition in_range (lo hi : nat) (c : ascii) : bool :=
  (lo <=? code c) && (code c <=? hi).

(** [\d] *)
Definition isDigit (c : ascii) : bool := in_range 48 57 c.

(** [\w] : [A-Za-z0-9_] *)
Definition isWordChar (c : ascii) : bool :=
  in_range 65 90 c || in_range 97 122 c || in_range 48 57 c || (code c =? 95).

(** WhiteSpace and LineTerminator code units below 256: TAB, LF, VT, FF, CR,
    SP and NBSP.  This is the set used by [trim], by [\s] and by the
    leading-blank skipping of [parseFloat]. *)
Definition isWhiteSpace (c : ascii) : bool :=
  in_range 9 13 c || (code c =? 32) || (code c =? 160).

(** LineTerminator below 256: LF and CR ([.] matches everything else). *)
Definition isLineTerminator (c : ascii) : bool :=
  (code c =? 10) || (code c =? 13).

(** [String.prototype.toLowerCase] on one code unit: A-Z, and the Latin-1
    capitals U+00C0..U+00DE except the multiplication sign U+00D7. *)
Definition lowerChar (c : ascii) : ascii :=
  if in_range 65 90 c then ascii_of_nat (code c + 32)
  else if in_range 192 222 c && negb (code c =? 215) then ascii_of_nat (code c + 32)
  else c.

Definition toLowerCase (s : str) : str := map lowerChar s.

(** Upper-casing of the ASCII letters, used for the canonicalisation of the
    [/i] flag: a code unit above 127 never canonicalises to an ASCII one. *)
Definition upperAscii (c : ascii) : ascii :=
  if in_range 97 122 c then ascii_of_nat (code c - 32) else c.

Fixpoint trimStart (s : str) : str :=
  match s with
  | c :: s' => if isWhiteSpace c then trimStart s' else s
  | [] => []
  end.

Definition trimEnd (s : str) : str := rev (trimStart (rev s)).

Definition trim (s : str) : str := trimEnd (trimStart s).

Fixpoint str_eqb (a b : str) : bool :=
  match a, b with
  | [], [] => true
  | x :: a', y :: b' => Ascii.eqb x y && str_eqb a' b'
  | _, _ => false
  end.

Fixpoint startsWith (pre s : str) : bool :=
  match pre, s with
  | [], _ => true
  | x :: pre', y :: s' => Ascii.eqb x y && startsWith pre' s'
  | _ :: _, [] => false
  end.

(** [s.includes(sub)] *)
Fixpoint includes (s sub : str) : bool :=
  startsWith sub s ||
  match s with
  | [] => false
  | _ :: s' => includes s' sub
  end.

(** [s.split(c)] for a one-character separator; the result is never empty. *)
Fixpoint splitChar (sep : ascii) (s : str) : list str :=
  match s with
  | [] => [[]]
  | c :: s' =>
      if Ascii.eqb c sep then [] :: splitChar sep s'
      else match splitChar sep s' with
           | piece :: rest => (c :: piece) :: rest
           | [] => [[c]]
           end
  end.

(** [parts.join(sep)] *)
Fixpoint join (sep : str) (parts : list str) : str :=
  match parts with
  | [] => []
  | [p] => p
  | p :: rest => p ++ sep ++ join sep rest
  end.

(** [arr.slice(from)] and [arr.slice(from, to)] for indices inside 0..length *)
Definition sliceFrom {A} (from : nat) (l : list A) : list A := skipn from l.
Definition slice {A} (from to : nat) (l : list A) : list A :=
  firstn (to - from) (skipn from l).

(** [s.substring(0, n)] *)
Definition substring0 (n : nat) (s : str) : str := firstn n s.

(** [s.padStart(n, "0")] *)
Definition padStart0 (n : nat) (s : str) : str :=
  repeat "0"%char (n - length s) ++ s.

(** A string is falsy exactly when it is empty. *)
Definition truthyStr (s : str) : bool :=
  match s with [] => false | _ => true end.

(** Decimal rendering of a number inside a template literal. *)
Definition natToString (n : nat) : str :=
  lit (NilZero.string_of_uint (Nat.to_uint n)).
Definition intToString (z : Z) : str :=
  lit (NilZero.string_of_int (Z.to_int z)).

End JS.

Notation "$ s" := (JS.lit s) (at level 1, format "$ s").

(* ===================================================================== *)
(** ** Regular expressions: a backtracking matcher with the priority order
       of the ECMAScript pattern semantics *)
(* ===================================================================== *)

Module Regex.
Import JS.

Inductive regex : Type :=
| Eps
| Cls (p : ascii -> bool)            (* one code unit of a class *)
| Seq (r1 r2 : regex)
| Alt (r1 r2 : regex)                (* r1 is tried first *)
| Star (r : regex).                  (* greedy *)

Definition Chr (c : ascii) : regex := Cls (Ascii.eqb c).
(** a letter under the [/i] flag *)
Definition ChrI (c : ascii) : regex :=
  Cls (fun x => Ascii.eqb (upperAscii x) (upperAscii c)).
Definition Opt (r : regex) : regex := Alt r Eps.       (* greedy [?] *)
Definition Plus (r : regex) : regex := Seq r (Star r).  (* greedy [+] *)
Definition seqs (rs : list regex) : regex := fold_right Seq Eps rs.

(** [r{n}] *)
Fixpoint Rep (n : nat) (r : regex) : regex :=
  match n with
  | O => Eps
  | S n' => Seq r (Rep n' r)
  end.

(** greedy [r{0,n}] *)
Fixpoint RepUpTo (n : nat) (r : regex) : regex :=
  match n with
  | O => Eps
  | S n' => Opt (Seq r (RepUpTo n' r))
  end.

(** greedy [r{lo,hi}] *)
Definition RepRange (lo hi : nat) (r : regex) : regex :=
  Seq (Rep lo r) (RepUpTo (hi - lo) r).

(** a literal word, case-sensitive or under [/i] *)
Definition word (s : str) : regex := seqs (map Chr s).
Definition wordI (s : str) : regex := seqs (map ChrI s).

Definition digit : regex := Cls isDigit.
Definition space : regex := Cls isWhiteSpace.
Definition dot : regex := Cls (fun c => negb (isLineTerminator c)).

(** [rmatch r s k]: match [r] at the start of [s], trying the alternatives in
    the backtracking order of the specification, and hand the remaining
    input to the continuation [k]; the first success is returned.  An
    iteration of [Star] that consumes nothing is rejected, as in the
    RepeatMatcher of the standard. *)
Fixpoint rmatch {A} (r : regex) (s : str) (k : str -> option A) : option A :=
  match r with
  | Eps => k s
  | Cls p =>
      match s with
      | c :: s' => if p c then k s' else None
      | [] => None
      end
  | Seq r1 r2 => rmatch r1 s (fun s' => rmatch r2 s' k)
  | Alt r1 r2 =>
      match rmatch r1 s k with
      | Some x => Some x
      | None => rmatch r2 s k
      end
  | Star r' =>
      (fix star (fuel : nat) (s : str) : option A :=
         match fuel with
         | O => k s
         | S fuel' =>
             match rmatch r' s (fun s' =>
                     if length s' <? length s then star fuel' s' else None) with
             | Some x => Some x
             | None => k s
             end
         end) (length s) s
  end.

(** The input left after the match of [r] at the very start of [s]. *)
Definition matchAt (r : regex) (s : str) : option str := rmatch r s Some.

(** One call of RegExpBuiltinExec from the start of [s]: the leftmost match,
    as (text before, matched text, text after).  None of the patterns of the
    sources has an anchor, a word boundary or a look-around, so a match
    depends only on the input from its start position on. *)
Fixpoint search (r : regex) (s : str) : option (str * str * str) :=
  match matchAt r s with
  | Some after => Some ([], firstn (length s - length after) s, after)
  | None =>
      match s with
      | [] => None
      | c :: s' =>
          match search r s' with
          | Some (b, m, a) => Some (c :: b, m, a)
          | None => None
          end
      end
  end.

(** All matches of a global pattern, left to right; after an empty match the
    scan advances by one code unit. *)
Fixpoint matchAllFuel (fuel : nat) (r : regex) (s : str) : list str :=
  match fuel with
  | O => []
  | S fuel' =>
      match search r s with
      | None => []
      | Some (_, m, a) =>
          m :: match m, a with
               | [], [] => []
               | [], _ :: a' => matchAllFuel fuel' r a'
               | _ :: _, _ => matchAllFuel fuel' r a
               end
      end
  end.

Definition matchAll (r : regex) (s : str) : list str :=
  matchAllFuel (S (length s)) r s.

(** [s.match(r)] for a global [r]: [null] when there is no match, otherwise
    the array of all matched texts. *)
Definition strMatchG (r : regex) (s : str) : option (list str) :=
  match matchAll r s with
  | [] => None
  | ms => Some ms
  end.

(** [s.replace(r, by)] for a global [r] and a replacement without [$]. *)
Fixpoint replaceAllFuel (fuel : nat) (r : regex) (by_ : str) (s : str) : str :=
  match fuel with
  | O => s
  | S fuel' =>
      match search r s with
      | None => s
      | Some (b, m, a) =>
          b ++ by_ ++
          match m, a with
          | [], [] => []
          | [], c :: a' => c :: replaceAllFuel fuel' r by_ a'
          | _ :: _, _ => replaceAllFuel fuel' r by_ a
          end
      end
  end.

Definition replaceG (r : regex) (by_ : str) (s : str) : str :=
  replaceAllFuel (S (length s)) r by_ s.

(** [r.test(s)] for a pattern without the global flag. *)
Definition test (r : regex) (s : str) : bool :=
  match search r s with Some _ => true | None => false end.

(** [r.test(s)] for a global [r]: the search starts at [lastIndex]; the result
    comes with the new value of [lastIndex]. *)
Definition testG (r : regex) (lastIndex : nat) (s : str) : bool * nat :=
  if length s <? lastIndex then (false, 0)
  else match search r (skipn lastIndex s) with
       | Some (b, m, _) => (true, lastIndex + length b + length m)
       | None => (false, 0)
       end.

(** [s.split(r)] without a limit.  [piece] holds, reversed, the code units
    since the end of the previous separator. *)
Fixpoint splitLoop (fuel : nat) (r : regex) (piece : str) (rest : str) : list str :=
  match fuel with
  | O => [rev piece ++ rest]
  | S fuel' =>
      match rest with
      | [] => [rev piece]
      | c :: rest' =>
          match matchAt r rest with
          | None => splitLoop fuel' r (c :: piece) rest'
          | Some after =>
              if (length after =? length rest) && negb (truthyStr piece)
              then splitLoop fuel' r (c :: piece) rest'
              else rev piece :: splitLoop fuel' r [] after
          end
      end
  end.

Definition split (r : regex) (s : str) : list str :=
  match s with
  | [] => match matchAt r [] with Some _ => [] | None => [[]] end
  | _ => splitLoop (2 * length s + 1) r [] s
  end.

(** *** The language of a pattern *)

(** [lang r s]: the text [s] is matched by [r] as a whole. *)
Inductive lang : regex -> str -> Prop :=
| L_Eps : lang Eps []
| L_Cls p c : p c = true -> lang (Cls p) [c]
| L_Seq r1 r2 s1 s2 : lang r1 s1 -> lang r2 s2 -> lang (Seq r1 r2) (s1 ++ s2)
| L_AltL r1 r2 s : lang r1 s -> lang (Alt r1 r2) s
| L_AltR r1 r2 s : lang r2 s -> lang (Alt r1 r2) s
| L_Star0 r : lang (Star r) []
| L_StarS r s1 s2 : lang r s1 -> lang (Star r) s2 -> lang (Star r) (s1 ++ s2).

Create HintDb regex.
#[export] Hint Constructors lang : regex.

(** Splitting at the code units of a class, written by recursion on the
    text: the function that [split] is compared with. *)
Fixpoint splitBy (p : ascii -> bool) (piece : str) (s : str) : list str :=
  match s with
  | [] => [rev piece]
  | c :: s' => if p c then rev piece :: splitBy p [] s' else splitBy p (c :: piece) s'
  end.

End Regex.

(* ===================================================================== *)
(** ** Numbers: the results of [parseFloat] and the tests applied to them *)
(* ===================================================================== *)

Module Num.
Import JS.

Inductive jsnum : Type :=
| NaN
| PosInf
| NegInf
| Fin (q : Q).

Definition zero : jsnum := Fin 0%Q.

(** [x === 0] (true for both zeros), [x !== 0], [x < 0], [x > 0], [x >= 0] *)
Definition isZero (x : jsnum) : bool :=
  match x with Fin q => Qeq_bool q 0 | _ => false end.
Definition neZero (x : jsnum) : bool := negb (isZero x).
Definition ltZero (x : jsnum) : bool :=
  match x with NegInf => true | Fin q => negb (Qle_bool 0 q) | _ => false end.
Definition gtZero (x : jsnum) : bool :=
  match x with PosInf => true | Fin q => negb (Qle_bool q 0) | _ => false end.
Definition geZero (x : jsnum) : bool :=
  match x with PosInf => true | Fin q => Qle_bool 0 q | _ => false end.

(** ToBoolean of a number: false for NaN and the zeros. *)
Definition truthy (x : jsnum) : bool :=
  match x with NaN => false | Fin q => negb (Qeq_bool q 0) | _ => true end.

(** [a || b] on numbers *)
Definition orElse (a b : jsnum) : jsnum := if truthy a then a else b.

(** [Math.abs] *)
Definition abs (x : jsnum) : jsnum :=
  match x with
  | NaN => NaN
  | PosInf | NegInf => PosInf
  | Fin q => Fin (Qabs q)
  end.

Definition digitVal (c : ascii) : Z := Z.of_nat (code c - 48).

Definition digitsVal (ds : str) : Z :=
  fold_left (fun acc c => (10 * acc + digitVal c)%Z) ds 0%Z.

(** the longest prefix made of code units of a class, and the rest *)
Fixpoint span (p : ascii -> bool) (s : str) : str * str :=
  match s with
  | c :: s' => if p c then let (a, b) := span p s' in (c :: a, b) else ([], s)
  | [] => ([], [])
  end.

Definition readSign (s : str) : bool * str :=
  match s with
  | c :: t => if Ascii.eqb c "-" then (true, t)
              else if Ascii.eqb c "+" then (false, t)
              else (false, s)
  | [] => (false, [])
  end.

(** Saturation of the nearest double: a magnitude of at most 2^-1075 becomes
    zero, one of at least 2^1024 - 2^970 becomes an infinity. *)
Definition underflowBound : Q := Qmake 1 (2 ^ 1075)%positive.
Definition overflowBound : Q := inject_Z (2 ^ 1024 - 2 ^ 970)%Z.

Definition round (q : Q) : jsnum :=
  if Qle_bool (Qabs q) underflowBound then Fin 0%Q
  else if Qle_bool overflowBound (Qabs q)
       then (if Qle_bool 0 q then PosInf else NegInf)
       else Fin (Qred q).

Definition readExponent (s : str) : Z :=
  match s with
  | c :: t =>
      if Ascii.eqb c "e" || Ascii.eqb c "E" then
        let (neg, t1) := readSign t in
        let (ds, _) := span isDigit t1 in
        match ds with
        | [] => 0%Z
        | _ => if neg then (- digitsVal ds)%Z else digitsVal ds
        end
      else 0%Z
  | [] => 0%Z
  end.

(** The unsigned part of a StrDecimalLiteral at the start of [s1]; [neg]
    tells whether a minus sign came before it. *)
Definition parseUnsigned (neg : bool) (s1 : str) : jsnum :=
  if startsWith $"Infinity" s1 then (if neg then NegInf else PosInf)
  else
    let (ip, s2) := span isDigit s1 in
    let (fp, s3) :=
      match s2 with
      | c :: t => if Ascii.eqb c "." then span isDigit t else ([], s2)
      | [] => ([], s2)
      end in
    match ip ++ fp with
    | [] => NaN
    | ds =>
        let e := (readExponent s3 - Z.of_nat (length fp))%Z in
        let m := inject_Z (digitsVal ds) in
        let v := (m * Qpower (inject_Z 10) e)%Q in
        round (if neg then Qopp v else v)
    end.

(** [parseFloat]: leading blanks are skipped, then the longest prefix that is
    a StrDecimalLiteral is read; NaN when there is none. *)
Definition parseFloat (s : str) : jsnum :=
  let (neg, s1) := readSign (trimStart s) in
  parseUnsigned neg s1.

End Num.

(* ===================================================================== *)
(** ** Data model ([types/financial]) *)
(* ===================================================================== *)

Module Model.
Import JS Num.

Inductive TxType : Type := credit | debit.

Inductive Severity : Type := warning | error.

Record ImportError : Type := {
  err_row : option nat;
  err_message : str;
  err_severity : Severity
}.

Record ParsedTransaction : Type := {
  tx_id : str;
  tx_date : str;
  tx_description : str;
  tx_amount : jsnum;
  tx_type : TxType;
  tx_category : str;
  tx_balance : option jsnum;
  tx_reference : option str;
  tx_isReconciled : bool;
  tx_confidence : Q
}.

(** [{ ...tx, id }] *)
Definition withId (tx : ParsedTransaction) (id : str) : ParsedTransaction :=
  {| tx_id := id;
     tx_date := tx_date tx;
     tx_description := tx_description tx;
     tx_amount := tx_amount tx;
     tx_type := tx_type tx;
     tx_category := tx_category tx;
     tx_balance := tx_balance tx;
     tx_reference := tx_reference tx;
     tx_isReconciled := tx_isReconciled tx;
     tx_confidence := tx_confidence tx |}.

(** The result object [{ transactions, errors }] of the parsers. *)
Record ParseResult : Type := {
  transactions : list ParsedTransaction;
  errors : list ImportError
}.

(** A value thrown by the code or by a collaborator: an [Error] with its
    message, or anything else. *)
Inductive Thrown : Type :=
| ErrorObject (message : str)
| NonError.

(** How the promise returned by an [async] function settles. *)
Inductive Promise (A : Type) : Type :=
| Resolved (value : A)
| Rejected (reason : Thrown).
Arguments Resolved {A} value.
Arguments Rejected {A} reason.

(** The (date, description, amount, direction, category) view of a
    transaction. *)
Definition content (tx : ParsedTransaction) : str * str * jsnum * TxType * str :=
  (tx_date tx, tx_description tx, tx_amount tx, tx_type tx, tx_category tx).

End Model.

(* ===================================================================== *)
(** ** [src/lib/pdfParser.ts] *)
(* ===================================================================== *)

Module PdfParser.
Import JS Regex Num Model.

Record BankPattern : Type := {
  datePattern : regex;
  amountPattern : regex;
  descriptionPattern : regex;
  balanceKeywords : list str
}.

Inductive BankType : Type := hdfc | icici | sbi | axis | generic.

Definition isSign (c : ascii) : bool := Ascii.eqb c "+" || Ascii.eqb c "-".
Definition isDateSep (c : ascii) : bool := Ascii.eqb c "/" || Ascii.eqb c "-".

(** [/(\d{2}\/\d{2}\/\d{4})/g] *)
Definition dateSlash : regex :=
  seqs [Rep 2 digit; Chr "/"; Rep 2 digit; Chr "/"; Rep 4 digit].
(** [/(\d{2}-\d{2}-\d{4})/g] *)
Definition dateDash : regex :=
  seqs [Rep 2 digit; Chr "-"; Rep 2 digit; Chr "-"; Rep 4 digit].
(** [/(\d{1,2}[/-]\d{1,2}[/-]\d{4})/g] *)
Definition dateAny : regex :=
  seqs [RepRange 1 2 digit; Cls isDateSep; RepRange 1 2 digit; Cls isDateSep;
        Rep 4 digit].
(** [/([+-]?\d{1,3}(?:,\d{3})*(?:\.\d{2})?)/g] *)
Definition amountRe : regex :=
  seqs [Opt (Cls isSign); RepRange 1 3 digit;
        Star (seqs [Chr ","; Rep 3 digit]);
        Opt (seqs [Chr "."; Rep 2 digit])].
(** [/([A-Z0-9/-\s]+)/g] *)
Definition descriptionRe : regex :=
  Plus (Cls (fun c => in_range 65 90 c || isDigit c || isDateSep c
                      || isWhiteSpace c)).

Definition BANK_PATTERNS (bank : BankType) : BankPattern :=
  match bank with
  | hdfc => {| datePattern := dateSlash; amountPattern := amountRe;
               descriptionPattern := descriptionRe;
               balanceKeywords := [$"balance"; $"bal"] |}
  | icici => {| datePattern := dateDash; amountPattern := amountRe;
                descriptionPattern := descriptionRe;
                balanceKeywords := [$"balance"; $"bal"] |}
  | sbi => {| datePattern := dateDash; amountPattern := amountRe;
              descriptionPattern := descriptionRe;
              balanceKeywords := [$"balance"; $"bal"] |}
  | axis => {| datePattern := dateSlash; amountPattern := amountRe;
               descriptionPattern := descriptionRe;
               balanceKeywords := [$"balance"; $"bal"] |}
  | generic => {| datePattern := dateAny; amountPattern := amountRe;
                  descriptionPattern := descriptionRe;
                  balanceKeywords := [$"balance"; $"bal"; $"amount"] |}
  end.

(** *** The mutable part of the pattern objects

    [datePattern] and [amountPattern] carry the global flag, so each of the
    two RegExp objects of a bank profile has a [lastIndex] that survives from
    one call, and from one import, to the next.  [String.prototype.match] and
    [String.prototype.replace] write 0 to it before and after their scan;
    [RegExp.prototype.test] starts at it and leaves the end of its match. *)

Record RegexState : Type := {
  dateLastIndex : nat;
  amountLastIndex : nat
}.

Definition M (A : Type) : Type := RegexState -> A * RegexState.

Definition ret {A} (a : A) : M A := fun st => (a, st).
Definition bind {A B} (c : M A) (f : A -> M B) : M B :=
  fun st => let (a, st') := c st in f a st'.

Notation "x <- c ;; k" := (bind c (fun x => k))
  (at level 61, c at next level, right associativity).

Definition setDate (i : nat) (st : RegexState) : RegexState :=
  {| dateLastIndex := i; amountLastIndex := amountLastIndex st |}.
Definition setAmount (i : nat) (st : RegexState) : RegexState :=
  {| dateLastIndex := dateLastIndex st; amountLastIndex := i |}.

(** [s.match(patterns.datePattern)]: the first match and the further ones *)
Definition nonEmpty {A} (l : list A) : option (A * list A) :=
  match l with [] => None | x :: l' => Some (x, l') end.

Definition matchDate (p : BankPattern) (s : str) : M (option (str * list str)) :=
  fun st => (nonEmpty (matchAll (datePattern p) s), setDate 0 st).
Definition matchAmount (p : BankPattern) (s : str) : M (option (str * list str)) :=
  fun st => (nonEmpty (matchAll (amountPattern p) s), setAmount 0 st).

(** [s.replace(patterns.datePattern, '')] *)
Definition stripDate (p : BankPattern) (s : str) : M str :=
  fun st => (replaceG (datePattern p) [] s, setDate 0 st).
Definition stripAmount (p : BankPattern) (s : str) : M str :=
  fun st => (replaceG (amountPattern p) [] s, setAmount 0 st).

(** [patterns.datePattern.test(s)] *)
Definition testDate (p : BankPattern) (s : str) : M bool :=
  fun st => let (b, i) := testG (datePattern p) (dateLastIndex st) s in
            (b, setDate i st).
Definition testAmount (p : BankPattern) (s : str) : M bool :=
  fun st => let (b, i) := testG (amountPattern p) (amountLastIndex st) s in
            (b, setAmount i st).

(** [arr.findIndex(f)], -1 when no element passes *)
Fixpoint findIndexFromM {A} (f : A -> M bool) (l : list A) (i : Z) : M Z :=
  match l with
  | [] => ret (-1)%Z
  | x :: l' =>
      b <- f x ;;
      if b then ret i else findIndexFromM f l' (i + 1)%Z
  end.
Definition findIndexM {A} (f : A -> M bool) (l : list A) : M Z :=
  findIndexFromM f l 0%Z.

(** a [for] loop over the elements of a list, threading the accumulator *)
Fixpoint forEachM {A B} (body : A -> B -> M B) (l : list A) (acc : B) : M B :=
  match l with
  | [] => ret acc
  | x :: l' => acc' <- body x acc ;; forEachM body l' acc'
  end.

(** *** standardizeDate *)

(** [today] is [new Date().toISOString().split('T')[0]]. *)
Definition standardizeDate (today : str) (dateStr : str) : str :=
  let cleaned := replaceG (Cls (fun c => negb (isDigit c || isDateSep c))) [] dateStr in
  let parts := split (Cls isDateSep) cleaned in
  match parts with
  | [day; month; year] =>
      let fullYear := if length year =? 2 then $"20" ++ year else year in
      fullYear ++ $"-" ++ padStart0 2 month ++ $"-" ++ padStart0 2 day
  | _ => today
  end.

(** *** categorizeTransaction *)

(** The [if] chain of the source, one entry per line, in its order. *)
Definition categoryRules : list (list str * str) :=
  [ ([$"salary"; $"credit"; $"deposit"], $"income");
    ([$"interest"; $"dividend"], $"income");
    ([$"refund"; $"cashback"], $"income");
    ([$"grocery"; $"supermarket"; $"food"], $"food");
    ([$"restaurant"; $"cafe"; $"dining"], $"food");
    ([$"swiggy"; $"zomato"; $"delivery"], $"food");
    ([$"fuel"; $"petrol"; $"diesel"], $"transport");
    ([$"uber"; $"ola"; $"taxi"], $"transport");
    ([$"metro"; $"bus"; $"train"], $"transport");
    ([$"parking"; $"toll"], $"transport");
    ([$"amazon"; $"flipkart"; $"myntra"], $"shopping");
    ([$"mall"; $"store"; $"shop"], $"shopping");
    ([$"clothing"; $"fashion"], $"shopping");
    ([$"electricity"; $"power"], $"utilities");
    ([$"water"; $"gas"], $"utilities");
    ([$"internet"; $"wifi"; $"broadband"], $"utilities");
    ([$"mobile"; $"phone"; $"recharge"], $"utilities");
    ([$"netflix"; $"prime"; $"hotstar"], $"entertainment");
    ([$"movie"; $"cinema"; $"theatre"], $"entertainment");
    ([$"game"; $"gaming"], $"entertainment");
    ([$"atm"; $"cash"], $"cash");
    ([$"transfer"; $"neft"; $"imps"], $"transfer");
    ([$"payment"; $"bill"], $"payment");
    ([$"rent"; $"emi"], $"payment");
    ([$"medical"; $"hospital"; $"pharmacy"], $"healthcare");
    ([$"doctor"; $"clinic"], $"healthcare") ].

Fixpoint firstRule (rules : list (list str * str)) (desc : str) : str :=
  match rules with
  | [] => $"other"
  | (keywords, category) :: rest =>
      if existsb (includes desc) keywords then category
      else firstRule rest desc
  end.

Definition categorizeTransaction (description : str) : str :=
  firstRule categoryRules (toLowerCase description).

(** *** detectBankType *)

Definition detectBankType (text : str) : BankType :=
  let lowerText := toLowerCase text in
  if includes lowerText $"hdfc" then hdfc
  else if includes lowerText $"icici" then icici
  else if includes lowerText $"state bank" || includes lowerText $"sbi" then sbi
  else if includes lowerText $"axis" then axis
  else generic.

(** *** Helpers shared by the strategies *)

(** [amounts[amounts.length - 1] || amounts[0] || 0] for the non-empty array
    [a0 :: rest] *)
Definition pickAmount (a0 : jsnum) (rest : list jsnum) : jsnum :=
  orElse (orElse (last rest a0) a0) zero.

(** [parseFloat(a.replace(/,/g, ''))] *)
Definition parseAmount (a : str) : jsnum :=
  parseFloat (replaceG (Chr ",") [] a).

(** The direction of the tabular and regex strategies. *)
Definition directionOf (amount : jsnum) (line : str) : TxType :=
  if ltZero amount then debit
  else if includes (toLowerCase line) $"dr" || includes (toLowerCase line) $"debit"
       then debit
  else if includes (toLowerCase line) $"cr" || includes (toLowerCase line) $"credit"
       then credit
  else credit.

(** [s || 'Transaction'] *)
Definition orTransaction (s : str) : str :=
  if truthyStr s then s else $"Transaction".

Definition tempId (n : nat) : str := $"temp-" ++ natToString n.

(** *** parseTabularFormat *)

Definition headerPatterns : list regex :=
  [ seqs [wordI $"date"; Star dot; wordI $"description"; Star dot; wordI $"amount"];
    seqs [wordI $"date"; Star dot; wordI $"narration"; Star dot; wordI $"amount"];
    seqs [wordI $"date"; Star dot; wordI $"particulars"; Star dot; wordI $"amount"];
    seqs [wordI $"date"; Star dot; wordI $"details"; Star dot; wordI $"amount"];
    seqs [wordI $"transaction"; Star dot; wordI $"date"; Star dot; wordI $"amount"] ].

(** first loop: the index of the first header line, or -1 *)
Fixpoint findHeaderLine (lines : list str) (i : Z) : Z :=
  match lines with
  | [] => (-1)%Z
  | l :: rest =>
      if existsb (fun pattern => test pattern (toLowerCase l)) headerPatterns
      then i
      else findHeaderLine rest (i + 1)%Z
  end.

(** second loop, run when no header was found: the line before the first
    one with a date and an amount, or -1 *)
Fixpoint findFirstDataLine (p : BankPattern) (lines : list str) (i : Z) : M Z :=
  match lines with
  | [] => ret (-1)%Z
  | line :: rest =>
      dateMatch <- matchDate p line ;;
      amountMatch <- matchAmount p line ;;
      match dateMatch, amountMatch with
      | Some _, Some _ => ret (i - 1)%Z
      | _, _ => findFirstDataLine p rest (i + 1)%Z
      end
  end.

Definition tabularDescription (parts : list str) (dateIndex amountIndex : Z) : str :=
  if negb (dateIndex =? -1)%Z && negb (amountIndex =? -1)%Z
     && (dateIndex + 1 <? amountIndex)%Z
  then trim (join $" " (slice (Z.to_nat (dateIndex + 1)) (Z.to_nat amountIndex) parts))
  else if negb (dateIndex =? -1)%Z
  then trim (join $" " (sliceFrom (Z.to_nat (dateIndex + 1)) parts))
  else $"Transaction".

Definition truncate100 (description : str) : str :=
  if 100 <? length description
  then substring0 100 description ++ $"..."
  else description.

(** the body of the row loop for one line; [transactions] is the array
    built so far *)
Definition tabularRow (today : str) (p : BankPattern) (rawLine : str)
    (transactions : list ParsedTransaction) : M (list ParsedTransaction) :=
  let line := trim rawLine in
  if negb (truthyStr line) || (length line <? 10) then ret transactions
  else
    dateMatch <- matchDate p line ;;
    amountMatches <- matchAmount p line ;;
    match dateMatch, amountMatches with
    | Some (d0, _), Some (a0, arest) =>
        let date := standardizeDate today d0 in
        let amount := pickAmount (parseAmount a0) (map parseAmount arest) in
        let type := directionOf amount line in
        let parts := split (Plus space) line in
        dateIndex <- findIndexM (testDate p) parts ;;
        amountIndex <- findIndexM (testAmount p) parts ;;
        stripped <- stripAmount p (tabularDescription parts dateIndex amountIndex) ;;
        let description := truncate100 (trim stripped) in
        if truthyStr description && neZero amount
        then ret (transactions ++
                  [ {| tx_id := tempId (length transactions);
                       tx_date := date;
                       tx_description := orTransaction description;
                       tx_amount := abs amount;
                       tx_type := type;
                       tx_category := categorizeTransaction description;
                       tx_balance := None;
                       tx_reference := None;
                       tx_isReconciled := false;
                       tx_confidence := (8 # 10)%Q |} ])
        else ret transactions
    | _, _ => ret transactions
    end.

Definition parseTabularFormat (today : str) (lines : list str) (p : BankPattern)
    : M (list ParsedTransaction) :=
  let headerLine0 := findHeaderLine lines 0%Z in
  headerLine <- (if (headerLine0 =? -1)%Z then findFirstDataLine p lines 0%Z
                 else ret headerLine0) ;;
  let startIndex := if (headerLine =? -1)%Z then 0%Z else (headerLine + 1)%Z in
  forEachM (tabularRow today p) (skipn (Z.to_nat startIndex) lines) [].

(** *** parseLineByLineFormat *)

(** the loop body for the window starting at [lines[i]]; [lines[i + 1]] and
    [lines[i + 2]] exist for every [i] of the loop, and [s || ''] is [s] *)
Definition windowStep (today : str) (p : BankPattern)
    (current next third : str)
    (transactions : list ParsedTransaction) : M (list ParsedTransaction) :=
  let currentLine := trim current in
  let nextLine := trim next in
  let thirdLine := trim third in
  let combinedLine := currentLine ++ $" " ++ nextLine ++ $" " ++ thirdLine in
  dateMatch <- matchDate p combinedLine ;;
  amountMatch <- matchAmount p combinedLine ;;
  match dateMatch, amountMatch with
  | Some (d0, _), Some (a0, _) =>
      let date := standardizeDate today d0 in
      let amount := parseAmount a0 in
      noDate <- stripDate p currentLine ;;
      noAmount <- stripAmount p noDate ;;
      ret (transactions ++
           [ {| tx_id := tempId (length transactions);
                tx_date := date;
                tx_description := orTransaction (trim noAmount);
                tx_amount := abs amount;
                tx_type := if ltZero amount then debit else credit;
                tx_category := $"other";
                tx_balance := None;
                tx_reference := None;
                tx_isReconciled := false;
                tx_confidence := (7 # 10)%Q |} ])
  | _, _ => ret transactions
  end.

(** [for (let i = 0; i < lines.length - 2; i++)] *)
Fixpoint lineWindows (today : str) (p : BankPattern) (lines : list str)
    (transactions : list ParsedTransaction) : M (list ParsedTransaction) :=
  match lines with
  | current :: rest =>
      match rest with
      | next :: third :: _ =>
          acc <- windowStep today p current next third transactions ;;
          lineWindows today p rest acc
      | _ => ret transactions
      end
  | [] => ret transactions
  end.

Definition parseLineByLineFormat (today : str) (lines : list str) (p : BankPattern)
    : M (list ParsedTransaction) :=
  lineWindows today p lines [].

(** *** parseRegexFormat *)

(** [.replace(/[^\w\s]/g, ' ').replace(/\s+/g, ' ').trim()] *)
Definition alnumTokens (s : str) : str :=
  trim (replaceG (Plus space) $" "
          (replaceG (Cls (fun c => negb (isWordChar c || isWhiteSpace c))) $" " s)).

Definition regexRow (today : str) (p : BankPattern) (line : str)
    (transactions : list ParsedTransaction) : M (list ParsedTransaction) :=
  dateMatch <- matchDate p line ;;
  amountMatches <- matchAmount p line ;;
  match dateMatch, amountMatches with
  | Some (d0, _), Some (a0, arest) =>
      let date := standardizeDate today d0 in
      let amount := pickAmount (parseAmount a0) (map parseAmount arest) in
      let type := directionOf amount line in
      noDate <- stripDate p line ;;
      noAmount <- stripAmount p noDate ;;
      let description := alnumTokens (trim noAmount) in
      if truthyStr description && neZero amount
      then ret (transactions ++
                [ {| tx_id := tempId (length transactions);
                     tx_date := date;
                     tx_description := orTransaction description;
                     tx_amount := abs amount;
                     tx_type := type;
                     tx_category := categorizeTransaction description;
                     tx_balance := None;
                     tx_reference := None;
                     tx_isReconciled := false;
                     tx_confidence := (6 # 10)%Q |} ])
      else ret transactions
  | _, _ => ret transactions
  end.

Definition parseRegexFormat (today : str) (text : str) (p : BankPattern)
    : M (list ParsedTransaction) :=
  let lines := filter (fun line => truthyStr (trim line)) (splitChar "010" text) in
  forEachM (regexRow today p) lines [].

(** *** parseTransactionsFromText *)

Inductive Strategy : Type := Tabular | LineGrouped | RegexSweep.

Definition strategies : list Strategy := [Tabular; LineGrouped; RegexSweep].

Definition runStrategy (today : str) (p : BankPattern) (allLines : list str)
    (text : str) (s : Strategy) : M (list ParsedTransaction) :=
  match s with
  | Tabular => parseTabularFormat today allLines p
  | LineGrouped => parseLineByLineFormat today allLines p
  | RegexSweep => parseRegexFormat today text p
  end.

(** The loop over the strategies, with its [break].  Besides the array
    [transactions] the result lists the strategies that were called. *)
Fixpoint strategyLoop (run : Strategy -> M (list ParsedTransaction))
    (ss : list Strategy) (transactions : list ParsedTransaction)
    : M (list Strategy * list ParsedTransaction) :=
  match ss with
  | [] => ret ([], transactions)
  | s :: rest =>
      result <- run s ;;
      if 0 <? length result
      then ret ([s], transactions ++ result)
      else r <- strategyLoop run rest transactions ;;
           ret (s :: fst r, snd r)
  end.

Definition splitLines (text : str) : list str :=
  filter (fun line => 0 <? length (trim line)) (splitChar "010" text).

Definition recognise (today : str) (text : str) (bank : BankType)
    : M (list Strategy * list ParsedTransaction) :=
  strategyLoop (runStrategy today (BANK_PATTERNS bank) (splitLines text) text)
               strategies [].

Fixpoint mapIndexed {A B} (f : A -> nat -> B) (l : list A) (i : nat) : list B :=
  match l with
  | [] => []
  | x :: l' => f x i :: mapIndexed f l' (S i)
  end.

Definition isValid (tx : ParsedTransaction) : bool :=
  truthyStr (tx_date tx) && neZero (tx_amount tx).

Definition pdfId (now : Z) (index : nat) : str :=
  $"pdf-" ++ intToString now ++ $"-" ++ natToString index.

Definition noValidTransactions : ImportError :=
  {| err_row := None;
     err_message := $"No valid transactions could be extracted from the PDF text";
     err_severity := warning |}.

(** [now index] is the value of [Date.now()] read while the transaction at
    [index] gets its id. *)
Definition parseTransactionsFromText (today : str) (now : nat -> Z)
    (text : str) (bank : BankType) : M ParseResult :=
  r <- recognise today text bank ;;
  let validTransactions :=
    mapIndexed (fun tx index => withId tx (pdfId (now index) index))
               (filter isValid (snd r)) 0 in
  ret {| transactions := validTransactions;
         errors := if length validTransactions =? 0
                   then [noValidTransactions] else [] |}.

(** *** parsePDFBankStatement *)

Record File : Type := {
  file_name : str;
  file_type : str;
  file_size : Z
}.

Record PDFParseConfig : Type := {
  maxPages : option nat;
  confidenceThreshold : option Q;
  bankType : option BankType
}.

Definition defaultConfig : PDFParseConfig :=
  {| maxPages := None; confidenceThreshold := None; bankType := None |}.

Definition errorEntry (message : str) : ImportError :=
  {| err_row := None; err_message := message; err_severity := error |}.

Definition noTransactionsFound : ImportError :=
  errorEntry $"No transactions found in PDF. This might not be a bank statement or the format is not supported.".

Definition thrownMessage (e : Thrown) : str :=
  match e with
  | ErrorObject m => m
  | NonError => $"Unknown PDF parsing error"
  end.

(** [bankType === 'generic' ? detectBankType(text) : bankType], where an
    absent [bankType] defaults to ['generic'] *)
Definition detectedBankType (config : PDFParseConfig) (text : str) : BankType :=
  match bankType config with
  | Some generic | None => detectBankType text
  | Some b => b
  end.

(** [!text || text.trim().length === 0] *)
Definition noText (text : str) : bool :=
  negb (truthyStr text) || (length (trim text) =? 0).

Definition pdfMime : str := $"application/pdf".
Definition sizeLimit : Z := (50 * 1024 * 1024)%Z.

(** The [try] block.  [pdfToText] is the text-layer extraction of
    react-pdftotext: it yields the text or throws.  The result is either the
    value thrown inside the block or the value it returns, together with the
    number of calls made to [pdfToText]. *)
Definition tryBlock (pdfToText : File -> Thrown + str) (today : str)
    (now : nat -> Z) (file : option File) (config : PDFParseConfig)
    : M ((Thrown + ParseResult) * nat) :=
  match file with
  | None => ret (inl (ErrorObject $"Invalid PDF file provided"), 0)
  | Some f =>
      if negb (str_eqb (file_type f) pdfMime)
      then ret (inl (ErrorObject $"Invalid PDF file provided"), 0)
      else if (sizeLimit <? file_size f)%Z
      then ret (inl (ErrorObject $"PDF file too large (max 50MB)"), 0)
      else
        match pdfToText f with
        | inl e => ret (inl e, 1)
        | inr text =>
            if noText text
            then ret (inl (ErrorObject $"No text could be extracted from the PDF. The file might be scanned or corrupted."), 1)
            else
              parsed <- parseTransactionsFromText today now text
                          (detectedBankType config text) ;;
              let txs := transactions parsed in
              let errs := errors parsed in
              ret (inr {| transactions := txs;
                          errors := if length txs =? 0
                                    then errs ++ [noTransactionsFound]
                                    else errs |}, 1)
        end
  end.

(** The whole function: the [catch] clause turns every thrown value into a
    result object.  The promise and the number of extraction calls are
    returned. *)
Definition parsePDFBankStatement (pdfToText : File -> Thrown + str) (today : str)
    (now : nat -> Z) (file : option File) (config : PDFParseConfig)
    : M (Promise ParseResult * nat) :=
  r <- tryBlock pdfToText today now file config ;;
  match r with
  | (inr result, calls) => ret (Resolved result, calls)
  | (inl e, calls) =>
      ret (Resolved {| transactions := [];
                       errors := [errorEntry ($"PDF parsing failed: " ++ thrownMessage e)] |},
           calls)
  end.

(** *** Notions used to state the properties *)

Definition digits (s : str) : Prop := Forall (fun c => isDigit c = true) s.

(** [raw] is made of three runs of digits separated by [/] or [-]. *)
Inductive threeComponents (raw day month year : str) : Prop :=
| ThreeComponents (s1 s2 : ascii) :
    raw = day ++ s1 :: month ++ s2 :: year ->
    digits day -> digits month -> digits year ->
    isDateSep s1 = true -> isDateSep s2 = true ->
    1 <= length day -> 1 <= length month -> length year = 4 ->
    threeComponents raw day month year.

(** [date] is the year-month-day rendering of the three numeric components
    of some text. *)
Definition resolvedDate (date : str) : Prop :=
  exists raw day month year,
    threeComponents raw day month year /\
    date = year ++ $"-" ++ padStart0 2 month ++ $"-" ++ padStart0 2 day.


(** the result object built by the [catch] clause *)
Definition failed (message : str) : ParseResult :=
  {| transactions := [];
     errors := [errorEntry ($"PDF parsing failed: " ++ message)] |}.

End PdfParser.

(* ===================================================================== *)
(** ** The CSV import of the financial data context, with
       [TRANSACTION_CATEGORIES] of [constants/gamification] *)
(* ===================================================================== *)

Module Csv.
Import JS Regex Num Model.

(** [Object.entries(TRANSACTION_CATEGORIES)], in insertion order *)
Definition TRANSACTION_CATEGORIES : list (str * list str) :=
  [ ($"food", [$"restaurant"; $"food"; $"cafe"; $"zomato"; $"swiggy"; $"dominos"; $"pizza"; $"mcdonald"]);
    ($"transport", [$"uber"; $"ola"; $"metro"; $"bus"; $"taxi"; $"petrol"; $"fuel"; $"parking"]);
    ($"shopping", [$"amazon"; $"flipkart"; $"mall"; $"store"; $"shop"; $"clothing"; $"electronics"]);
    ($"utilities", [$"electricity"; $"water"; $"gas"; $"internet"; $"mobile"; $"phone"; $"broadband"]);
    ($"entertainment", [$"movie"; $"cinema"; $"netflix"; $"spotify"; $"game"; $"theatre"; $"concert"]);
    ($"healthcare", [$"hospital"; $"clinic"; $"pharmacy"; $"medical"; $"doctor"; $"medicine"]);
    ($"education", [$"school"; $"college"; $"university"; $"course"; $"books"; $"fees"]);
    ($"groceries", [$"grocery"; $"supermarket"; $"vegetables"; $"milk"; $"bread"; $"provisions"]) ].

(** [category.charAt(0).toUpperCase() + category.slice(1)]; the keys of the
    table are ASCII words *)
Definition capitalize (category : str) : str :=
  match category with
  | [] => []
  | c :: rest => upperAscii c :: rest
  end.

Fixpoint firstCategory (table : list (str * list str)) (lowerDescription : str) : str :=
  match table with
  | [] => $"Other"
  | (category, keywords) :: rest =>
      if existsb (includes lowerDescription) keywords then capitalize category
      else firstCategory rest lowerDescription
  end.

Definition categorizeParsedTransaction (description : str) : str :=
  firstCategory TRANSACTION_CATEGORIES (toLowerCase description).

(** [arr.findIndex(f)] *)
Fixpoint findIndexFrom {A} (f : A -> bool) (l : list A) (i : Z) : Z :=
  match l with
  | [] => (-1)%Z
  | x :: l' => if f x then i else findIndexFrom f l' (i + 1)%Z
  end.
Definition findIndex {A} (f : A -> bool) (l : list A) : Z := findIndexFrom f l 0%Z.

(** the local function [getField] of [parseCSVTransaction] *)
Fixpoint getField (row headers : list str) (fieldNames : list str) : str :=
  match fieldNames with
  | [] => []
  | name :: rest =>
      let index := findIndex (fun h => includes (toLowerCase h) (toLowerCase name)) headers in
      if negb (index =? -1)%Z then
        match nth_error row (Z.to_nat index) with
        | Some cell => if truthyStr cell then trim cell else getField row headers rest
        | None => getField row headers rest
        end
      else getField row headers rest
  end.

Section WithDate.

(** [new Date(date).toISOString()]: the ISO text, or the RangeError thrown
    for a text the engine does not read as a date. *)
Variable toISOString : str -> Thrown + str.

(** [now] is [Date.now()], [rnd] is [Math.random().toString(36).substr(2, 9)]. *)
Definition parseCSVTransaction (now : Z) (rnd : str) (row headers : list str)
    : Thrown + ParsedTransaction :=
  let date := getField row headers [$"date"; $"transaction date"; $"value date"] in
  let description := getField row headers [$"description"; $"particulars"; $"narration"; $"details"] in
  let debitAmount := getField row headers [$"debit"; $"withdrawal"; $"debit amount"] in
  let creditAmount := getField row headers [$"credit"; $"deposit"; $"credit amount"] in
  let balance := getField row headers [$"balance"; $"running balance"; $"available balance"] in
  let reference := getField row headers [$"reference"; $"ref no"; $"transaction id"; $"cheque no"] in
  let isCredit := truthyStr creditAmount && gtZero (parseFloat creditAmount) in
  let amount := orElse (parseFloat (if isCredit then creditAmount else debitAmount)) zero in
  match toISOString date with
  | inl e => inl e
  | inr iso =>
      inr {| tx_id := $"parsed_" ++ intToString now ++ $"_" ++ rnd;
             tx_date := iso;
             tx_description := if truthyStr description then description
                               else $"Unknown Transaction";
             tx_amount := abs amount;
             tx_type := if isCredit then credit else debit;
             tx_category := categorizeParsedTransaction description;
             tx_balance := if truthyStr balance then Some (parseFloat balance) else None;
             tx_reference := if truthyStr reference then Some reference else None;
             tx_isReconciled := false;
             tx_confidence := if truthyStr description && gtZero amount
                              then (9 # 10)%Q else (5 # 10)%Q |}
  end.

(** [cell.trim()] with every single quote (code 39) and double quote
    (code 34) removed *)
Definition cleanCell (cell : str) : str :=
  replaceG (Cls (fun c => (code c =? 39) || (code c =? 34))) [] (trim cell).

Definition rowMessage (e : Thrown) : str :=
  $"Failed to parse row: " ++
  match e with ErrorObject m => m | NonError => $"Unknown error" end.

(** the loop over the data lines; [i] is the index of [line] in [lines] *)
Fixpoint csvRows (now : nat -> Z) (rnd : nat -> str) (headers : list str)
    (lines : list str) (i : nat) (acc : ParseResult) : ParseResult :=
  match lines with
  | [] => acc
  | line :: rest =>
      let row := map cleanCell (splitChar "," line) in
      let acc' :=
        if negb (length row =? length headers)
        then {| transactions := transactions acc;
                errors := errors acc ++
                  [ {| err_row := Some (i + 1);
                       err_message := $"Row has " ++ natToString (length row) ++
                                      $" columns but expected " ++
                                      natToString (length headers);
                       err_severity := warning |} ] |}
        else
          match parseCSVTransaction (now i) (rnd i) row headers with
          | inr transaction =>
              if gtZero (tx_amount transaction)
              then {| transactions := transactions acc ++ [transaction];
                      errors := errors acc |}
              else {| transactions := transactions acc;
                      errors := errors acc ++
                        [ {| err_row := Some (i + 1);
                             err_message := $"Unable to parse transaction amount";
                             err_severity := warning |} ] |}
          | inl e =>
              {| transactions := transactions acc;
                 errors := errors acc ++
                   [ {| err_row := Some (i + 1);
                        err_message := rowMessage e;
                        err_severity := error |} ] |}
          end in
      csvRows now rnd headers rest (S i) acc'
  end.

(** [parseCSVFile] on the text read from the file *)
Definition parseCSVFile (now : nat -> Z) (rnd : nat -> str) (csv : str) : ParseResult :=
  let lines := filter truthyStr (map trim (splitChar "010" csv)) in
  match lines with
  | header :: (_ :: _) =>
      let headers := map cleanCell (splitChar "," header) in
      csvRows now rnd headers (tl lines) 1 {| transactions := []; errors := [] |}
  | _ =>
      {| transactions := [];
         errors := [ {| err_row := None;
                        err_message := $"CSV file must contain at least a header and one data row";
                        err_severity := error |} ] |}
  end.

End WithDate.

End Csv.

(* ===================================================================== *)
(** ** Sample inputs *)
(* ===================================================================== *)

Module Samples.
Import JS Num Model PdfParser.

(** pattern objects that have not been used yet *)
Definition st0 : RegexState := {| dateLastIndex := 0; amountLastIndex := 0 |}.

Definition csvFile : File :=
  {| file_name := $"statement.csv"; file_type := $"text/csv"; file_size := 2048 |}.
Definition hugePdf : File :=
  {| file_name := $"statement.pdf"; file_type := pdfMime;
     file_size := 60 * 1024 * 1024 |}.
Definition scannedPdf : File :=
  {| file_name := $"scan.pdf"; file_type := pdfMime; file_size := 4096 |}.
Definition smallPdf : File :=
  {| file_name := $"statement.pdf"; file_type := pdfMime; file_size := 4096 |}.

(** two statement lines; the second ends with a zero amount *)
Definition salaryLine : str := $"01/04/2024 SALARY 1,200.00 35,000.50".
Definition zeroBalanceLine : str := $"01/04/2024 PAYMENT 500.00 0.00".

(** a line with a description of 101 letters, and one with 150 letters
    before the date *)
Definition line101 : str := $"01/04/2024 " ++ repeat "A"%char 101 ++ $" 500.00".
Definition longLine : str := repeat "A"%char 150 ++ $" 01/04/2024 500.00".

(** three short lines whose first amount-pattern match is a zero *)
Definition zeroFirstText : str :=
  $"0 x" ++ ["010"%char] ++ $"1/4/2024" ++ ["010"%char] ++ $"y".

(** the CSV file of the scenario of the specification *)
Definition scenarioCsv : str :=
  $"Date,Narration,Debit,Credit,Balance" ++ ["010"%char]
   ++ $"01/04/2024,ATM WDL,500,,1200".

(** a date parser that accepts every text *)
Definition isoMidnight (s : str) : Thrown + str := inr (s ++ $"T00:00:00.000Z").

End Samples.


(* ===================================================================== *)
(** ** Patterns that match the empty text *)
(* ===================================================================== *)

Module Nullable.
Import JS Regex.

(** [nullable r]: the pattern [r] matches the empty text. *)
Fixpoint nullable (r : regex) : bool :=
  match r with
  | Eps => true
  | Cls _ => false
  | Seq r1 r2 => nullable r1 && nullable r2
  | Alt r1 r2 => nullable r1 || nullable r2
  | Star _ => true
  end.

End Nullable.

(* ===================================================================== *)
(** ** [constants/gamification]: levels, streaks and the bank name table *)
(* ===================================================================== *)

Module Gamification.
Import JS.

Record LevelThreshold : Type := {
  lt_level : nat;
  lt_requiredXP : Z;
  lt_title : str;
  lt_description : str;
  lt_perks : list str;
  lt_unlockedFeatures : list str
}.

Definition LEVEL_THRESHOLDS : list LevelThreshold :=
  [ {| lt_level := 1; lt_requiredXP := 0; lt_title := $"Beginner";
       lt_description := $"Just getting started!";
       lt_perks := []; lt_unlockedFeatures := [] |};
    {| lt_level := 2; lt_requiredXP := 100; lt_title := $"Learner";
       lt_description := $"Learning the ropes";
       lt_perks := [$"Basic insights"]; lt_unlockedFeatures := [$"budget_alerts"] |};
    {| lt_level := 3; lt_requiredXP := 250; lt_title := $"Tracker";
       lt_description := $"Consistent tracking";
       lt_perks := [$"Weekly summaries"]; lt_unlockedFeatures := [$"advanced_charts"] |};
    {| lt_level := 4; lt_requiredXP := 500; lt_title := $"Saver";
       lt_description := $"Building good habits";
       lt_perks := [$"Goal recommendations"];
       lt_unlockedFeatures := [$"investment_suggestions"] |};
    {| lt_level := 5; lt_requiredXP := 1000; lt_title := $"Budgeter";
       lt_description := $"Budget master";
       lt_perks := [$"Smart budget tips"]; lt_unlockedFeatures := [$"auto_budgeting"] |};
    {| lt_level := 6; lt_requiredXP := 2000; lt_title := $"Investor";
       lt_description := $"Growing wealth";
       lt_perks := [$"Investment insights"];
       lt_unlockedFeatures := [$"portfolio_analysis"] |};
    {| lt_level := 7; lt_requiredXP := 4000; lt_title := $"Expert";
       lt_description := $"Financial expert";
       lt_perks := [$"Premium features"];
       lt_unlockedFeatures := [$"advanced_analytics"] |};
    {| lt_level := 8; lt_requiredXP := 8000; lt_title := $"Master";
       lt_description := $"Finance master";
       lt_perks := [$"All features"]; lt_unlockedFeatures := [$"premium_support"] |} ].

(** The loop of [calculateLevel], over the thresholds from the last to the
    first; 1 when none is reached.  XP totals are integer-valued doubles;
    comparing them is exact. *)
Fixpoint firstReached (thresholds : list LevelThreshold) (totalXP : Z) : nat :=
  match thresholds with
  | [] => 1
  | t :: rest =>
      if (lt_requiredXP t <=? totalXP)%Z then lt_level t
      else firstReached rest totalXP
  end.

Definition calculateLevel (totalXP : Z) : nat :=
  firstReached (rev LEVEL_THRESHOLDS) totalXP.

(** The numbers of the code are doubles.  [roundToDouble z] is the double
    nearest to the integer [z], ties to even: an integer below 2^53 in
    magnitude is a double itself, a larger one keeps its 53 leading bits.
    (An XP total is itself a double, so no result here leaves the range of
    the doubles.) *)
Definition roundToDouble (z : Z) : Z :=
  let m := Z.abs z in
  if (m <? 2 ^ 53)%Z then z
  else
    let e := (Z.log2 m - 52)%Z in
    let q := (m / 2 ^ e)%Z in
    let r := (m mod 2 ^ e)%Z in
    let half := (2 ^ (e - 1))%Z in
    let q' := if (half <? r)%Z || ((r =? half)%Z && Z.odd q)
              then (q + 1)%Z else q in
    (Z.sgn z * (q' * 2 ^ e))%Z.

(** [a - b] and [a + b] on integer-valued doubles *)
Definition jsSub (a b : Z) : Z := roundToDouble (a - b).
Definition jsAdd (a b : Z) : Z := roundToDouble (a + b).

Definition calculateXPToNextLevel (totalXP : Z) : Z :=
  let currentLevel := calculateLevel totalXP in
  match find (fun t => lt_level t =? currentLevel + 1) LEVEL_THRESHOLDS with
  | None => 0%Z
  | Some nextLevelThreshold => jsSub (lt_requiredXP nextLevelThreshold) totalXP
  end.

Definition calculateStreakMultiplier (count : Z) : Q :=
  if (30 <=? count)%Z then 3%Q
  else if (14 <=? count)%Z then 2%Q
  else if (7 <=? count)%Z then (3 # 2)%Q
  else 1%Q.

(** [Object.entries(BANK_PATTERNS)] of the constants, in insertion order *)
Definition BANK_PATTERNS : list (str * list str) :=
  [ ($"SBI", [$"state bank"; $"sbi"; $"state bank of india"]);
    ($"HDFC", [$"hdfc"; $"hdfc bank"]);
    ($"ICICI", [$"icici"; $"icici bank"]);
    ($"AXIS", [$"axis"; $"axis bank"]);
    ($"KOTAK", [$"kotak"; $"kotak mahindra"]);
    ($"PNB", [$"pnb"; $"punjab national bank"]);
    ($"BOI", [$"bank of india"; $"boi"]);
    ($"CANARA", [$"canara"; $"canara bank"]);
    ($"UNION", [$"union bank"; $"union bank of india"]);
    ($"BOB", [$"bank of baroda"; $"bob"]) ].

End Gamification.

(* ===================================================================== *)
(** ** Helpers of the financial data context and of the import component *)
(* ===================================================================== *)

Module ImportUi.
Import JS Num Model PdfParser.

(** [detectBankFromText] of the context: the first bank of the table with a
    name pattern in the text, [undefined] when there is none *)
Fixpoint firstBank (table : list (str * list str)) (lowerText : str) : option str :=
  match table with
  | [] => None
  | (bank, patterns) :: rest =>
      if existsb (includes lowerText) patterns then Some bank
      else firstBank rest lowerText
  end.

Definition detectBankFromText (text : str) : option str :=
  firstBank Gamification.BANK_PATTERNS (toLowerCase text).

(** [isImageBasedPDFError] of the import component *)
Definition isImageBasedPDFError (errors : list ImportError) : bool :=
  existsb (fun e =>
             includes (toLowerCase (err_message e)) $"no text could be extracted"
             || includes (toLowerCase (err_message e)) $"pdf parsing failed")
          errors.

(** [isValidFile] of the import component: the verdict and the text of the
    alert it shows, if any *)
Definition isValidFile (file : File) : bool * option str :=
  let validTypes := [$"text/csv"; $"application/pdf"] in
  let maxSize := (10 * 1024 * 1024)%Z in
  if negb (existsb (str_eqb (file_type file)) validTypes)
  then (false, Some $"Please select a CSV or PDF file.")
  else if (maxSize <? file_size file)%Z
  then (false, Some $"File size must be less than 10MB.")
  else (true, None).

End ImportUi.
(* ===================================================================== *)
(** ** The financial data context: the reducer and [importStatement] *)
(* ===================================================================== *)

Module FinancialData.
Import JS Regex Num Model PdfParser Csv ImportUi.

Inductive FileType : Type := ft_csv | ft_pdf.

Inductive Status : Type := st_processing | st_completed | st_failed.

Record StatementPeriod : Type := {
  startDate : str;
  endDate : str
}.

Record BankStatement : Type := {
  bs_id : str;
  bs_fileName : str;
  bs_fileType : FileType;
  bs_uploadedAt : str;
  bs_processedAt : option str;
  bs_status : Status;
  bs_bankName : option str;
  bs_accountNumber : option str;
  bs_statementPeriod : StatementPeriod;
  bs_transactionCount : nat;
  bs_errors : list ImportError
}.

(** [Partial<BankStatement>]: [None] is a key that is absent.  A key of an
    optional field can be present with the value [undefined], which is
    [Some None]. *)
Record BankStatementUpdates : Type := {
  up_id : option str;
  up_fileName : option str;
  up_fileType : option FileType;
  up_uploadedAt : option str;
  up_processedAt : option (option str);
  up_status : option Status;
  up_bankName : option (option str);
  up_accountNumber : option (option str);
  up_statementPeriod : option StatementPeriod;
  up_transactionCount : option nat;
  up_errors : option (list ImportError)
}.

Definition orKeep {A} (new : option A) (old : A) : A :=
  match new with
  | Some v => v
  | None => old
  end.

(** [{ ...statement, ...updates }] *)
Definition spread (statement : BankStatement) (updates : BankStatementUpdates)
    : BankStatement :=
  {| bs_id := orKeep (up_id updates) (bs_id statement);
     bs_fileName := orKeep (up_fileName updates) (bs_fileName statement);
     bs_fileType := orKeep (up_fileType updates) (bs_fileType statement);
     bs_uploadedAt := orKeep (up_uploadedAt updates) (bs_uploadedAt statement);
     bs_processedAt := orKeep (up_processedAt updates) (bs_processedAt statement);
     bs_status := orKeep (up_status updates) (bs_status statement);
     bs_bankName := orKeep (up_bankName updates) (bs_bankName statement);
     bs_accountNumber := orKeep (up_accountNumber updates) (bs_accountNumber statement);
     bs_statementPeriod :=
       orKeep (up_statementPeriod updates) (bs_statementPeriod statement);
     bs_transactionCount :=
       orKeep (up_transactionCount updates) (bs_transactionCount statement);
     bs_errors := orKeep (up_errors updates) (bs_errors statement) |}.

(** [s.endsWith(suffix)] *)
Definition endsWith (s suffix : str) : bool := startsWith (rev suffix) (rev s).

(** The keys of [BANK_PATTERNS] of the parser, which are the values of
    [detectBankType]. *)
Definition bankTypeName (bank : BankType) : str :=
  match bank with
  | hdfc => $"hdfc"
  | icici => $"icici"
  | sbi => $"sbi"
  | axis => $"axis"
  | generic => $"generic"
  end.

(** [bankType.toUpperCase()]; the five names are ASCII words *)
Definition bankTypeUpper (bank : BankType) : str := map upperAscii (bankTypeName bank).

(** The statement object that [importStatement] builds, dispatches and
    returns.  [clock] is [Date.now()], [uploadedAt] is
    [new Date().toISOString()]. *)
Definition newStatement (clock : Z) (uploadedAt : str) (file : File) : BankStatement :=
  {| bs_id := $"statement_" ++ intToString clock;
     bs_fileName := file_name file;
     bs_fileType := if endsWith (toLowerCase (file_name file)) $".pdf"
                    then ft_pdf else ft_csv;
     bs_uploadedAt := uploadedAt;
     bs_processedAt := None;
     bs_status := st_processing;
     bs_bankName := None;
     bs_accountNumber := None;
     bs_statementPeriod := {| startDate := []; endDate := [] |};
     bs_transactionCount := 0;
     bs_errors := [] |}.

(** [{ startDate: n > 0 ? transactions[n - 1].date : '',
       endDate: n > 0 ? transactions[0].date : '' }] *)
Definition periodOf (transactions : list ParsedTransaction) : StatementPeriod :=
  {| startDate := match rev transactions with
                  | t :: _ => tx_date t
                  | [] => []
                  end;
     endDate := match transactions with
                | t :: _ => tx_date t
                | [] => []
                end |}.

(** the [updates] object of the two branches that have a parse result *)
Definition processedUpdates (status : Status) (processedAt : str)
    (bankName : option str) (result : ParseResult) : BankStatementUpdates :=
  {| up_id := None;
     up_fileName := None;
     up_fileType := None;
     up_uploadedAt := None;
     up_processedAt := Some (Some processedAt);
     up_status := Some status;
     up_bankName := Some bankName;
     up_accountNumber := None;
     up_statementPeriod := Some (periodOf (transactions result));
     up_transactionCount := Some (length (transactions result));
     up_errors := Some (errors result) |}.

(** the [updates] object of the two [catch] blocks *)
Definition failedUpdates (message : str) : BankStatementUpdates :=
  {| up_id := None;
     up_fileName := None;
     up_fileType := None;
     up_uploadedAt := None;
     up_processedAt := None;
     up_status := Some st_failed;
     up_bankName := None;
     up_accountNumber := None;
     up_statementPeriod := None;
     up_transactionCount := None;
     up_errors := Some [errorEntry message] |}.

(** [e instanceof Error ? e.message : fallback] *)
Definition messageOr (e : Thrown) (fallback : str) : str :=
  match e with
  | ErrorObject m => m
  | NonError => fallback
  end.

(** What the surroundings supply to one call of [importStatement]. *)
Record World : Type := {
  (** [Date.now()] and [new Date().toISOString()] at the call *)
  w_clock : Z;
  w_uploadedAt : str;
  (** [new Date().toISOString()] in the timer callback *)
  w_processedAt : str;
  (** what [FileReader.readAsText] does: it delivers the text to [onload],
      or it fails, and then nothing is called, since [parseCSVFile] sets no
      [onerror] handler *)
  w_readAsText : File -> option str;
  (** [file.text()], which may reject *)
  w_fileText : File -> Thrown + str;
  (** what [await import('../lib/pdfParser')] throws, if it does *)
  w_importParser : option Thrown;
  (** the collaborators of the two parsers *)
  w_pdfToText : File -> Thrown + str;
  w_today : str;
  w_nowPdf : nat -> Z;
  w_toISOString : str -> Thrown + str;
  w_nowCsv : nat -> Z;
  w_rnd : nat -> str
}.

(** the configuration that [importStatement] passes to the PDF parser *)
Definition importConfig (bank : BankType) : PDFParseConfig :=
  {| maxPages := Some 10;
     confidenceThreshold := Some (7 # 10)%Q;
     bankType := Some bank |}.

(** The other slices of the state hold values that the import does not look
    into: their types, their [id] fields and [{ ...x, ...updates }] on them. *)
Record Payloads : Type := {
  InvestmentProfile : Type;
  BudgetAlert : Type;
  RecurringTransaction : Type;
  ScheduledTransaction : Type;
  DataExport : Type;
  RecurringUpdates : Type;
  ScheduledUpdates : Type;
  alert_id : BudgetAlert -> str;
  recurring_id : RecurringTransaction -> str;
  scheduled_id : ScheduledTransaction -> str;
  spreadRecurring : RecurringTransaction -> RecurringUpdates -> RecurringTransaction;
  spreadScheduled : ScheduledTransaction -> ScheduledUpdates -> ScheduledTransaction
}.

Record FinancialDataState (T : Payloads) : Type := {
  bankStatements : list BankStatement;
  investmentProfile : option (InvestmentProfile T);
  budgetAlerts : list (BudgetAlert T);
  recurringTransactions : list (RecurringTransaction T);
  scheduledTransactions : list (ScheduledTransaction T);
  exportHistory : list (DataExport T);
  isLoading : bool;
  stateError : option str
}.

Inductive FinancialDataAction (T : Payloads) : Type :=
| SET_LOADING (payload : bool)
| SET_ERROR (payload : option str)
| ADD_BANK_STATEMENT (payload : BankStatement)
| UPDATE_BANK_STATEMENT (id : str) (updates : BankStatementUpdates)
| SET_INVESTMENT_PROFILE (payload : InvestmentProfile T)
| ADD_BUDGET_ALERT (payload : BudgetAlert T)
| REMOVE_BUDGET_ALERT (payload : str)
| ADD_RECURRING_TRANSACTION (payload : RecurringTransaction T)
| UPDATE_RECURRING_TRANSACTION (id : str) (updates : RecurringUpdates T)
| REMOVE_RECURRING_TRANSACTION (payload : str)
| ADD_SCHEDULED_TRANSACTION (payload : ScheduledTransaction T)
| UPDATE_SCHEDULED_TRANSACTION (id : str) (updates : ScheduledUpdates T)
| ADD_DATA_EXPORT (payload : DataExport T).

Arguments bankStatements {T} _.
Arguments investmentProfile {T} _.
Arguments budgetAlerts {T} _.
Arguments recurringTransactions {T} _.
Arguments scheduledTransactions {T} _.
Arguments exportHistory {T} _.
Arguments isLoading {T} _.
Arguments stateError {T} _.
Arguments SET_LOADING {T} payload.
Arguments SET_ERROR {T} payload.
Arguments ADD_BANK_STATEMENT {T} payload.
Arguments UPDATE_BANK_STATEMENT {T} id updates.
Arguments SET_INVESTMENT_PROFILE {T} payload.
Arguments ADD_BUDGET_ALERT {T} payload.
Arguments REMOVE_BUDGET_ALERT {T} payload.
Arguments ADD_RECURRING_TRANSACTION {T} payload.
Arguments UPDATE_RECURRING_TRANSACTION {T} id updates.
Arguments REMOVE_RECURRING_TRANSACTION {T} payload.
Arguments ADD_SCHEDULED_TRANSACTION {T} payload.
Arguments UPDATE_SCHEDULED_TRANSACTION {T} id updates.
Arguments ADD_DATA_EXPORT {T} payload.

Definition initialState (T : Payloads) : FinancialDataState T :=
  {| bankStatements := [];
     investmentProfile := None;
     budgetAlerts := [];
     recurringTransactions := [];
     scheduledTransactions := [];
     exportHistory := [];
     isLoading := false;
     stateError := None |}.

Definition financialDataReducer (T : Payloads) (state : FinancialDataState T)
    (action : FinancialDataAction T) : FinancialDataState T :=
  match action with
  | SET_LOADING payload =>
      {| bankStatements := bankStatements state;
         investmentProfile := investmentProfile state;
         budgetAlerts := budgetAlerts state;
         recurringTransactions := recurringTransactions state;
         scheduledTransactions := scheduledTransactions state;
         exportHistory := exportHistory state;
         isLoading := payload;
         stateError := stateError state |}
  | SET_ERROR payload =>
      {| bankStatements := bankStatements state;
         investmentProfile := investmentProfile state;
         budgetAlerts := budgetAlerts state;
         recurringTransactions := recurringTransactions state;
         scheduledTransactions := scheduledTransactions state;
         exportHistory := exportHistory state;
         isLoading := isLoading state;
         stateError := payload |}
  | ADD_BANK_STATEMENT payload =>
      {| bankStatements := bankStatements state ++ [payload];
         investmentProfile := investmentProfile state;
         budgetAlerts := budgetAlerts state;
         recurringTransactions := recurringTransactions state;
         scheduledTransactions := scheduledTransactions state;
         exportHistory := exportHistory state;
         isLoading := isLoading state;
         stateError := stateError state |}
  | UPDATE_BANK_STATEMENT id updates =>
      {| bankStatements :=
           map (fun statement =>
                  if str_eqb (bs_id statement) id then spread statement updates
                  else statement)
               (bankStatements state);
         investmentProfile := investmentProfile state;
         budgetAlerts := budgetAlerts state;
         recurringTransactions := recurringTransactions state;
         scheduledTransactions := scheduledTransactions state;
         exportHistory := exportHistory state;
         isLoading := isLoading state;
         stateError := stateError state |}
  | SET_INVESTMENT_PROFILE payload =>
      {| bankStatements := bankStatements state;
         investmentProfile := Some payload;
         budgetAlerts := budgetAlerts state;
         recurringTransactions := recurringTransactions state;
         scheduledTransactions := scheduledTransactions state;
         exportHistory := exportHistory state;
         isLoading := isLoading state;
         stateError := stateError state |}
  | ADD_BUDGET_ALERT payload =>
      {| bankStatements := bankStatements state;
         investmentProfile := investmentProfile state;
         budgetAlerts := budgetAlerts state ++ [payload];
         recurringTransactions := recurringTransactions state;
         scheduledTransactions := scheduledTransactions state;
         exportHistory := exportHistory state;
         isLoading := isLoading state;
         stateError := stateError state |}
  | REMOVE_BUDGET_ALERT payload =>
      {| bankStatements := bankStatements state;
         investmentProfile := investmentProfile state;
         budgetAlerts :=
           filter (fun alert => negb (str_eqb (alert_id T alert) payload))
                  (budgetAlerts state);
         recurringTransactions := recurringTransactions state;
         scheduledTransactions := scheduledTransactions state;
         exportHistory := exportHistory state;
         isLoading := isLoading state;
         stateError := stateError state |}
  | ADD_RECURRING_TRANSACTION payload =>
      {| bankStatements := bankStatements state;
         investmentProfile := investmentProfile state;
         budgetAlerts := budgetAlerts state;
         recurringTransactions := recurringTransactions state ++ [payload];
         scheduledTransactions := scheduledTransactions state;
         exportHistory := exportHistory state;
         isLoading := isLoading state;
         stateError := stateError state |}
  | UPDATE_RECURRING_TRANSACTION id updates =>
      {| bankStatements := bankStatements state;
         investmentProfile := investmentProfile state;
         budgetAlerts := budgetAlerts state;
         recurringTransactions :=
           map (fun transaction =>
                  if str_eqb (recurring_id T transaction) id
                  then spreadRecurring T transaction updates
                  else transaction)
               (recurringTransactions state);
         scheduledTransactions := scheduledTransactions state;
         exportHistory := exportHistory state;
         isLoading := isLoading state;
         stateError := stateError state |}
  | REMOVE_RECURRING_TRANSACTION payload =>
      {| bankStatements := bankStatements state;
         investmentProfile := investmentProfile state;
         budgetAlerts := budgetAlerts state;
         recurringTransactions :=
           filter (fun transaction => negb (str_eqb (recurring_id T transaction) payload))
                  (recurringTransactions state);
         scheduledTransactions := scheduledTransactions state;
         exportHistory := exportHistory state;
         isLoading := isLoading state;
         stateError := stateError state |}
  | ADD_SCHEDULED_TRANSACTION payload =>
      {| bankStatements := bankStatements state;
         investmentProfile := investmentProfile state;
         budgetAlerts := budgetAlerts state;
         recurringTransactions := recurringTransactions state;
         scheduledTransactions := scheduledTransactions state ++ [payload];
         exportHistory := exportHistory state;
         isLoading := isLoading state;
         stateError := stateError state |}
  | UPDATE_SCHEDULED_TRANSACTION id updates =>
      {| bankStatements := bankStatements state;
         investmentProfile := investmentProfile state;
         budgetAlerts := budgetAlerts state;
         recurringTransactions := recurringTransactions state;
         scheduledTransactions :=
           map (fun transaction =>
                  if str_eqb (scheduled_id T transaction) id
                  then spreadScheduled T transaction updates
                  else transaction)
               (scheduledTransactions state);
         exportHistory := exportHistory state;
         isLoading := isLoading state;
         stateError := stateError state |}
  | ADD_DATA_EXPORT payload =>
      {| bankStatements := bankStatements state;
         investmentProfile := investmentProfile state;
         budgetAlerts := budgetAlerts state;
         recurringTransactions := recurringTransactions state;
         scheduledTransactions := scheduledTransactions state;
         exportHistory := exportHistory state ++ [payload];
         isLoading := isLoading state;
         stateError := stateError state |}
  end.

Arguments financialDataReducer {T} state action.

(** the state after a sequence of [dispatch] calls *)
Definition dispatchAll (T : Payloads) (state : FinancialDataState T)
    (actions : list (FinancialDataAction T)) : FinancialDataState T :=
  fold_left (financialDataReducer (T := T)) actions state.

Arguments dispatchAll {T} state actions.

(** The callback that [importStatement] hands to [setTimeout]: the actions
    it dispatches, in order.  The last one is the [finally] block.  When the
    reader of a CSV file fails, the promise of [parseCSVFile] never settles:
    the callback stays at its [await] and dispatches nothing, the [finally]
    block included. *)
Definition processStatement (T : Payloads) (w : World) (file : File)
    (bankStatement : BankStatement) : M (list (FinancialDataAction T)) :=
  match bs_fileType bankStatement with
  | ft_csv =>
      match w_readAsText w file with
      | None => ret []
      | Some csv =>
          let result :=
            parseCSVFile (w_toISOString w) (w_nowCsv w) (w_rnd w) csv in
          let bankName := detectBankFromText (file_name file) in
          ret [ UPDATE_BANK_STATEMENT (bs_id bankStatement)
                  (processedUpdates st_completed (w_processedAt w) bankName result);
                SET_LOADING false ]
      end
  | ft_pdf =>
      match w_importParser w with
      | Some e =>
          ret [ UPDATE_BANK_STATEMENT (bs_id bankStatement)
                  (failedUpdates (messageOr e $"Unknown processing error"));
                SET_LOADING false ]
      | None =>
          let sampleText :=
            match w_fileText w file with
            | inr text => text
            | inl _ => []
            end in
          let bankType := detectBankType sampleText in
          parsed <- parsePDFBankStatement (w_pdfToText w) (w_today w) (w_nowPdf w)
                      (Some file) (importConfig bankType) ;;
          match fst parsed with
          | Resolved result =>
              ret [ UPDATE_BANK_STATEMENT (bs_id bankStatement)
                      (processedUpdates
                         (if 0 <? length (transactions result)
                          then st_completed else st_failed)
                         (w_processedAt w) (Some (bankTypeUpper bankType)) result);
                    SET_LOADING false ]
          | Rejected pdfError =>
              ret [ UPDATE_BANK_STATEMENT (bs_id bankStatement)
                      (failedUpdates (messageOr pdfError $"PDF parsing failed"));
                    SET_LOADING false ]
          end
      end
  end.

(** [importStatement]: the statement it returns, the actions it dispatches
    before returning, and the timer callback it schedules.  Nothing in its
    [try] block throws, so its [catch] block is not entered. *)
Definition importStatement (T : Payloads) (w : World) (file : File)
    : BankStatement * list (FinancialDataAction T) * M (list (FinancialDataAction T)) :=
  let bankStatement := newStatement (w_clock w) (w_uploadedAt w) file in
  (bankStatement,
   [ SET_LOADING true; SET_ERROR None; ADD_BANK_STATEMENT bankStatement ],
   processStatement T w file bankStatement).

(** The state once the timer callback of an import that started in [state]
    has run, when nothing else was dispatched in between. *)
Definition afterImport (T : Payloads) (w : World) (file : File) (st : RegexState)
    (state : FinancialDataState T) : FinancialDataState T :=
  let started := dispatchAll state (snd (fst (importStatement T w file))) in
  dispatchAll started (fst (snd (importStatement T w file) st)).

Arguments afterImport {T} w file st state.

(** [statement.errors && isImageBasedPDFError(statement.errors)] in
    [handleImport] of the import component, which decides whether the alert
    about a scanned PDF is shown; an array is always truthy. *)
Definition scannedPdfAlert (statement : BankStatement) : bool :=
  isImageBasedPDFError (bs_errors statement).

End FinancialData.
(* ===================================================================== *)
(** ** Notions used to state the further properties *)
(* ===================================================================== *)

Module Notions.
Import JS Regex Num Model PdfParser Csv FinancialData.

(** the keywords of the first rule of [categorizeTransaction] and the labels
    it can answer *)
Definition incomeWords : list str :=
  [$"salary"; $"credit"; $"deposit"; $"interest"; $"dividend"; $"refund"; $"cashback"].

Definition pdfCategories : list str :=
  [$"income"; $"food"; $"transport"; $"shopping"; $"utilities"; $"entertainment";
   $"cash"; $"transfer"; $"payment"; $"healthcare"; $"other"].

(** the lines the row loop of the tabular strategy does not skip *)
Definition dataLine (line : str) : bool := 10 <=? length (trim line).

(** no code unit of the text is a digit *)
Definition noDigit (s : str) : Prop := Forall (fun c => isDigit c = false) s.

(** a letter of [A-Za-z], an underscore, or a space *)
Definition plainChar (c : ascii) : Prop :=
  (isWordChar c = true /\ isDigit c = false) \/ c = " "%char.

(** the non-blank lines of a CSV text, trimmed; the first one is the header *)
Definition csvLines (csv : str) : list str :=
  filter truthyStr (map trim (splitChar "010" csv)).

Definition csvHeaders (csv : str) : list str :=
  match csvLines csv with
  | header :: _ => map cleanCell (splitChar "," header)
  | [] => []
  end.

(** the error entry carries a row number between [lo] and [hi] *)
Definition rowBetween (lo hi : nat) (e : ImportError) : Prop :=
  exists r, err_row e = Some r /\ lo <= r <= hi.

Definition amountFieldNames : list str :=
  [$"debit"; $"withdrawal"; $"debit amount"; $"credit"; $"deposit"; $"credit amount"].

Definition csvCategories : list str :=
  [$"Food"; $"Transport"; $"Shopping"; $"Utilities"; $"Entertainment";
   $"Healthcare"; $"Education"; $"Groceries"; $"Other"].

(** a CSV text whose header names no amount column *)
Definition noAmountCsv : str :=
  $"Date,Narration,Balance" ++ ["010"%char] ++ $"01/04/2024,ATM WDL,1200".

(** The callback of an import runs to its end: the file is parsed as PDF, or
    the reader delivers the text of the CSV file. *)
Definition callbackEnds (w : World) (file : File) : bool :=
  endsWith (toLowerCase (file_name file)) $".pdf"
  || match w_readAsText w file with
     | Some _ => true
     | None => false
     end.

(** payloads of the other slices for the sample runs *)
Definition unitPayloads : Payloads :=
  {| InvestmentProfile := unit;
     BudgetAlert := unit;
     RecurringTransaction := unit;
     ScheduledTransaction := unit;
     DataExport := unit;
     RecurringUpdates := unit;
     ScheduledUpdates := unit;
     alert_id := fun _ => [];
     recurring_id := fun _ => [];
     scheduled_id := fun _ => [];
     spreadRecurring := fun transaction _ => transaction;
     spreadScheduled := fun transaction _ => transaction |}.

(** a run in which the raw bytes of the file name HDFC and the text layer
    holds one statement line, and a run in which the text layer is blank *)
Definition sampleWorld : World :=
  {| w_clock := 1762041600000;
     w_uploadedAt := $"2026-11-02T00:00:00.000Z";
     w_processedAt := $"2026-11-02T00:00:02.000Z";
     w_readAsText := fun _ => Some [];
     w_fileText := fun _ => inr $"%PDF-1.7 HDFC Bank";
     w_importParser := None;
     w_pdfToText := fun _ => inr $"01/04/2024 SALARY 1,200.00 35,000.50";
     w_today := $"2026-11-02";
     w_nowPdf := fun _ => 1762041602000%Z;
     w_toISOString := fun s => inr (s ++ $"T00:00:00.000Z");
     w_nowCsv := fun _ => 1762041602000%Z;
     w_rnd := fun _ => $"k3j9x0a1b" |}.

Definition scannedWorld : World :=
  {| w_clock := 1762041600000;
     w_uploadedAt := $"2026-11-02T00:00:00.000Z";
     w_processedAt := $"2026-11-02T00:00:02.000Z";
     w_readAsText := fun _ => Some [];
     w_fileText := fun _ => inl NonError;
     w_importParser := None;
     w_pdfToText := fun _ => inr $"   ";
     w_today := $"2026-11-02";
     w_nowPdf := fun _ => 1762041602000%Z;
     w_toISOString := fun s => inr (s ++ $"T00:00:00.000Z");
     w_nowCsv := fun _ => 1762041602000%Z;
     w_rnd := fun _ => $"k3j9x0a1b" |}.

Definition emptyCsvFile : File :=
  {| file_name := $"april.csv"; file_type := $"text/csv"; file_size := 0 |}.

Definition csvNamedPdf : File :=
  {| file_name := $"export.PDF"; file_type := $"text/csv"; file_size := 2048 |}.

End Notions.

(* ===================================================================== *)
(** ** Notions used to state the claims on amounts and descriptions *)
(* ===================================================================== *)

Module Traced.
Import JS Regex Num Model PdfParser.

(** *** Amounts and directions *)

(** The signed number that the tabular and regex strategies read on a line:
    [amounts[amounts.length - 1] || amounts[0] || 0] over the matches of the
    amount pattern; none when the pattern does not match. *)
Definition signedAmount (p : BankPattern) (line : str) : option jsnum :=
  match nonEmpty (matchAll (amountPattern p) line) with
  | Some (a0, arest) => Some (pickAmount (parseAmount a0) (map parseAmount arest))
  | None => None
  end.

(** The signed number that the line-grouped strategy reads: the first match
    of the amount pattern. *)
Definition firstSignedAmount (p : BankPattern) (line : str) : option jsnum :=
  match nonEmpty (matchAll (amountPattern p) line) with
  | Some (a0, _) => Some (parseAmount a0)
  | None => None
  end.

(** the line holds [dr] or [debit], in any letter case *)
Definition saysDebit (line : str) : bool :=
  includes (toLowerCase line) $"dr" || includes (toLowerCase line) $"debit".

(** [current], [next] and [third] are three consecutive lines *)
Definition window (lines : list str) (current next third : str) : Prop :=
  exists before after, lines = before ++ current :: next :: third :: after.

(** the text that the line-grouped strategy reads for a window *)
Definition combinedLine (current next third : str) : str :=
  trim current ++ $" " ++ trim next ++ $" " ++ trim third.

(** The transaction carries the sign of the number [a] read from the text in
    its direction, not in its amount: the amount is the magnitude of [a], and
    the direction is debit exactly when [a] is negative or the text says
    debit. *)
Definition carriesSign (a : jsnum) (says : bool) (tx : ParsedTransaction) : Prop :=
  tx_amount tx = abs a /\
  geZero (tx_amount tx) = true /\
  tx_type tx = (if ltZero a || says then debit else credit).

Definition tabularSign (p : BankPattern) (lines : list str)
    (tx : ParsedTransaction) : Prop :=
  exists raw a,
    In raw lines /\ signedAmount p (trim raw) = Some a /\
    carriesSign a (saysDebit (trim raw)) tx.

Definition groupedSign (p : BankPattern) (lines : list str)
    (tx : ParsedTransaction) : Prop :=
  exists current next third a,
    window lines current next third /\
    firstSignedAmount p (combinedLine current next third) = Some a /\
    carriesSign a false tx.

Definition regexSign (p : BankPattern) (text : str)
    (tx : ParsedTransaction) : Prop :=
  exists line a,
    In line (splitChar "010" text) /\ signedAmount p line = Some a /\
    carriesSign a (saysDebit line) tx.

(** What the CSV row parser reads: the credit cell when it holds a positive
    number, the debit cell otherwise. *)
Definition csvSign (row headers : list str) (tx : ParsedTransaction) : Prop :=
  let creditAmount :=
    parseFloat (Csv.getField row headers [$"credit"; $"deposit"; $"credit amount"]) in
  let debitAmount :=
    parseFloat (Csv.getField row headers [$"debit"; $"withdrawal"; $"debit amount"]) in
  geZero (tx_amount tx) = true /\
  if gtZero creditAmount
  then tx_type tx = credit /\ tx_amount tx = creditAmount
  else tx_type tx = debit /\ tx_amount tx = abs (orElse debitAmount zero).

(** *** Descriptions *)

(** The cleaned description of the tabular strategy for a line, given the
    indices that the two [findIndex] calls return; of the line-grouped
    strategy for the first line of a window; of the regex strategy for a
    line. *)
Definition tabularCleaned (p : BankPattern) (raw : str)
    (dateIndex amountIndex : Z) : str :=
  trim (replaceG (amountPattern p) []
          (tabularDescription (split (Plus space) (trim raw)) dateIndex amountIndex)).

Definition groupedCleaned (p : BankPattern) (current : str) : str :=
  trim (replaceG (amountPattern p) [] (replaceG (datePattern p) [] (trim current))).

Definition regexCleaned (p : BankPattern) (line : str) : str :=
  alnumTokens (trim (replaceG (amountPattern p) [] (replaceG (datePattern p) [] line))).

End Traced.

(* ===================================================================== *)
(** * Properties *)
(* ===================================================================== *)

(** ** The matcher only returns texts of the language of its pattern *)

Module RegexFacts.
Import JS Regex.

Lemma rmatch_sound (A : Type) (r : regex) :
  forall (s : str) (k : str -> option A) (x : A),
    rmatch r s k = Some x ->
    exists s1 s2, s = s1 ++ s2 /\ lang r s1 /\ k s2 = Some x.
Proof.
  induction r as [ | p | r1 IH1 r2 IH2 | r1 IH1 r2 IH2 | r IH ];
    intros s k x H; simpl in H.
  - exists [], s. auto with regex.
  - destruct s as [ | c s']; [discriminate | ].
    destruct (p c) eqn:Hp; [ | discriminate].
    exists [c], s'. auto with regex.
  - apply IH1 in H. destruct H as (s1 & s2 & -> & L1 & H).
    apply IH2 in H. destruct H as (s3 & s4 & -> & L2 & H).
    exists (s1 ++ s3), s4. rewrite app_assoc. auto with regex.
  - destruct (rmatch r1 s k) eqn:E1.
    + inversion H; subst. apply IH1 in E1.
      destruct E1 as (s1 & s2 & -> & L & E). exists s1, s2. auto with regex.
    + apply IH2 in H. destruct H as (s1 & s2 & -> & L & E).
      exists s1, s2. auto with regex.
  - remember (length s) as fuel eqn:Hfuel. clear Hfuel.
    revert s H. induction fuel as [ | fuel IHf]; intros s H.
    + exists [], s. auto with regex.
    + match type of H with
      | match ?m with _ => _ end = _ => destruct m eqn:E
      end.
      * inversion H; subst. apply IH in E.
        destruct E as (s1 & s2 & -> & L & E).
        destruct (length s2 <? length (s1 ++ s2)); [ | discriminate].
        apply IHf in E. destruct E as (s3 & s4 & -> & L' & E).
        exists (s1 ++ s3), s4. rewrite app_assoc. auto with regex.
      * exists [], s. auto with regex.
Qed.

Lemma matchAt_sound r s after :
  matchAt r s = Some after -> exists m, s = m ++ after /\ lang r m.
Proof.
  unfold matchAt. intros H. apply rmatch_sound in H.
  destruct H as (s1 & s2 & -> & L & E). inversion E; subst. eauto.
Qed.

Lemma firstn_app_sub {A} (m a : list A) :
  firstn (length (m ++ a) - length a) (m ++ a) = m.
Proof.
  rewrite length_app, Nat.add_sub. rewrite firstn_app, Nat.sub_diag. simpl.
  rewrite firstn_all. apply app_nil_r.
Qed.

Lemma search_unfold r s :
  search r s =
  match matchAt r s with
  | Some after => Some ([], firstn (length s - length after) s, after)
  | None =>
      match s with
      | [] => None
      | c :: s' =>
          match search r s' with
          | Some (b, m, a) => Some (c :: b, m, a)
          | None => None
          end
      end
  end.
Proof. destruct s; reflexivity. Qed.

Lemma matchAt_prefix r s after :
  matchAt r s = Some after ->
  s = firstn (length s - length after) s ++ after /\
  lang r (firstn (length s - length after) s).
Proof.
  intros H. apply matchAt_sound in H. destruct H as (m & -> & L).
  rewrite firstn_app_sub. auto.
Qed.

Lemma search_sound r : forall s b m a,
  search r s = Some (b, m, a) -> s = b ++ m ++ a /\ lang r m.
Proof.
  induction s as [ | c s IH]; intros b m a H; rewrite search_unfold in H;
    destruct (matchAt r _) eqn:E.
  - inversion H; subst. apply matchAt_prefix in E. exact E.
  - discriminate.
  - inversion H; subst. apply matchAt_prefix in E. exact E.
  - destruct (search r s) as [[[b' m'] a'] | ] eqn:E'; [ | discriminate].
    inversion H; subst. destruct (IH _ _ _ eq_refl) as [-> L]. auto.
Qed.

Lemma matchAllFuel_sound r : forall fuel s m,
  In m (matchAllFuel fuel r s) -> lang r m.
Proof.
  induction fuel as [ | fuel IH]; intros s m H; simpl in H; [contradiction | ].
  destruct (search r s) as [[[b m'] a] | ] eqn:E; [ | contradiction].
  apply search_sound in E. destruct E as [_ L].
  destruct H as [<- | H]; [assumption | ].
  destruct m' as [ | c m'].
  - destruct a as [ | c a]; [contradiction | eauto].
  - eauto.
Qed.

Lemma matchAll_sound r s m : In m (matchAll r s) -> lang r m.
Proof. apply matchAllFuel_sound. Qed.

(** Inversion of the language of the pattern constructors. *)

Lemma lang_Eps_inv s : lang Eps s -> s = [].
Proof. inversion 1; reflexivity. Qed.

Lemma lang_Cls_inv p s : lang (Cls p) s -> exists c, s = [c] /\ p c = true.
Proof. inversion 1; subst; eauto. Qed.

Lemma lang_Seq_inv r1 r2 s :
  lang (Seq r1 r2) s -> exists s1 s2, s = s1 ++ s2 /\ lang r1 s1 /\ lang r2 s2.
Proof. inversion 1; subst; eauto. Qed.

Lemma lang_Alt_inv r1 r2 s : lang (Alt r1 r2) s -> lang r1 s \/ lang r2 s.
Proof. inversion 1; subst; auto. Qed.

Lemma lang_Rep_cls p : forall n s,
  lang (Rep n (Cls p)) s -> length s = n /\ Forall (fun c => p c = true) s.
Proof.
  induction n as [ | n IH]; intros s H; simpl in H.
  - apply lang_Eps_inv in H. subst. auto.
  - apply lang_Seq_inv in H. destruct H as (s1 & s2 & -> & H1 & H2).
    apply lang_Cls_inv in H1. destruct H1 as (c & -> & Hc).
    apply IH in H2. destruct H2 as [<- F]. simpl. auto.
Qed.

Lemma lang_RepUpTo_cls p : forall n s,
  lang (RepUpTo n (Cls p)) s -> length s <= n /\ Forall (fun c => p c = true) s.
Proof.
  induction n as [ | n IH]; intros s H; simpl in H.
  - apply lang_Eps_inv in H. subst. auto.
  - apply lang_Alt_inv in H. destruct H as [H | H].
    + apply lang_Seq_inv in H. destruct H as (s1 & s2 & -> & H1 & H2).
      apply lang_Cls_inv in H1. destruct H1 as (c & -> & Hc).
      apply IH in H2. destruct H2 as [Hl F]. simpl. split; [lia | auto].
    + apply lang_Eps_inv in H. subst. simpl. split; [lia | auto].
Qed.

Lemma lang_RepRange_cls p lo hi s :
  lang (RepRange lo hi (Cls p)) s ->
  lo <= length s /\ Forall (fun c => p c = true) s.
Proof.
  unfold RepRange. intros H.
  apply lang_Seq_inv in H. destruct H as (s1 & s2 & -> & H1 & H2).
  apply lang_Rep_cls in H1. apply lang_RepUpTo_cls in H2.
  destruct H1 as [<- F1]. destruct H2 as [_ F2].
  rewrite length_app. split; [lia | apply Forall_app; auto].
Qed.

(** *** Patterns that are a single character class *)

Section OneClass.
Variable p : ascii -> bool.

Lemma search_cls_nil : search (Cls p) [] = None.
Proof. reflexivity. Qed.

Lemma search_cls_cons c s :
  search (Cls p) (c :: s) =
  if p c then Some ([], [c], s)
  else match search (Cls p) s with
       | Some (b, m, a) => Some (c :: b, m, a)
       | None => None
       end.
Proof.
  rewrite search_unfold. unfold matchAt. simpl rmatch.
  destruct (p c); [ | reflexivity].
  replace (length (c :: s) - length s) with 1
    by (change (length (c :: s)) with (S (length s)); lia).
  reflexivity.
Qed.

Lemma search_cls_spec : forall s,
  match search (Cls p) s with
  | None => filter (fun c => negb (p c)) s = s
  | Some (b, m, a) =>
      (exists c, m = [c]) /\
      filter (fun c => negb (p c)) s = b ++ filter (fun c => negb (p c)) a /\
      length a < length s
  end.
Proof.
  induction s as [ | c s IH].
  - reflexivity.
  - rewrite search_cls_cons. simpl filter. destruct (p c) eqn:Hp; simpl negb.
    + split; [eauto | ]. split; [reflexivity | simpl; lia].
    + destruct (search (Cls p) s) as [[[b m] a] | ].
      * destruct IH as (Hm & Hf & Hl). split; [assumption | ].
        split; [rewrite Hf; reflexivity | simpl; lia].
      * rewrite IH. reflexivity.
Qed.

Lemma replaceAllFuel_cls : forall fuel s,
  length s < fuel ->
  replaceAllFuel fuel (Cls p) [] s = filter (fun c => negb (p c)) s.
Proof.
  induction fuel as [ | fuel IH]; intros s Hlen; [lia | ].
  simpl. pose proof (search_cls_spec s) as Hs.
  destruct (search (Cls p) s) as [[[b m] a] | ].
  - destruct Hs as ((c & ->) & Hf & Hl). rewrite Hf. simpl.
    rewrite IH by lia. reflexivity.
  - symmetry. exact Hs.
Qed.

(** Removing the code units of a class is a [filter]. *)
Lemma replaceG_cls s :
  replaceG (Cls p) [] s = filter (fun c => negb (p c)) s.
Proof. unfold replaceG. apply replaceAllFuel_cls. lia. Qed.

Lemma splitLoop_cls : forall fuel s piece,
  length s < fuel -> splitLoop fuel (Cls p) piece s = splitBy p piece s.
Proof.
  induction fuel as [ | fuel IH]; intros s piece Hlen; [lia | ].
  destruct s as [ | c s]; [reflexivity | ].
  simpl in Hlen. simpl splitBy. cbn [splitLoop]. unfold matchAt. simpl rmatch.
  destruct (p c).
  - replace (length s =? length (c :: s)) with false
      by (symmetry; apply Nat.eqb_neq;
          change (length (c :: s)) with (S (length s)); lia).
    simpl andb. cbv iota. rewrite IH by lia. reflexivity.
  - apply IH. lia.
Qed.

Lemma split_cls s : split (Cls p) s = splitBy p [] s.
Proof.
  destruct s as [ | c s]; [reflexivity | ].
  unfold split. apply splitLoop_cls. simpl. lia.
Qed.

Lemma splitBy_run : forall d piece rest,
  Forall (fun c => p c = false) d ->
  splitBy p piece (d ++ rest) = splitBy p (rev d ++ piece) rest.
Proof.
  induction d as [ | c d IH]; intros piece rest F; [reflexivity | ].
  inversion F as [ | ? ? Hc F']; subst. simpl. rewrite Hc.
  rewrite IH by assumption. rewrite <- app_assoc. reflexivity.
Qed.

Lemma splitBy_three d1 s1 d2 s2 d3 :
  Forall (fun c => p c = false) d1 ->
  Forall (fun c => p c = false) d2 ->
  Forall (fun c => p c = false) d3 ->
  p s1 = true -> p s2 = true ->
  splitBy p [] (d1 ++ s1 :: d2 ++ s2 :: d3) = [d1; d2; d3].
Proof.
  intros F1 F2 F3 H1 H2.
  rewrite splitBy_run by assumption. simpl. rewrite H1.
  rewrite splitBy_run by assumption. simpl. rewrite H2.
  rewrite <- (app_nil_r d3) at 1. rewrite splitBy_run by assumption.
  simpl. rewrite !app_nil_r, !rev_involutive. reflexivity.
Qed.

End OneClass.

End RegexFacts.

(** ** Numbers *)

Module NumFacts.
Import JS Num.

Lemma round_number q : round q <> NaN.
Proof.
  unfold round.
  destruct (Qle_bool (Qabs q) underflowBound); [discriminate | ].
  destruct (Qle_bool overflowBound (Qabs q)); [ | discriminate].
  destruct (Qle_bool 0 q); discriminate.
Qed.

Lemma geZero_abs x : x <> NaN -> geZero (abs x) = true.
Proof.
  destruct x as [ | | | q]; intros H; try reflexivity; [congruence | ].
  simpl. apply Qle_bool_iff. apply Qabs_nonneg.
Qed.

Lemma truthy_number x : truthy x = true -> x <> NaN.
Proof. destruct x; simpl; congruence. Qed.

(** [a || b || 0] is never NaN. *)
Lemma orElse_zero_number x : orElse x zero <> NaN.
Proof.
  unfold orElse. destruct (truthy x) eqn:E.
  - apply truthy_number. assumption.
  - discriminate.
Qed.

Lemma neZero_truthy x : x <> NaN -> neZero x = true -> truthy x = true.
Proof.
  destruct x; simpl; try congruence. unfold neZero. simpl. auto.
Qed.

(** Facts on the code units *)

Ltac by_cases c H :=
  destruct c as [[|] [|] [|] [|] [|] [|] [|] [|]];
  vm_compute in H |- *; congruence.

Lemma digit_not_space c : isDigit c = true -> isWhiteSpace c = false.
Proof. intros H. by_cases c H. Qed.

Lemma digit_neq c x : isDigit x = false -> isDigit c = true -> Ascii.eqb c x = false.
Proof.
  intros Hx Hc. destruct (Ascii.eqb_spec c x); [subst; congruence | reflexivity].
Qed.

Lemma digit_neq' c x : isDigit x = false -> isDigit c = true -> Ascii.eqb x c = false.
Proof. intros Hx Hc. rewrite Ascii.eqb_sym. apply digit_neq; assumption. Qed.

(** A text that starts with a digit parses to a number. *)
Lemma parseUnsigned_digit neg c rest :
  isDigit c = true -> parseUnsigned neg (c :: rest) <> NaN.
Proof.
  intros Hc. unfold parseUnsigned.
  assert (startsWith $"Infinity" (c :: rest) = false) as ->.
  { change (startsWith $"Infinity" (c :: rest))
      with (Ascii.eqb "I" c && startsWith $"nfinity" rest).
    rewrite (digit_neq' c "I") by (reflexivity || assumption). reflexivity. }
  simpl span. rewrite Hc. destruct (span isDigit rest) as [ip s2].
  match goal with
  | |- (let (fp, s3) := ?e in _) <> _ => destruct e as [fp s3]
  end.
  simpl app. cbv iota. apply round_number.
Qed.

Lemma parseFloat_digit c rest :
  isDigit c = true -> parseFloat (c :: rest) <> NaN.
Proof.
  intros Hc. unfold parseFloat. simpl trimStart.
  rewrite (digit_not_space c Hc). simpl readSign.
  rewrite (digit_neq c "-"), (digit_neq c "+") by (reflexivity || assumption).
  apply parseUnsigned_digit. assumption.
Qed.

Lemma parseFloat_signed_digit x c rest :
  (Ascii.eqb x "+" || Ascii.eqb x "-") = true ->
  isDigit c = true -> parseFloat (x :: c :: rest) <> NaN.
Proof.
  intros Hx Hc. unfold parseFloat.
  destruct (Ascii.eqb_spec x "+") as [-> | _].
  - simpl. apply parseUnsigned_digit. assumption.
  - destruct (Ascii.eqb_spec x "-") as [-> | _]; [ | discriminate].
    simpl. apply parseUnsigned_digit. assumption.
Qed.

End NumFacts.

(** ** The date and amount patterns of the bank profiles *)

Module PatternFacts.
Import JS Regex Num Model PdfParser RegexFacts NumFacts.

Lemma digit_not_sep c : isDigit c = true -> isDateSep c = false.
Proof.
  intros H. unfold isDateSep.
  rewrite (digit_neq c "/"), (digit_neq c "-") by (reflexivity || assumption).
  reflexivity.
Qed.

Lemma digits_not_sep s : digits s -> Forall (fun c => isDateSep c = false) s.
Proof. apply Forall_impl. exact digit_not_sep. Qed.

Lemma lang_seq5 A sa B sb C d :
  lang (seqs [A; Cls sa; B; Cls sb; C]) d ->
  exists a x b y c,
    d = a ++ x :: b ++ y :: c /\
    lang A a /\ sa x = true /\ lang B b /\ sb y = true /\ lang C c.
Proof.
  cbn [seqs fold_right]. intros H.
  apply lang_Seq_inv in H. destruct H as (a & t1 & -> & HA & H).
  apply lang_Seq_inv in H. destruct H as (x' & t2 & -> & Hx & H).
  apply lang_Cls_inv in Hx. destruct Hx as (x & -> & Hx).
  apply lang_Seq_inv in H. destruct H as (b & t3 & -> & HB & H).
  apply lang_Seq_inv in H. destruct H as (y' & t4 & -> & Hy & H).
  apply lang_Cls_inv in Hy. destruct Hy as (y & -> & Hy).
  apply lang_Seq_inv in H. destruct H as (c & t5 & -> & HC & H).
  apply lang_Eps_inv in H. subst t5.
  exists a, x, b, y, c. rewrite app_nil_r. simpl. auto 10.
Qed.

Lemma eqb_sep x c : isDateSep x = true -> Ascii.eqb x c = true -> isDateSep c = true.
Proof. intros Hx H. apply Ascii.eqb_eq in H. subst. assumption. Qed.

(** Every text matched by the date pattern of a bank profile has three
    numeric components. *)
Lemma date_lang_components bank d :
  lang (datePattern (BANK_PATTERNS bank)) d ->
  exists day month year, threeComponents d day month year.
Proof.
  intros H.
  assert (exists a x b y c,
            d = a ++ x :: b ++ y :: c /\
            (digits a /\ 1 <= length a) /\ isDateSep x = true /\
            (digits b /\ 1 <= length b) /\ isDateSep y = true /\
            (digits c /\ length c = 4)) as Hs.
  { destruct bank; simpl in H; apply lang_seq5 in H;
      destruct H as (a & x & b & y & c & E & Ha & Hx & Hb & Hy & Hc);
      exists a, x, b, y, c;
      (split; [exact E | ]);
      try (apply lang_Rep_cls in Ha; destruct Ha as [La Fa]);
      try (apply lang_Rep_cls in Hb; destruct Hb as [Lb Fb]);
      try (apply lang_RepRange_cls in Ha; destruct Ha as [La Fa]);
      try (apply lang_RepRange_cls in Hb; destruct Hb as [Lb Fb]);
      apply lang_Rep_cls in Hc; destruct Hc as [Lc Fc];
      repeat split;
      try assumption; try lia;
      try (eapply eqb_sep; [ | eassumption]; reflexivity). }
  destruct Hs as (a & x & b & y & c & E & [Fa La] & Hx & [Fb Lb] & Hy & [Fc Lc]).
  exists a, b, c. econstructor; eassumption.
Qed.

(** On such a text [standardizeDate] assembles the three components and
    never reads [today]. *)
Lemma standardizeDate_components today raw day month year :
  threeComponents raw day month year ->
  standardizeDate today raw =
  (if length year =? 2 then $"20" ++ year else year)
    ++ $"-" ++ padStart0 2 month ++ $"-" ++ padStart0 2 day.
Proof.
  intros [s1 s2 -> Fd Fm Fy H1 H2 _ _ _].
  unfold standardizeDate. rewrite replaceG_cls.
  assert (forall s, Forall (fun c => (isDigit c || isDateSep c) = true) s ->
            filter (fun c => negb (negb (isDigit c || isDateSep c))) s = s) as Hkeep.
  { induction s as [ | c s IH]; intros F; [reflexivity | ].
    inversion F; subst. simpl. rewrite H3. simpl. rewrite IH by assumption.
    reflexivity. }
  rewrite Hkeep.
  - rewrite split_cls.
    rewrite splitBy_three by (try apply digits_not_sep; assumption).
    reflexivity.
  - assert (forall s, digits s ->
              Forall (fun c => (isDigit c || isDateSep c) = true) s) as Hd.
    { intros s. apply Forall_impl. intros c Hc. rewrite Hc. reflexivity. }
    apply Forall_app. split; [auto | ].
    constructor; [rewrite H1; apply orb_true_r | ].
    apply Forall_app. split; [auto | ].
    constructor; [rewrite H2; apply orb_true_r | auto].
Qed.

Lemma nonEmpty_In {A} (l : list A) x rest : nonEmpty l = Some (x, rest) -> In x l.
Proof. destruct l; simpl; intros H; inversion H; subst; auto. Qed.

Lemma nonEmpty_eq {A} (l : list A) x rest : nonEmpty l = Some (x, rest) -> l = x :: rest.
Proof. destruct l; simpl; intros H; inversion H; subst; auto. Qed.

Lemma first_date_components bank s d0 rest :
  nonEmpty (matchAll (datePattern (BANK_PATTERNS bank)) s) = Some (d0, rest) ->
  exists day month year, threeComponents d0 day month year.
Proof.
  intros H. apply nonEmpty_In in H. apply matchAll_sound in H.
  eapply date_lang_components. eassumption.
Qed.

Lemma standardizeDate_today bank s d0 rest today1 today2 :
  nonEmpty (matchAll (datePattern (BANK_PATTERNS bank)) s) = Some (d0, rest) ->
  standardizeDate today1 d0 = standardizeDate today2 d0.
Proof.
  intros H. apply first_date_components in H.
  destruct H as (day & month & year & H).
  rewrite !(standardizeDate_components _ H). reflexivity.
Qed.

(** Every text matched by the amount pattern parses to a number. *)
Lemma amount_lang_shape a :
  lang amountRe a ->
  exists sgn c rest,
    a = sgn ++ c :: rest /\ isDigit c = true /\
    (sgn = [] \/ exists x, sgn = [x] /\ isSign x = true).
Proof.
  unfold amountRe. cbn [seqs fold_right]. intros H.
  apply lang_Seq_inv in H. destruct H as (sgn & t1 & -> & Hs & H).
  apply lang_Seq_inv in H. destruct H as (ds & t2 & -> & Hd & _).
  apply lang_RepRange_cls in Hd. destruct Hd as [Ld Fd].
  destruct ds as [ | c ds]; [simpl in Ld; lia | ].
  inversion Fd; subst.
  exists sgn, c, (ds ++ t2). split; [reflexivity | ]. split; [assumption | ].
  apply lang_Alt_inv in Hs. destruct Hs as [Hs | Hs].
  - apply lang_Cls_inv in Hs. destruct Hs as (x & -> & Hx). right. eauto.
  - apply lang_Eps_inv in Hs. auto.
Qed.

Lemma parseAmount_number a : lang amountRe a -> parseAmount a <> NaN.
Proof.
  intros H. apply amount_lang_shape in H.
  destruct H as (sgn & c & rest & -> & Hc & Hs).
  unfold parseAmount, Chr. rewrite replaceG_cls.
  assert (negb (Ascii.eqb "," c) = true) as Kc
    by (rewrite (digit_neq' c ","); reflexivity || assumption).
  destruct Hs as [-> | (x & -> & Hx)]; cbn [app filter]; rewrite Kc.
  - apply parseFloat_digit. assumption.
  - assert (negb (Ascii.eqb "," x) = true) as Kx.
    { unfold isSign in Hx.
      destruct (Ascii.eqb_spec "," x) as [<- | ]; [discriminate | reflexivity]. }
    rewrite Kx. apply parseFloat_signed_digit; assumption.
Qed.

Lemma first_amount_number bank s a0 rest :
  nonEmpty (matchAll (amountPattern (BANK_PATTERNS bank)) s) = Some (a0, rest) ->
  parseAmount a0 <> NaN.
Proof.
  intros H. apply nonEmpty_In in H. apply matchAll_sound in H.
  apply parseAmount_number. destruct bank; exact H.
Qed.

End PatternFacts.

(** ** The three strategies, row by row *)

Module StrategyFacts.
Import JS Regex Num Model PdfParser RegexFacts NumFacts PatternFacts.

Lemma forEachM_inv {A B} (P : B -> Prop) (body : A -> B -> M B) :
  (forall x acc st, P acc -> P (fst (body x acc st))) ->
  forall l acc st, P acc -> P (fst (forEachM body l acc st)).
Proof.
  intros Hbody. induction l as [ | x l IH]; intros acc st Hacc; simpl.
  - assumption.
  - unfold bind. specialize (Hbody x acc st Hacc).
    destruct (body x acc st) as [acc' st']. apply IH. exact Hbody.
Qed.

Lemma forEachM_fst_ext {A B} (body1 body2 : A -> B -> M B) :
  (forall x acc st1 st2, fst (body1 x acc st1) = fst (body2 x acc st2)) ->
  forall l acc st1 st2,
    fst (forEachM body1 l acc st1) = fst (forEachM body2 l acc st2).
Proof.
  intros Hbody. induction l as [ | x l IH]; intros acc st1 st2; simpl.
  - reflexivity.
  - unfold bind. specialize (Hbody x acc st1 st2).
    destruct (body1 x acc st1) as [a1 s1]. destruct (body2 x acc st2) as [a2 s2].
    simpl in Hbody. subst a2. apply IH.
Qed.

Lemma tabularRow_cases today p raw acc st :
  fst (tabularRow today p raw acc st) = acc \/
  exists d0 drest a0 arest description,
    nonEmpty (matchAll (datePattern p) (trim raw)) = Some (d0, drest) /\
    nonEmpty (matchAll (amountPattern p) (trim raw)) = Some (a0, arest) /\
    truthyStr (truncate100 description) = true /\
    neZero (pickAmount (parseAmount a0) (map parseAmount arest)) = true /\
    fst (tabularRow today p raw acc st) =
    acc ++
    [ {| tx_id := tempId (length acc);
         tx_date := standardizeDate today d0;
         tx_description := orTransaction (truncate100 description);
         tx_amount := abs (pickAmount (parseAmount a0) (map parseAmount arest));
         tx_type := directionOf (pickAmount (parseAmount a0) (map parseAmount arest))
                                (trim raw);
         tx_category := categorizeTransaction (truncate100 description);
         tx_balance := None;
         tx_reference := None;
         tx_isReconciled := false;
         tx_confidence := (8 # 10)%Q |} ].
Proof.
  unfold tabularRow.
  destruct (negb (truthyStr (trim raw)) || (length (trim raw) <? 10)); [left; reflexivity | ].
  unfold bind, matchDate, matchAmount.
  destruct (nonEmpty (matchAll (datePattern p) (trim raw))) as [[d0 drest] | ] eqn:Ed;
    [ | left; reflexivity].
  destruct (nonEmpty (matchAll (amountPattern p) (trim raw))) as [[a0 arest] | ] eqn:Ea;
    [ | left; reflexivity].
  destruct (findIndexM (testDate p) _ _) as [dateIndex st1].
  destruct (findIndexM (testAmount p) _ _) as [amountIndex st2].
  unfold stripAmount, ret.
  set (stripped := replaceG (amountPattern p) [] _).
  destruct (truthyStr (truncate100 (trim stripped))) eqn:Et; [ | left; reflexivity].
  destruct (neZero (pickAmount (parseAmount a0) (map parseAmount arest))) eqn:En;
    [ | left; reflexivity].
  right. exists d0, drest, a0, arest, (trim stripped). auto.
Qed.

Lemma windowStep_cases today p current next third acc st :
  fst (windowStep today p current next third acc st) = acc \/
  exists d0 drest a0 arest description,
    nonEmpty (matchAll (datePattern p)
                (trim current ++ $" " ++ trim next ++ $" " ++ trim third))
      = Some (d0, drest) /\
    nonEmpty (matchAll (amountPattern p)
                (trim current ++ $" " ++ trim next ++ $" " ++ trim third))
      = Some (a0, arest) /\
    fst (windowStep today p current next third acc st) =
    acc ++
    [ {| tx_id := tempId (length acc);
         tx_date := standardizeDate today d0;
         tx_description := orTransaction description;
         tx_amount := abs (parseAmount a0);
         tx_type := if ltZero (parseAmount a0) then debit else credit;
         tx_category := $"other";
         tx_balance := None;
         tx_reference := None;
         tx_isReconciled := false;
         tx_confidence := (7 # 10)%Q |} ].
Proof.
  unfold windowStep, bind, matchDate, matchAmount.
  destruct (nonEmpty (matchAll (datePattern p) _)) as [[d0 drest] | ] eqn:Ed;
    [ | left; reflexivity].
  destruct (nonEmpty (matchAll (amountPattern p) _)) as [[a0 arest] | ] eqn:Ea;
    [ | left; reflexivity].
  unfold stripDate, stripAmount, ret. right.
  exists d0, drest, a0, arest. eexists. split; [reflexivity | ].
  split; reflexivity.
Qed.

Lemma regexRow_cases today p line acc st :
  fst (regexRow today p line acc st) = acc \/
  exists d0 drest a0 arest description,
    nonEmpty (matchAll (datePattern p) line) = Some (d0, drest) /\
    nonEmpty (matchAll (amountPattern p) line) = Some (a0, arest) /\
    truthyStr description = true /\
    neZero (pickAmount (parseAmount a0) (map parseAmount arest)) = true /\
    fst (regexRow today p line acc st) =
    acc ++
    [ {| tx_id := tempId (length acc);
         tx_date := standardizeDate today d0;
         tx_description := orTransaction description;
         tx_amount := abs (pickAmount (parseAmount a0) (map parseAmount arest));
         tx_type := directionOf (pickAmount (parseAmount a0) (map parseAmount arest)) line;
         tx_category := categorizeTransaction description;
         tx_balance := None;
         tx_reference := None;
         tx_isReconciled := false;
         tx_confidence := (6 # 10)%Q |} ].
Proof.
  unfold regexRow, bind, matchDate, matchAmount.
  destruct (nonEmpty (matchAll (datePattern p) line)) as [[d0 drest] | ] eqn:Ed;
    [ | left; reflexivity].
  destruct (nonEmpty (matchAll (amountPattern p) line)) as [[a0 arest] | ] eqn:Ea;
    [ | left; reflexivity].
  unfold stripDate, stripAmount, ret.
  set (description := alnumTokens _).
  destruct (truthyStr description) eqn:Et; [ | left; reflexivity].
  destruct (neZero (pickAmount (parseAmount a0) (map parseAmount arest))) eqn:En;
    [ | left; reflexivity].
  right. exists d0, drest, a0, arest, description. auto.
Qed.

(** A property of every emitted transaction, from a property of the rows. *)
Section Emitted.
Variable Q : ParsedTransaction -> Prop.

Lemma Forall_snoc_or (acc r : list ParsedTransaction) :
  Forall Q acc ->
  (r = acc \/ exists tx, r = acc ++ [tx] /\ Q tx) ->
  Forall Q r.
Proof.
  intros Hacc [-> | (tx & -> & Htx)]; [assumption | ].
  apply Forall_app. auto.
Qed.

Lemma lineWindows_inv today p :
  (forall c n t acc st,
      Forall Q acc -> Forall Q (fst (windowStep today p c n t acc st))) ->
  forall lines acc st,
    Forall Q acc -> Forall Q (fst (lineWindows today p lines acc st)).
Proof.
  intros Hstep. induction lines as [ | c rest IH]; intros acc st Hacc.
  - assumption.
  - simpl. destruct rest as [ | n [ | t rest']]; try assumption.
    unfold bind. specialize (Hstep c n t acc st Hacc).
    destruct (windowStep today p c n t acc st) as [acc' st'].
    apply IH. exact Hstep.
Qed.

End Emitted.

Lemma lineWindows_fst_ext today1 today2 p :
  (forall c n t acc st1 st2,
      fst (windowStep today1 p c n t acc st1) = fst (windowStep today2 p c n t acc st2)) ->
  forall lines acc st1 st2,
    fst (lineWindows today1 p lines acc st1) = fst (lineWindows today2 p lines acc st2).
Proof.
  intros Hstep. induction lines as [ | c rest IH]; intros acc st1 st2.
  - reflexivity.
  - simpl. destruct rest as [ | n [ | t rest']]; try reflexivity.
    unfold bind. specialize (Hstep c n t acc st1 st2).
    destruct (windowStep today1 p c n t acc st1) as [a1 s1].
    destruct (windowStep today2 p c n t acc st2) as [a2 s2].
    simpl in Hstep. subst a2. apply IH.
Qed.

End StrategyFacts.

(** ** Independence from the clock and from the state of the patterns *)

Module Independence.
Import JS Regex Num Model PdfParser RegexFacts NumFacts PatternFacts StrategyFacts.

(** The rows do not read [today] and do not depend on the [lastIndex] values
    they start with: every row resets both patterns with [match] before it
    calls [test]. *)
Lemma tabularRow_indep bank today1 today2 raw acc st1 st2 :
  fst (tabularRow today1 (BANK_PATTERNS bank) raw acc st1) =
  fst (tabularRow today2 (BANK_PATTERNS bank) raw acc st2).
Proof.
  unfold tabularRow.
  destruct (negb (truthyStr (trim raw)) || (length (trim raw) <? 10)); [reflexivity | ].
  unfold bind, matchDate, matchAmount.
  destruct (nonEmpty (matchAll (datePattern _) (trim raw))) as [[d0 drest] | ] eqn:Ed;
    [ | reflexivity].
  destruct (nonEmpty (matchAll (amountPattern _) (trim raw))) as [[a0 arest] | ];
    [ | reflexivity].
  rewrite (standardizeDate_today bank _ today1 today2 Ed). reflexivity.
Qed.

Lemma windowStep_indep bank today1 today2 c n t acc st1 st2 :
  fst (windowStep today1 (BANK_PATTERNS bank) c n t acc st1) =
  fst (windowStep today2 (BANK_PATTERNS bank) c n t acc st2).
Proof.
  unfold windowStep, bind, matchDate, matchAmount.
  destruct (nonEmpty (matchAll (datePattern _) _)) as [[d0 drest] | ] eqn:Ed;
    [ | reflexivity].
  destruct (nonEmpty (matchAll (amountPattern _) _)) as [[a0 arest] | ];
    [ | reflexivity].
  rewrite (standardizeDate_today bank _ today1 today2 Ed). reflexivity.
Qed.

Lemma regexRow_indep bank today1 today2 line acc st1 st2 :
  fst (regexRow today1 (BANK_PATTERNS bank) line acc st1) =
  fst (regexRow today2 (BANK_PATTERNS bank) line acc st2).
Proof.
  unfold regexRow, bind, matchDate, matchAmount.
  destruct (nonEmpty (matchAll (datePattern _) _)) as [[d0 drest] | ] eqn:Ed;
    [ | reflexivity].
  destruct (nonEmpty (matchAll (amountPattern _) _)) as [[a0 arest] | ];
    [ | reflexivity].
  rewrite (standardizeDate_today bank _ today1 today2 Ed). reflexivity.
Qed.

Lemma findFirstDataLine_state p lines i st1 st2 :
  fst (findFirstDataLine p lines i st1) = fst (findFirstDataLine p lines i st2).
Proof. destruct lines; reflexivity. Qed.

Lemma parseTabularFormat_indep bank today1 today2 lines st1 st2 :
  fst (parseTabularFormat today1 lines (BANK_PATTERNS bank) st1) =
  fst (parseTabularFormat today2 lines (BANK_PATTERNS bank) st2).
Proof.
  unfold parseTabularFormat, bind.
  destruct (findHeaderLine lines 0 =? -1)%Z.
  - pose proof (findFirstDataLine_state (BANK_PATTERNS bank) lines 0%Z st1 st2) as H.
    destruct (findFirstDataLine _ lines 0%Z st1) as [h1 s1].
    destruct (findFirstDataLine _ lines 0%Z st2) as [h2 s2].
    simpl in H. subst h2.
    apply forEachM_fst_ext. intros. apply tabularRow_indep.
  - unfold ret. apply forEachM_fst_ext. intros. apply tabularRow_indep.
Qed.

Lemma parseLineByLineFormat_indep bank today1 today2 lines st1 st2 :
  fst (parseLineByLineFormat today1 lines (BANK_PATTERNS bank) st1) =
  fst (parseLineByLineFormat today2 lines (BANK_PATTERNS bank) st2).
Proof.
  unfold parseLineByLineFormat. apply lineWindows_fst_ext.
  intros. apply windowStep_indep.
Qed.

Lemma parseRegexFormat_indep bank today1 today2 text st1 st2 :
  fst (parseRegexFormat today1 text (BANK_PATTERNS bank) st1) =
  fst (parseRegexFormat today2 text (BANK_PATTERNS bank) st2).
Proof.
  unfold parseRegexFormat. apply forEachM_fst_ext. intros. apply regexRow_indep.
Qed.

Lemma runStrategy_indep bank today1 today2 lines text s st1 st2 :
  fst (runStrategy today1 (BANK_PATTERNS bank) lines text s st1) =
  fst (runStrategy today2 (BANK_PATTERNS bank) lines text s st2).
Proof.
  destruct s; simpl.
  - apply parseTabularFormat_indep.
  - apply parseLineByLineFormat_indep.
  - apply parseRegexFormat_indep.
Qed.

Lemma strategyLoop_fst_ext (run1 run2 : Strategy -> M (list ParsedTransaction)) :
  (forall s st1 st2, fst (run1 s st1) = fst (run2 s st2)) ->
  forall ss acc st1 st2,
    fst (strategyLoop run1 ss acc st1) = fst (strategyLoop run2 ss acc st2).
Proof.
  intros Hrun. induction ss as [ | s ss IH]; intros acc st1 st2; simpl.
  - reflexivity.
  - unfold bind. specialize (Hrun s st1 st2).
    destruct (run1 s st1) as [r1 s1]. destruct (run2 s st2) as [r2 s2].
    simpl in Hrun. subst r2.
    destruct (0 <? length r1); [reflexivity | ].
    specialize (IH acc s1 s2).
    destruct (strategyLoop run1 ss acc s1) as [x1 t1].
    destruct (strategyLoop run2 ss acc s2) as [x2 t2].
    simpl in IH. subst x2. reflexivity.
Qed.

Lemma recognise_indep bank today1 today2 text st1 st2 :
  fst (recognise today1 text bank st1) = fst (recognise today2 text bank st2).
Proof.
  unfold recognise. apply strategyLoop_fst_ext. intros. apply runStrategy_indep.
Qed.

Lemma map_content_mapIndexed (f : nat -> str) : forall l i,
  map content (mapIndexed (fun tx index => withId tx (f index)) l i) = map content l.
Proof.
  induction l as [ | tx l IH]; intros i; simpl; [reflexivity | ].
  rewrite IH. reflexivity.
Qed.

Lemma length_mapIndexed {A B} (f : A -> nat -> B) : forall l i,
  length (mapIndexed f l i) = length l.
Proof. induction l as [ | x l IH]; intros i; simpl; [ | rewrite IH]; reflexivity. Qed.

Lemma parseTransactionsFromText_run today now text bank st :
  fst (parseTransactionsFromText today now text bank st) =
  let valid := mapIndexed (fun tx index => withId tx (pdfId (now index) index))
                 (filter isValid (snd (fst (recognise today text bank st)))) 0 in
  {| transactions := valid;
     errors := if length valid =? 0 then [noValidTransactions] else [] |}.
Proof.
  unfold parseTransactionsFromText, bind, ret.
  destruct (recognise today text bank st) as [r st']. reflexivity.
Qed.

Lemma parseTransactionsFromText_content today now text bank st :
  map content (transactions (fst (parseTransactionsFromText today now text bank st))) =
  map content (filter isValid (snd (fst (recognise today text bank st)))).
Proof.
  rewrite parseTransactionsFromText_run. simpl.
  apply (map_content_mapIndexed (fun index => pdfId (now index) index)).
Qed.

End Independence.

(** ** What holds of every transaction a strategy emits *)

Module Emission.
Import JS Regex Num Model PdfParser RegexFacts NumFacts PatternFacts StrategyFacts.

Section Emitted.
Variable Q : ParsedTransaction -> Prop.
Variables (today : str) (p : BankPattern).

Lemma tabular_emits lines st :
  (forall raw n d0 drest a0 arest description,
      nonEmpty (matchAll (datePattern p) (trim raw)) = Some (d0, drest) ->
      nonEmpty (matchAll (amountPattern p) (trim raw)) = Some (a0, arest) ->
      truthyStr (truncate100 description) = true ->
      neZero (pickAmount (parseAmount a0) (map parseAmount arest)) = true ->
      Q {| tx_id := tempId n;
           tx_date := standardizeDate today d0;
           tx_description := orTransaction (truncate100 description);
           tx_amount := abs (pickAmount (parseAmount a0) (map parseAmount arest));
           tx_type := directionOf (pickAmount (parseAmount a0) (map parseAmount arest))
                                  (trim raw);
           tx_category := categorizeTransaction (truncate100 description);
           tx_balance := None;
           tx_reference := None;
           tx_isReconciled := false;
           tx_confidence := (8 # 10)%Q |}) ->
  Forall Q (fst (parseTabularFormat today lines p st)).
Proof.
  intros Hrow. unfold parseTabularFormat, bind.
  match goal with
  | |- Forall Q (fst (let (_, _) := ?c in _)) => destruct c as [h st']
  end.
  apply forEachM_inv; [ | constructor].
  intros raw acc st0 Hacc. apply (Forall_snoc_or Hacc).
  destruct (tabularRow_cases today p raw acc st0)
    as [E | (d0 & drest & a0 & arest & description & Ed & Ea & Et & En & E)].
  - left. exact E.
  - right. eexists. split; [exact E | ]. eapply Hrow; eassumption.
Qed.

Lemma lineGrouped_emits lines st :
  (forall s n d0 drest a0 arest description,
      nonEmpty (matchAll (datePattern p) s) = Some (d0, drest) ->
      nonEmpty (matchAll (amountPattern p) s) = Some (a0, arest) ->
      Q {| tx_id := tempId n;
           tx_date := standardizeDate today d0;
           tx_description := orTransaction description;
           tx_amount := abs (parseAmount a0);
           tx_type := if ltZero (parseAmount a0) then debit else credit;
           tx_category := $"other";
           tx_balance := None;
           tx_reference := None;
           tx_isReconciled := false;
           tx_confidence := (7 # 10)%Q |}) ->
  Forall Q (fst (parseLineByLineFormat today lines p st)).
Proof.
  intros Hrow. unfold parseLineByLineFormat.
  apply lineWindows_inv; [ | constructor].
  intros c n t acc st0 Hacc. apply (Forall_snoc_or Hacc).
  destruct (windowStep_cases today p c n t acc st0)
    as [E | (d0 & drest & a0 & arest & description & Ed & Ea & E)].
  - left. exact E.
  - right. eexists. split; [exact E | ]. eapply Hrow; eassumption.
Qed.

Lemma regexSweep_emits text st :
  (forall line n d0 drest a0 arest description,
      nonEmpty (matchAll (datePattern p) line) = Some (d0, drest) ->
      nonEmpty (matchAll (amountPattern p) line) = Some (a0, arest) ->
      truthyStr description = true ->
      neZero (pickAmount (parseAmount a0) (map parseAmount arest)) = true ->
      Q {| tx_id := tempId n;
           tx_date := standardizeDate today d0;
           tx_description := orTransaction description;
           tx_amount := abs (pickAmount (parseAmount a0) (map parseAmount arest));
           tx_type := directionOf (pickAmount (parseAmount a0) (map parseAmount arest)) line;
           tx_category := categorizeTransaction description;
           tx_balance := None;
           tx_reference := None;
           tx_isReconciled := false;
           tx_confidence := (6 # 10)%Q |}) ->
  Forall Q (fst (parseRegexFormat today text p st)).
Proof.
  intros Hrow. unfold parseRegexFormat.
  apply forEachM_inv; [ | constructor].
  intros line acc st0 Hacc. apply (Forall_snoc_or Hacc).
  destruct (regexRow_cases today p line acc st0)
    as [E | (d0 & drest & a0 & arest & description & Ed & Ea & Et & En & E)].
  - left. exact E.
  - right. eexists. split; [exact E | ]. eapply Hrow; eassumption.
Qed.

End Emitted.

Lemma orTransaction_truthy s : truthyStr s = true -> orTransaction s = s.
Proof. unfold orTransaction. intros ->. reflexivity. Qed.

Lemma pickAmount_number a rest : pickAmount a rest <> NaN.
Proof. unfold pickAmount. apply orElse_zero_number. Qed.

Lemma truncate100_length s : length (truncate100 s) <= 103.
Proof.
  unfold truncate100, substring0.
  destruct (100 <? length s) eqn:E.
  - rewrite length_app, length_firstn.
    change (length $"...") with 3. lia.
  - apply Nat.ltb_ge in E. lia.
Qed.

End Emission.

(* ===================================================================== *)
(** * The claims of the specification *)
(* ===================================================================== *)

Import JS Regex Num Model PdfParser.
Import Samples RegexFacts NumFacts PatternFacts StrategyFacts Independence Emission.

Unset Implicit Arguments.

(** ** Dates *)

Lemma standardizeDate_resolved bank s d0 rest today :
  nonEmpty (matchAll (datePattern (BANK_PATTERNS bank)) s) = Some (d0, rest) ->
  resolvedDate (standardizeDate today d0).
Proof.
  intros H. apply first_date_components in H.
  destruct H as (day & month & year & H).
  exists d0, day, month, year. split; [assumption | ].
  rewrite (standardizeDate_components today H).
  destruct H as [s1 s2 _ _ _ _ _ _ _ _ Hy]. rewrite Hy. reflexivity.
Qed.

(** The fallback of the helper itself: a text with two components gives
    today's date. *)
Example standardizeDate_fallback :
  standardizeDate $"2026-11-02" $"1/4" = $"2026-11-02".
Proof. vm_compute. reflexivity. Qed.

(** C1. Under every bank profile each text that the date pattern matches,
    and so each raw date a strategy hands to [standardizeDate], has exactly
    three numeric components.  Hence in each of the three strategies the
    date of every emitted transaction is assembled from such components, and
    no strategy output, the tabular one in particular, depends on the value of
    today's date: no transaction is emitted with a guessed date. *)
Theorem C1_dates_never_guessed :
  forall (bank : BankType) (today : str) (lines : list str) (text : str)
         (st : RegexState),
    (forall s : str,
        Forall (fun raw => exists day month year, threeComponents raw day month year)
               (matchAll (datePattern (BANK_PATTERNS bank)) s)) /\
    (Forall (fun tx => resolvedDate (tx_date tx))
            (fst (parseTabularFormat today lines (BANK_PATTERNS bank) st)) /\
     Forall (fun tx => resolvedDate (tx_date tx))
            (fst (parseLineByLineFormat today lines (BANK_PATTERNS bank) st)) /\
     Forall (fun tx => resolvedDate (tx_date tx))
            (fst (parseRegexFormat today text (BANK_PATTERNS bank) st))) /\
    (forall today' : str,
        fst (parseTabularFormat today' lines (BANK_PATTERNS bank) st) =
        fst (parseTabularFormat today lines (BANK_PATTERNS bank) st) /\
        fst (parseLineByLineFormat today' lines (BANK_PATTERNS bank) st) =
        fst (parseLineByLineFormat today lines (BANK_PATTERNS bank) st) /\
        fst (parseRegexFormat today' text (BANK_PATTERNS bank) st) =
        fst (parseRegexFormat today text (BANK_PATTERNS bank) st)).
Proof.
  intros bank today lines text st. split; [ | split; [repeat split | ]].
  - intros s. apply Forall_forall. intros raw Hin.
    apply matchAll_sound in Hin. apply (date_lang_components bank). exact Hin.
  - apply tabular_emits. intros. simpl. eapply standardizeDate_resolved; eassumption.
  - apply lineGrouped_emits. intros. simpl. eapply standardizeDate_resolved; eassumption.
  - apply regexSweep_emits. intros. simpl. eapply standardizeDate_resolved; eassumption.
  - intros today'. repeat split.
    + apply parseTabularFormat_indep.
    + apply parseLineByLineFormat_indep.
    + apply parseRegexFormat_indep.
Qed.

(** ** Every emitted transaction comes from a line of the input *)

Import Traced.

Lemma forEachM_inv_In {A B : Type} (P : B -> Prop) (body : A -> B -> M B)
    (all : list A) :
  (forall x acc st, In x all -> P acc -> P (fst (body x acc st))) ->
  forall l acc st, incl l all -> P acc -> P (fst (forEachM body l acc st)).
Proof.
  intros Hbody. induction l as [ | x l IH]; intros acc st Hl Hacc; simpl.
  - assumption.
  - unfold bind.
    assert (P (fst (body x acc st))) as H
      by (apply Hbody; [apply Hl; left; reflexivity | exact Hacc]).
    destruct (body x acc st) as [acc' st']. apply IH; [ | exact H].
    intros y Hy. apply Hl. right. exact Hy.
Qed.

Lemma incl_skipn {A : Type} (n : nat) (l : list A) : incl (skipn n l) l.
Proof.
  intros x Hx. rewrite <- (firstn_skipn n l). apply in_or_app. right. exact Hx.
Qed.

Lemma lineWindows_inv_window (P : list ParsedTransaction -> Prop) today p
    (all : list str) :
  (forall c n t acc st,
      window all c n t -> P acc -> P (fst (windowStep today p c n t acc st))) ->
  forall lines before acc st,
    all = before ++ lines -> P acc -> P (fst (lineWindows today p lines acc st)).
Proof.
  intros Hstep. induction lines as [ | c rest IH]; intros before acc st Hall Hacc.
  - assumption.
  - simpl. destruct rest as [ | n [ | t rest']]; try assumption.
    unfold bind.
    assert (P (fst (windowStep today p c n t acc st))) as H.
    { apply Hstep; [ | exact Hacc]. exists before, rest'. exact Hall. }
    destruct (windowStep today p c n t acc st) as [acc' st'].
    apply (IH (before ++ [c])); [ | exact H].
    rewrite <- app_assoc. exact Hall.
Qed.

(** the row of the tabular strategy, with the description it is given *)
Lemma tabularRow_traced today p raw acc st :
  fst (tabularRow today p raw acc st) = acc \/
  exists d0 drest a0 arest dateIndex amountIndex,
    nonEmpty (matchAll (datePattern p) (trim raw)) = Some (d0, drest) /\
    nonEmpty (matchAll (amountPattern p) (trim raw)) = Some (a0, arest) /\
    truthyStr (truncate100 (tabularCleaned p raw dateIndex amountIndex)) = true /\
    fst (tabularRow today p raw acc st) =
    acc ++
    [ {| tx_id := tempId (length acc);
         tx_date := standardizeDate today d0;
         tx_description :=
           orTransaction (truncate100 (tabularCleaned p raw dateIndex amountIndex));
         tx_amount := abs (pickAmount (parseAmount a0) (map parseAmount arest));
         tx_type := directionOf (pickAmount (parseAmount a0) (map parseAmount arest))
                                (trim raw);
         tx_category :=
           categorizeTransaction
             (truncate100 (tabularCleaned p raw dateIndex amountIndex));
         tx_balance := None;
         tx_reference := None;
         tx_isReconciled := false;
         tx_confidence := (8 # 10)%Q |} ].
Proof.
  unfold tabularRow.
  destruct (negb (truthyStr (trim raw)) || (length (trim raw) <? 10)); [left; reflexivity | ].
  unfold bind, matchDate, matchAmount.
  destruct (nonEmpty (matchAll (datePattern p) (trim raw))) as [[d0 drest] | ] eqn:Ed;
    [ | left; reflexivity].
  destruct (nonEmpty (matchAll (amountPattern p) (trim raw))) as [[a0 arest] | ] eqn:Ea;
    [ | left; reflexivity].
  destruct (findIndexM (testDate p) _ _) as [dateIndex st1].
  destruct (findIndexM (testAmount p) _ _) as [amountIndex st2].
  unfold stripAmount, ret.
  fold (tabularCleaned p raw dateIndex amountIndex).
  destruct (truthyStr (truncate100 (tabularCleaned p raw dateIndex amountIndex))) eqn:Et;
    [ | left; reflexivity].
  destruct (neZero (pickAmount (parseAmount a0) (map parseAmount arest))) eqn:En;
    [ | left; reflexivity].
  right. exists d0, drest, a0, arest, dateIndex, amountIndex. auto.
Qed.

Lemma windowStep_traced today p current next third acc st :
  fst (windowStep today p current next third acc st) = acc \/
  exists d0 drest a0 arest,
    nonEmpty (matchAll (datePattern p) (combinedLine current next third))
      = Some (d0, drest) /\
    nonEmpty (matchAll (amountPattern p) (combinedLine current next third))
      = Some (a0, arest) /\
    fst (windowStep today p current next third acc st) =
    acc ++
    [ {| tx_id := tempId (length acc);
         tx_date := standardizeDate today d0;
         tx_description := orTransaction (groupedCleaned p current);
         tx_amount := abs (parseAmount a0);
         tx_type := if ltZero (parseAmount a0) then debit else credit;
         tx_category := $"other";
         tx_balance := None;
         tx_reference := None;
         tx_isReconciled := false;
         tx_confidence := (7 # 10)%Q |} ].
Proof.
  unfold windowStep, bind, matchDate, matchAmount. cbv zeta.
  fold (combinedLine current next third).
  destruct (nonEmpty (matchAll (datePattern p) _)) as [[d0 drest] | ] eqn:Ed;
    [ | left; reflexivity].
  destruct (nonEmpty (matchAll (amountPattern p) _)) as [[a0 arest] | ] eqn:Ea;
    [ | left; reflexivity].
  unfold stripDate, stripAmount, ret. right.
  exists d0, drest, a0, arest. split; [reflexivity | ].
  split; reflexivity.
Qed.

Lemma regexRow_traced today p line acc st :
  fst (regexRow today p line acc st) = acc \/
  exists d0 drest a0 arest,
    nonEmpty (matchAll (datePattern p) line) = Some (d0, drest) /\
    nonEmpty (matchAll (amountPattern p) line) = Some (a0, arest) /\
    truthyStr (regexCleaned p line) = true /\
    fst (regexRow today p line acc st) =
    acc ++
    [ {| tx_id := tempId (length acc);
         tx_date := standardizeDate today d0;
         tx_description := orTransaction (regexCleaned p line);
         tx_amount := abs (pickAmount (parseAmount a0) (map parseAmount arest));
         tx_type := directionOf (pickAmount (parseAmount a0) (map parseAmount arest)) line;
         tx_category := categorizeTransaction (regexCleaned p line);
         tx_balance := None;
         tx_reference := None;
         tx_isReconciled := false;
         tx_confidence := (6 # 10)%Q |} ].
Proof.
  unfold regexRow, bind, matchDate, matchAmount.
  destruct (nonEmpty (matchAll (datePattern p) line)) as [[d0 drest] | ] eqn:Ed;
    [ | left; reflexivity].
  destruct (nonEmpty (matchAll (amountPattern p) line)) as [[a0 arest] | ] eqn:Ea;
    [ | left; reflexivity].
  unfold stripDate, stripAmount, ret. cbv zeta.
  fold (regexCleaned p line).
  destruct (truthyStr (regexCleaned p line)) eqn:Et; [ | left; reflexivity].
  destruct (neZero (pickAmount (parseAmount a0) (map parseAmount arest))) eqn:En;
    [ | left; reflexivity].
  right. exists d0, drest, a0, arest. auto.
Qed.

(** What holds of every emitted transaction, from what holds of the row of
    each line of the input. *)
Lemma tabular_traced (P : ParsedTransaction -> Prop) today p lines st :
  (forall raw acc st' tx,
      In raw lines ->
      fst (tabularRow today p raw acc st') = acc ++ [tx] -> P tx) ->
  Forall P (fst (parseTabularFormat today lines p st)).
Proof.
  intros Hrow. unfold parseTabularFormat, bind.
  match goal with
  | |- Forall P (fst (let (_, _) := ?c in _)) => destruct c as [h st']
  end.
  apply (forEachM_inv_In (Forall P) (tabularRow today p) lines);
    [ | apply incl_skipn | constructor].
  intros raw acc st0 Hin Hacc.
  destruct (tabularRow_traced today p raw acc st0) as [E | (d0 & H)].
  - rewrite E. exact Hacc.
  - destruct H as (drest & a0 & arest & di & ai & _ & _ & _ & E).
    rewrite E. apply Forall_app. split; [exact Hacc | ].
    constructor; [ | constructor]. exact (Hrow raw acc st0 _ Hin E).
Qed.

Lemma grouped_traced (P : ParsedTransaction -> Prop) today p lines st :
  (forall c n t acc st' tx,
      window lines c n t ->
      fst (windowStep today p c n t acc st') = acc ++ [tx] -> P tx) ->
  Forall P (fst (parseLineByLineFormat today lines p st)).
Proof.
  intros Hrow. unfold parseLineByLineFormat.
  apply (lineWindows_inv_window (Forall P) today p lines) with (before := []);
    [ | reflexivity | constructor].
  intros c n t acc st0 Hw Hacc.
  destruct (windowStep_traced today p c n t acc st0) as [E | (d0 & H)].
  - rewrite E. exact Hacc.
  - destruct H as (drest & a0 & arest & _ & _ & E).
    rewrite E. apply Forall_app. split; [exact Hacc | ].
    constructor; [ | constructor]. exact (Hrow c n t acc st0 _ Hw E).
Qed.

Lemma regex_traced (P : ParsedTransaction -> Prop) today p text st :
  (forall line acc st' tx,
      In line (splitChar "010" text) ->
      fst (regexRow today p line acc st') = acc ++ [tx] -> P tx) ->
  Forall P (fst (parseRegexFormat today text p st)).
Proof.
  intros Hrow. unfold parseRegexFormat. cbv zeta.
  apply (forEachM_inv_In (Forall P) (regexRow today p) (splitChar "010" text));
    [ | intros x Hx; apply filter_In in Hx; exact (proj1 Hx) | constructor].
  intros line acc st0 Hin Hacc.
  destruct (regexRow_traced today p line acc st0) as [E | (d0 & H)].
  - rewrite E. exact Hacc.
  - destruct H as (drest & a0 & arest & _ & _ & _ & E).
    rewrite E. apply Forall_app. split; [exact Hacc | ].
    constructor; [ | constructor]. exact (Hrow line acc st0 _ Hin E).
Qed.

Lemma snoc_inj {A : Type} (l : list A) (x y : A) : l ++ [x] = l ++ [y] -> x = y.
Proof.
  intros H. apply app_inv_head in H. inversion H. reflexivity.
Qed.

Lemma directionOf_rule a line :
  directionOf a line = if ltZero a || saysDebit line then debit else credit.
Proof.
  unfold directionOf, saysDebit.
  destruct (ltZero a); [reflexivity | ]. cbn [orb].
  destruct (includes (toLowerCase line) $"dr" || includes (toLowerCase line) $"debit");
    [reflexivity | ].
  destruct (includes (toLowerCase line) $"cr" || includes (toLowerCase line) $"credit");
    reflexivity.
Qed.

Lemma tabularRow_sign today bank lines raw acc st tx :
  In raw lines ->
  fst (tabularRow today (BANK_PATTERNS bank) raw acc st) = acc ++ [tx] ->
  tabularSign (BANK_PATTERNS bank) lines tx.
Proof.
  intros Hin E.
  destruct (tabularRow_traced today (BANK_PATTERNS bank) raw acc st)
    as [E' | (d0 & drest & a0 & arest & di & ai & _ & Ea & _ & E')].
  - rewrite E' in E. rewrite <- (app_nil_r acc) in E at 1.
    apply app_inv_head in E. discriminate.
  - rewrite E' in E. apply snoc_inj in E. subst tx.
    exists raw, (pickAmount (parseAmount a0) (map parseAmount arest)).
    split; [exact Hin | ]. split; [unfold signedAmount; rewrite Ea; reflexivity | ].
    unfold carriesSign. cbn [tx_amount tx_type].
    split; [reflexivity | ].
    split; [apply geZero_abs; apply pickAmount_number | apply directionOf_rule].
Qed.

Lemma windowStep_sign today bank lines c n t acc st tx :
  window lines c n t ->
  fst (windowStep today (BANK_PATTERNS bank) c n t acc st) = acc ++ [tx] ->
  groupedSign (BANK_PATTERNS bank) lines tx.
Proof.
  intros Hw E.
  destruct (windowStep_traced today (BANK_PATTERNS bank) c n t acc st)
    as [E' | (d0 & drest & a0 & arest & _ & Ea & E')].
  - rewrite E' in E. rewrite <- (app_nil_r acc) in E at 1.
    apply app_inv_head in E. discriminate.
  - rewrite E' in E. apply snoc_inj in E. subst tx.
    exists c, n, t, (parseAmount a0).
    split; [exact Hw | ].
    split; [unfold firstSignedAmount; rewrite Ea; reflexivity | ].
    unfold carriesSign. cbn [tx_amount tx_type].
    split; [reflexivity | ].
    split; [apply geZero_abs; eapply first_amount_number; exact Ea | ].
    rewrite orb_false_r. reflexivity.
Qed.

Lemma regexRow_sign today bank text line acc st tx :
  In line (splitChar "010" text) ->
  fst (regexRow today (BANK_PATTERNS bank) line acc st) = acc ++ [tx] ->
  regexSign (BANK_PATTERNS bank) text tx.
Proof.
  intros Hin E.
  destruct (regexRow_traced today (BANK_PATTERNS bank) line acc st)
    as [E' | (d0 & drest & a0 & arest & _ & Ea & _ & E')].
  - rewrite E' in E. rewrite <- (app_nil_r acc) in E at 1.
    apply app_inv_head in E. discriminate.
  - rewrite E' in E. apply snoc_inj in E. subst tx.
    exists line, (pickAmount (parseAmount a0) (map parseAmount arest)).
    split; [exact Hin | ]. split; [unfold signedAmount; rewrite Ea; reflexivity | ].
    unfold carriesSign. cbn [tx_amount tx_type].
    split; [reflexivity | ].
    split; [apply geZero_abs; apply pickAmount_number | apply directionOf_rule].
Qed.

Lemma carriesSign_same a says tx tx' :
  tx_amount tx' = tx_amount tx -> tx_type tx' = tx_type tx ->
  carriesSign a says tx -> carriesSign a says tx'.
Proof. unfold carriesSign. intros -> ->. exact (fun H => H). Qed.

Lemma abs_gtZero x : gtZero x = true -> abs x = x.
Proof.
  destruct x as [ | | | [[ | n | n] d]]; simpl; try discriminate; reflexivity.
Qed.

Lemma gtZero_truthy x : gtZero x = true -> truthy x = true.
Proof.
  destruct x as [ | | | [[ | n | n] d]]; simpl; try discriminate; reflexivity.
Qed.

(** ** Amounts *)

(** C6. Every transaction emitted by the three PDF strategies (under every
    bank profile), every transaction returned by [parseTransactionsFromText]
    and every transaction built by the CSV row parser has an amount that is a
    number greater than or equal to zero, and carries the sign in its
    direction.  In the PDF strategies the transaction comes from a line (a
    window of three lines in the line-grouped strategy) of the input; its
    amount is the magnitude of the signed number read there, and its direction
    is debit exactly when that number is negative or, in the tabular and
    regex strategies, the line says debit.  In the CSV row parser the
    direction is credit exactly when the credit cell holds a positive number,
    and the amount is that number, or else the magnitude of the number of the
    debit cell. *)
Theorem C6_amount_nonnegative_sign_in_direction :
  forall (bank : BankType) (today : str) (now : nat -> Z) (lines : list str)
         (text : str) (st : RegexState)
         (toISOString : str -> Thrown + str) (clock : Z) (rnd : str)
         (row headers : list str),
    Forall (fun tx => geZero (tx_amount tx) = true /\
                      tabularSign (BANK_PATTERNS bank) lines tx)
           (fst (parseTabularFormat today lines (BANK_PATTERNS bank) st)) /\
    Forall (fun tx => geZero (tx_amount tx) = true /\
                      groupedSign (BANK_PATTERNS bank) lines tx)
           (fst (parseLineByLineFormat today lines (BANK_PATTERNS bank) st)) /\
    Forall (fun tx => geZero (tx_amount tx) = true /\
                      regexSign (BANK_PATTERNS bank) text tx)
           (fst (parseRegexFormat today text (BANK_PATTERNS bank) st)) /\
    Forall (fun tx => geZero (tx_amount tx) = true /\
                      (tabularSign (BANK_PATTERNS bank) (splitLines text) tx \/
                       groupedSign (BANK_PATTERNS bank) (splitLines text) tx \/
                       regexSign (BANK_PATTERNS bank) text tx))
           (transactions (fst (parseTransactionsFromText today now text bank st))) /\
    match Csv.parseCSVTransaction toISOString clock rnd row headers with
    | inr tx => csvSign row headers tx
    | inl _ => True
    end.
Proof.
  intros bank today now lines text st toISOString clock rnd row headers.
  assert (forall lines' st',
             Forall (fun tx => geZero (tx_amount tx) = true /\
                               tabularSign (BANK_PATTERNS bank) lines' tx)
               (fst (parseTabularFormat today lines' (BANK_PATTERNS bank) st'))) as HT.
  { intros lines' st'. apply tabular_traced. intros raw acc st0 tx Hin E.
    pose proof (tabularRow_sign today bank lines' raw acc st0 tx Hin E) as H.
    split; [ | exact H]. destruct H as (r & a & _ & _ & _ & H & _). exact H. }
  assert (forall lines' st',
             Forall (fun tx => geZero (tx_amount tx) = true /\
                               groupedSign (BANK_PATTERNS bank) lines' tx)
               (fst (parseLineByLineFormat today lines' (BANK_PATTERNS bank) st'))) as HL.
  { intros lines' st'. apply grouped_traced. intros c n t acc st0 tx Hw E.
    pose proof (windowStep_sign today bank lines' c n t acc st0 tx Hw E) as H.
    split; [ | exact H]. destruct H as (c' & n' & t' & a & _ & _ & _ & H & _). exact H. }
  assert (forall text' st',
             Forall (fun tx => geZero (tx_amount tx) = true /\
                               regexSign (BANK_PATTERNS bank) text' tx)
               (fst (parseRegexFormat today text' (BANK_PATTERNS bank) st'))) as HR.
  { intros text' st'. apply regex_traced. intros line acc st0 tx Hin E.
    pose proof (regexRow_sign today bank text' line acc st0 tx Hin E) as H.
    split; [ | exact H]. destruct H as (l & a & _ & _ & _ & H & _). exact H. }
  split; [apply HT | ]. split; [apply HL | ]. split; [apply HR | ]. split.
  - rewrite parseTransactionsFromText_run. cbv zeta. simpl transactions.
    set (P := fun tx => geZero (tx_amount tx) = true /\
                        (tabularSign (BANK_PATTERNS bank) (splitLines text) tx \/
                         groupedSign (BANK_PATTERNS bank) (splitLines text) tx \/
                         regexSign (BANK_PATTERNS bank) text tx)).
    assert (Forall P (snd (fst (recognise today text bank st)))) as Hrec.
    { unfold recognise, strategies. simpl strategyLoop. unfold bind, runStrategy.
      pose proof (HT (splitLines text) st) as H1.
      destruct (parseTabularFormat today (splitLines text) (BANK_PATTERNS bank) st)
        as [t s1].
      destruct (0 <? length t).
      { simpl. eapply Forall_impl; [ | exact H1]. intros tx [Hg Hs]. split; auto. }
      pose proof (HL (splitLines text) s1) as H2.
      destruct (parseLineByLineFormat today (splitLines text) (BANK_PATTERNS bank) s1)
        as [l s2].
      destruct (0 <? length l).
      { simpl. eapply Forall_impl; [ | exact H2]. intros tx [Hg Hs]. split; auto. }
      pose proof (HR text s2) as H3.
      destruct (parseRegexFormat today text (BANK_PATTERNS bank) s2) as [g s3].
      destruct (0 <? length g).
      { simpl. eapply Forall_impl; [ | exact H3]. intros tx [Hg Hs]. split; auto. }
      simpl. constructor. }
    assert (forall tx id, P tx -> P (withId tx id)) as Hid.
    { intros tx id [Hg Hs]. split; [exact Hg | ].
      destruct Hs as [(raw & a & Hin & Ha & Hc) | [(c & n & t & a & Hw & Ha & Hc)
                                                  | (line & a & Hin & Ha & Hc)]].
      - left. exists raw, a. split; [exact Hin | ]. split; [exact Ha | ].
        apply (carriesSign_same a _ tx); [reflexivity | reflexivity | exact Hc].
      - right. left. exists c, n, t, a. split; [exact Hw | ]. split; [exact Ha | ].
        apply (carriesSign_same a _ tx); [reflexivity | reflexivity | exact Hc].
      - right. right. exists line, a. split; [exact Hin | ]. split; [exact Ha | ].
        apply (carriesSign_same a _ tx); [reflexivity | reflexivity | exact Hc]. }
    assert (forall l i,
               Forall P l ->
               Forall P (mapIndexed (fun tx index => withId tx (pdfId (now index) index))
                           l i)) as Hmap.
    { induction l as [ | tx l IH]; intros i F; simpl; [constructor | ].
      inversion F; subst. constructor; [apply Hid; assumption | apply IH; assumption]. }
    apply Hmap. apply Forall_forall. intros tx Hin.
    apply filter_In in Hin. destruct Hin as [Hin _].
    revert tx Hin. apply Forall_forall. exact Hrec.
  - unfold Csv.parseCSVTransaction. cbv zeta.
    destruct (toISOString _); [exact I | ].
    unfold csvSign. cbv zeta. cbn [tx_amount tx_type].
    split; [apply geZero_abs; apply orElse_zero_number | ].
    destruct (gtZero (parseFloat (Csv.getField row headers
                                    [$"credit"; $"deposit"; $"credit amount"]))) eqn:Hc.
    + assert (truthyStr (Csv.getField row headers
                           [$"credit"; $"deposit"; $"credit amount"]) = true) as Ht.
      { destruct (Csv.getField row headers [$"credit"; $"deposit"; $"credit amount"]);
          [vm_compute in Hc; discriminate | reflexivity]. }
      rewrite Ht. cbn [andb]. split; [reflexivity | ].
      unfold orElse. rewrite (gtZero_truthy _ Hc). apply abs_gtZero. exact Hc.
    + rewrite andb_false_r. split; reflexivity.
Qed.

(** ** Descriptions *)

Lemma truncate100_marker s :
  100 < length (truncate100 s) ->
  exists kept, length kept = 100 /\ truncate100 s = kept ++ $"...".
Proof.
  unfold truncate100, substring0. destruct (100 <? length s) eqn:E.
  - intros _. apply Nat.ltb_lt in E. exists (firstn 100 s).
    split; [rewrite length_firstn; lia | reflexivity].
  - apply Nat.ltb_ge in E. lia.
Qed.

(** C7, as the code has it.  Every transaction of the tabular strategy comes
    from a line of the input: when the cleaned description of the line is
    longer than 100 code units, the description is its first 100 code units
    followed by the three dots of the marker, and otherwise it is the cleaned
    description itself; so it has at most 103 code units.  The line-grouped
    and regex strategies do not shorten: the description is the whole cleaned
    text of the line, whatever its length ([Transaction] when the line-grouped
    strategy finds it empty); the last two parts exhibit descriptions of 150
    code units. *)
Theorem C7_description_bound :
  (forall (today : str) (lines : list str) (p : BankPattern) (st : RegexState),
      Forall (fun tx =>
                exists raw dateIndex amountIndex,
                  In raw lines /\
                  tx_description tx
                  = (if 100 <? length (tabularCleaned p raw dateIndex amountIndex)
                     then firstn 100 (tabularCleaned p raw dateIndex amountIndex)
                          ++ $"..."
                     else tabularCleaned p raw dateIndex amountIndex) /\
                  length (tx_description tx) <= 103)
             (fst (parseTabularFormat today lines p st))) /\
  (forall (today : str) (lines : list str) (p : BankPattern) (st : RegexState),
      Forall (fun tx =>
                exists current next third,
                  window lines current next third /\
                  tx_description tx
                  = (if truthyStr (groupedCleaned p current)
                     then groupedCleaned p current else $"Transaction"))
             (fst (parseLineByLineFormat today lines p st))) /\
  (forall (today : str) (text : str) (p : BankPattern) (st : RegexState),
      Forall (fun tx =>
                exists line,
                  In line (splitChar "010" text) /\
                  tx_description tx = regexCleaned p line)
             (fst (parseRegexFormat today text p st))) /\
  map (fun tx => length (tx_description tx))
      (fst (parseLineByLineFormat $"2026-11-02" [longLine; $"x"; $"y"]
              (BANK_PATTERNS generic) st0)) = [150] /\
  map (fun tx => length (tx_description tx))
      (fst (parseRegexFormat $"2026-11-02" longLine (BANK_PATTERNS generic) st0))
  = [150].
Proof.
  split; [ | split; [ | split; [ | split]]].
  - intros today lines p st. apply tabular_traced. intros raw acc st0 tx Hin E.
    destruct (tabularRow_traced today p raw acc st0)
      as [E' | (d0 & drest & a0 & arest & di & ai & _ & _ & Ht & E')].
    + rewrite E' in E. rewrite <- (app_nil_r acc) in E at 1.
      apply app_inv_head in E. discriminate.
    + rewrite E' in E. apply snoc_inj in E. subst tx.
      exists raw, di, ai. split; [exact Hin | ]. cbn [tx_description].
      rewrite orTransaction_truthy by exact Ht.
      split; [reflexivity | apply truncate100_length].
  - intros today lines p st. apply grouped_traced. intros c n t acc st0 tx Hw E.
    destruct (windowStep_traced today p c n t acc st0)
      as [E' | (d0 & drest & a0 & arest & _ & _ & E')].
    + rewrite E' in E. rewrite <- (app_nil_r acc) in E at 1.
      apply app_inv_head in E. discriminate.
    + rewrite E' in E. apply snoc_inj in E. subst tx.
      exists c, n, t. split; [exact Hw | reflexivity].
  - intros today text p st. apply regex_traced. intros line acc st0 tx Hin E.
    destruct (regexRow_traced today p line acc st0)
      as [E' | (d0 & drest & a0 & arest & _ & _ & Ht & E')].
    + rewrite E' in E. rewrite <- (app_nil_r acc) in E at 1.
      apply app_inv_head in E. discriminate.
    + rewrite E' in E. apply snoc_inj in E. subst tx.
      exists line. split; [exact Hin | ]. cbn [tx_description].
      apply orTransaction_truthy. exact Ht.
  - vm_compute. reflexivity.
  - vm_compute. reflexivity.
Qed.

(** C7 as stated fails: a tabular row whose description has 101 letters is
    emitted with a description of 103 code units. *)
Lemma C7_counterexample :
  ~ Forall (fun tx => length (tx_description tx) <= 100)
      (fst (parseTabularFormat $"2026-11-02" [line101] (BANK_PATTERNS generic) st0)).
Proof.
  intros H.
  apply (proj2 (Forall_map (fun tx => length (tx_description tx))
                           (fun n => n <= 100) _)) in H.
  assert (map (fun tx => length (tx_description tx))
            (fst (parseTabularFormat $"2026-11-02" [line101]
                    (BANK_PATTERNS generic) st0)) = [103]) as E
    by (vm_compute; reflexivity).
  rewrite E in H. inversion H; subst. lia.
Qed.

(** ** Categories *)

(** C10. The line-grouped strategy gives every transaction the category
    [other]; the tabular and regex strategies give the category that
    [categorizeTransaction] computes from the description. *)
Theorem C10_line_grouped_category_other :
  forall (today : str) (lines : list str) (text : str) (p : BankPattern)
         (st : RegexState),
    Forall (fun tx => tx_category tx = $"other")
           (fst (parseLineByLineFormat today lines p st)) /\
    Forall (fun tx => tx_category tx = categorizeTransaction (tx_description tx))
           (fst (parseTabularFormat today lines p st)) /\
    Forall (fun tx => tx_category tx = categorizeTransaction (tx_description tx))
           (fst (parseRegexFormat today text p st)).
Proof.
  intros today lines text p st. repeat split.
  - apply lineGrouped_emits. intros. reflexivity.
  - apply tabular_emits. intros. simpl.
    rewrite orTransaction_truthy by assumption. reflexivity.
  - apply regexSweep_emits. intros. simpl.
    rewrite orTransaction_truthy by assumption. reflexivity.
Qed.

(** The classifier would have answered [food] for a description that the
    line-grouped strategy files under [other]. *)
Example line_grouped_ignores_classifier :
  map (fun tx => (tx_description tx, tx_category tx,
                  categorizeTransaction (tx_description tx)))
      (fst (parseLineByLineFormat $"2026-11-02"
              [$"SWIGGY ORDER 01/04/2024 500.00"; $"x"; $"y"]
              (BANK_PATTERNS generic) st0))
  = [($"SWIGGY ORDER", $"other", $"food")].
Proof. vm_compute. reflexivity. Qed.

(** ** The choice of the amount in the tabular strategy *)

Lemma last_map {A B} (f : A -> B) : forall l d, last (map f l) (f d) = f (last l d).
Proof.
  induction l as [ | x l IH]; intros d; [reflexivity | ].
  simpl. destruct l as [ | y l]; [reflexivity | ]. apply (IH d).
Qed.

(** C5, as the code has it.  When the row of a line is emitted, its amount
    is the magnitude of the last amount-pattern match of the line if that
    match parses to a number other than zero, and otherwise the magnitude of
    the first match, which then is not zero. *)
Theorem C5_amount_is_last_nonzero_match :
  forall (today : str) (p : BankPattern) (raw : str)
         (acc : list ParsedTransaction) (st : RegexState)
         (a0 : str) (arest : list str) (tx : ParsedTransaction),
    nonEmpty (matchAll (amountPattern p) (trim raw)) = Some (a0, arest) ->
    fst (tabularRow today p raw acc st) = acc ++ [tx] ->
    let lastValue := parseAmount (last arest a0) in
    let chosen := if truthy lastValue then lastValue else parseAmount a0 in
    tx_amount tx = abs chosen /\ truthy chosen = true.
Proof.
  intros today p raw acc st a0 arest tx Ha Hrow lastValue chosen.
  destruct (tabularRow_cases today p raw acc st)
    as [E | (d0 & drest & a0' & arest' & description & Ed & Ea & Et & En & E)].
  - rewrite E in Hrow. apply (f_equal (@length _)) in Hrow.
    rewrite length_app in Hrow. simpl in Hrow. lia.
  - rewrite Ha in Ea. inversion Ea; subst a0' arest'. clear Ea.
    rewrite E in Hrow. apply app_inv_head in Hrow. inversion Hrow; subst tx. clear Hrow.
    simpl tx_amount.
    assert (pickAmount (parseAmount a0) (map parseAmount arest) = orElse chosen zero) as Hp.
    { unfold pickAmount, chosen, lastValue, orElse. rewrite last_map. reflexivity. }
    rewrite Hp in En |- *. unfold orElse in En |- *.
    destruct (truthy chosen); [split; reflexivity | discriminate].
Qed.

Lemma C5_witness :
  exists tx,
    fst (tabularRow $"2026-11-02" (BANK_PATTERNS generic) salaryLine [] st0) = [tx] /\
    tx_amount tx = Fin (70001 # 2) /\ truthy (Fin (70001 # 2)) = true.
Proof.
  eexists. split; [vm_compute; reflexivity | ].
  apply (C5_amount_is_last_nonzero_match $"2026-11-02" (BANK_PATTERNS generic)
           salaryLine [] st0 $"01" [$"04"; $"202"; $"4"; $"1,200.00"; $"35,000.50"]);
    vm_compute; reflexivity.
Defined.

(** C5 as stated fails: when the last amount of the line is zero the first
    match is taken, here the day of the date. *)
Lemma C5_counterexample :
  exists tx a0 arest,
    fst (tabularRow $"2026-11-02" (BANK_PATTERNS generic) zeroBalanceLine [] st0)
      = [tx] /\
    nonEmpty (matchAll (amountPattern (BANK_PATTERNS generic)) (trim zeroBalanceLine))
      = Some (a0, arest) /\
    last arest a0 = $"0.00" /\
    tx_amount tx = Fin 1 /\
    tx_amount tx <> abs (parseAmount (last arest a0)).
Proof.
  eexists. eexists. eexists.
  split; [vm_compute; reflexivity | ].
  split; [vm_compute; reflexivity | ].
  split; [vm_compute; reflexivity | ].
  split; [vm_compute; reflexivity | ].
  vm_compute. discriminate.
Qed.

(** ** The order of the strategies *)


(** A line-grouped candidate with amount zero makes its strategy the winner
    and is then dropped by the validity filter; the regex strategy is not
    called. *)
Example zero_candidate_wins_then_is_filtered :
  let r := fst (recognise $"2026-11-02" zeroFirstText generic st0) in
  fst r = [Tabular; LineGrouped] /\
  map tx_amount (snd r) = [Fin 0] /\
  transactions (fst (parseTransactionsFromText $"2026-11-02" (fun _ => 0%Z)
                       zeroFirstText generic st0)) = [].
Proof. vm_compute. repeat split. Qed.

(** ** The orchestrator [parsePDFBankStatement] *)

Lemma parsePDF_invalid_type pdfToText today now file config st :
  match file with
  | None => True
  | Some f => str_eqb (file_type f) pdfMime = false
  end ->
  parsePDFBankStatement pdfToText today now file config st =
  (Resolved (failed $"Invalid PDF file provided"), 0, st).
Proof.
  intros H. unfold parsePDFBankStatement, tryBlock, bind, ret.
  destruct file as [f | ]; [rewrite H | ]; reflexivity.
Qed.

Lemma parsePDF_oversize pdfToText today now f config st :
  str_eqb (file_type f) pdfMime = true ->
  (sizeLimit < file_size f)%Z ->
  parsePDFBankStatement pdfToText today now (Some f) config st =
  (Resolved (failed $"PDF file too large (max 50MB)"), 0, st).
Proof.
  intros Ht Hs. unfold parsePDFBankStatement, tryBlock, bind, ret.
  rewrite Ht. apply Z.ltb_lt in Hs. rewrite Hs. reflexivity.
Qed.

Lemma parsePDF_extraction_throws pdfToText today now f config st e :
  str_eqb (file_type f) pdfMime = true ->
  (file_size f <= sizeLimit)%Z ->
  pdfToText f = inl e ->
  parsePDFBankStatement pdfToText today now (Some f) config st =
  (Resolved (failed (thrownMessage e)), 1, st).
Proof.
  intros Ht Hs He. unfold parsePDFBankStatement, tryBlock, bind, ret.
  rewrite Ht. apply Z.ltb_ge in Hs. rewrite Hs, He. reflexivity.
Qed.

Lemma parsePDF_no_text pdfToText today now f config st text :
  str_eqb (file_type f) pdfMime = true ->
  (file_size f <= sizeLimit)%Z ->
  pdfToText f = inr text ->
  noText text = true ->
  parsePDFBankStatement pdfToText today now (Some f) config st =
  (Resolved (failed $"No text could be extracted from the PDF. The file might be scanned or corrupted."),
   1, st).
Proof.
  intros Ht Hs He Hn. unfold parsePDFBankStatement, tryBlock, bind, ret.
  rewrite Ht. apply Z.ltb_ge in Hs. rewrite Hs, He, Hn. reflexivity.
Qed.

Lemma parsePDF_text pdfToText today now f config st text :
  str_eqb (file_type f) pdfMime = true ->
  (file_size f <= sizeLimit)%Z ->
  pdfToText f = inr text ->
  noText text = false ->
  fst (parsePDFBankStatement pdfToText today now (Some f) config st) =
  let parsed :=
    fst (parseTransactionsFromText today now text (detectedBankType config text) st) in
  (Resolved {| transactions := transactions parsed;
               errors := if length (transactions parsed) =? 0
                         then errors parsed ++ [noTransactionsFound]
                         else errors parsed |}, 1).
Proof.
  intros Ht Hs He Hn.
  destruct (parseTransactionsFromText today now text (detectedBankType config text) st)
    as [parsed st'] eqn:E.
  unfold parsePDFBankStatement, tryBlock, bind, ret.
  rewrite Ht. apply Z.ltb_ge in Hs. rewrite Hs, He, Hn. cbn [negb]. cbv beta iota.
  rewrite E. reflexivity.
Qed.

(** The promise of [parsePDFBankStatement] is always fulfilled. *)
Lemma parsePDF_resolves pdfToText today now file config st :
  exists result calls,
    fst (parsePDFBankStatement pdfToText today now file config st)
    = (Resolved result, calls).
Proof.
  unfold parsePDFBankStatement, bind.
  destruct (tryBlock pdfToText today now file config st) as [[[e | r] calls] st'];
    simpl; eauto.
Qed.

(** C4, as the code has it.  For a file that is missing or not of type
    [application/pdf], for a file above 50MB, and for a file whose extracted
    text is empty or blank, the promise is fulfilled, not rejected: the [catch]
    clause returns no transaction and one error-severity entry that carries
    the message of the failure.  In the first two cases the text extraction
    is not called. *)
Theorem C4_failures_are_reported_not_thrown :
  forall (pdfToText : File -> Thrown + str) (today : str) (now : nat -> Z)
         (config : PDFParseConfig) (st : RegexState),
    (forall file : option File,
        match file with
        | None => True
        | Some f => str_eqb (file_type f) pdfMime = false
        end ->
        fst (parsePDFBankStatement pdfToText today now file config st)
        = (Resolved (failed $"Invalid PDF file provided"), 0)) /\
    (forall f : File,
        str_eqb (file_type f) pdfMime = true ->
        (sizeLimit < file_size f)%Z ->
        fst (parsePDFBankStatement pdfToText today now (Some f) config st)
        = (Resolved (failed $"PDF file too large (max 50MB)"), 0)) /\
    (forall (f : File) (text : str),
        str_eqb (file_type f) pdfMime = true ->
        (file_size f <= sizeLimit)%Z ->
        pdfToText f = inr text ->
        noText text = true ->
        fst (parsePDFBankStatement pdfToText today now (Some f) config st)
        = (Resolved (failed $"No text could be extracted from the PDF. The file might be scanned or corrupted."), 1)).
Proof.
  intros pdfToText today now config st. repeat split.
  - intros file H. rewrite parsePDF_invalid_type by assumption. reflexivity.
  - intros f Ht Hs. rewrite parsePDF_oversize by assumption. reflexivity.
  - intros f text Ht Hs He Hn.
    rewrite (parsePDF_no_text pdfToText today now f config st text) by assumption.
    reflexivity.
Qed.

Lemma C4_witness :
  fst (parsePDFBankStatement (fun _ => inr $"   ") $"2026-11-02" (fun _ => 0%Z)
         (Some csvFile) defaultConfig st0)
  = (Resolved (failed $"Invalid PDF file provided"), 0) /\
  fst (parsePDFBankStatement (fun _ => inr $"   ") $"2026-11-02" (fun _ => 0%Z)
         (Some hugePdf) defaultConfig st0)
  = (Resolved (failed $"PDF file too large (max 50MB)"), 0) /\
  fst (parsePDFBankStatement (fun _ => inr $"   ") $"2026-11-02" (fun _ => 0%Z)
         (Some scannedPdf) defaultConfig st0)
  = (Resolved (failed $"No text could be extracted from the PDF. The file might be scanned or corrupted."), 1).
Proof.
  destruct (C4_failures_are_reported_not_thrown
              (fun _ => inr $"   ") $"2026-11-02" (fun _ => 0%Z) defaultConfig st0)
    as (H1 & H2 & H3).
  split; [ | split].
  - apply (H1 (Some csvFile)). reflexivity.
  - apply (H2 hugePdf); reflexivity.
  - apply (H3 scannedPdf $"   "); try reflexivity. vm_compute. discriminate.
Defined.

(** C4 as stated fails: for a file that is not a PDF the promise is
    fulfilled with a result object, it is not rejected. *)
Lemma C4_counterexample :
  ~ (exists reason calls,
        fst (parsePDFBankStatement (fun _ => inr $"   ") $"2026-11-02" (fun _ => 0%Z)
               (Some csvFile) defaultConfig st0)
        = (Rejected reason, calls)).
Proof. intros (reason & calls & H). vm_compute in H. discriminate. Qed.

(** C3, as the code has it.  When no transaction survives,
    [parseTransactionsFromText] returns the single warning that no valid
    transaction could be extracted, and [parsePDFBankStatement] then adds an
    error-severity entry of its own: the report has no transaction and the
    two entries, the warning first. *)
Theorem C3_empty_result_warning_then_error :
  forall (pdfToText : File -> Thrown + str) (today : str) (now : nat -> Z)
         (f : File) (config : PDFParseConfig) (text : str) (st : RegexState),
    str_eqb (file_type f) pdfMime = true ->
    (file_size f <= sizeLimit)%Z ->
    pdfToText f = inr text ->
    noText text = false ->
    transactions (fst (parseTransactionsFromText today now text
                         (detectedBankType config text) st)) = [] ->
    errors (fst (parseTransactionsFromText today now text
                   (detectedBankType config text) st)) = [noValidTransactions] /\
    fst (parsePDFBankStatement pdfToText today now (Some f) config st)
    = (Resolved {| transactions := [];
                   errors := [noValidTransactions; noTransactionsFound] |}, 1) /\
    err_severity noValidTransactions = warning /\
    err_severity noTransactionsFound = error.
Proof.
  intros pdfToText today now f config text st Ht Hs He Hn Hempty.
  assert (errors (fst (parseTransactionsFromText today now text
                         (detectedBankType config text) st)) = [noValidTransactions])
    as Herr.
  { rewrite parseTransactionsFromText_run in Hempty |- *. cbv zeta in *.
    simpl in Hempty |- *. rewrite Hempty. reflexivity. }
  split; [exact Herr | ]. split; [ | split; reflexivity].
  rewrite (parsePDF_text pdfToText today now f config st text) by assumption.
  cbv zeta. rewrite Hempty, Herr. reflexivity.
Qed.

Lemma C3_witness :
  fst (parsePDFBankStatement (fun _ => inr $"hello world") $"2026-11-02"
         (fun _ => 0%Z) (Some smallPdf) defaultConfig st0)
  = (Resolved {| transactions := [];
                 errors := [noValidTransactions; noTransactionsFound] |}, 1).
Proof.
  apply (C3_empty_result_warning_then_error
           (fun _ => inr $"hello world") $"2026-11-02" (fun _ => 0%Z) smallPdf
           defaultConfig $"hello world" st0).
  - reflexivity.
  - vm_compute. discriminate.
  - reflexivity.
  - vm_compute. reflexivity.
  - vm_compute. reflexivity.
Defined.

(** C3 as stated fails: on a text without any transaction the report of the
    import does not hold exactly one entry of warning severity; an entry of
    error severity follows the warning. *)
Lemma C3_counterexample :
  exists result,
    fst (parsePDFBankStatement (fun _ => inr $"hello world") $"2026-11-02"
           (fun _ => 0%Z) (Some smallPdf) defaultConfig st0)
    = (Resolved result, 1) /\
    transactions result = [] /\
    map err_severity (errors result) = [warning; error] /\
    map err_severity (errors result) <> [warning].
Proof.
  eexists. split; [vm_compute; reflexivity | ].
  split; [reflexivity | ]. split; [reflexivity | ]. simpl. discriminate.
Qed.

(** ** Running the import twice *)

Section Idempotence.

Variable toISOString : str -> Thrown + str.

Lemma parseCSVTransaction_content now1 rnd1 now2 rnd2 row headers :
  match Csv.parseCSVTransaction toISOString now1 rnd1 row headers,
        Csv.parseCSVTransaction toISOString now2 rnd2 row headers with
  | inr tx1, inr tx2 => content tx1 = content tx2
  | inl e1, inl e2 => e1 = e2
  | _, _ => False
  end.
Proof.
  unfold Csv.parseCSVTransaction. destruct (toISOString _); reflexivity.
Qed.

Lemma csvRows_content now1 rnd1 now2 rnd2 headers :
  forall lines i acc1 acc2,
    map content (transactions acc1) = map content (transactions acc2) ->
    map content (transactions (Csv.csvRows toISOString now1 rnd1 headers lines i acc1)) =
    map content (transactions (Csv.csvRows toISOString now2 rnd2 headers lines i acc2)).
Proof.
  induction lines as [ | line lines IH]; intros i acc1 acc2 Hacc; simpl.
  - exact Hacc.
  - apply IH.
    destruct (negb (length (map Csv.cleanCell (splitChar "," line)) =? length headers));
      [exact Hacc | ].
    pose proof (parseCSVTransaction_content (now1 i) (rnd1 i) (now2 i) (rnd2 i)
                  (map Csv.cleanCell (splitChar "," line)) headers) as H.
    destruct (Csv.parseCSVTransaction toISOString (now1 i) (rnd1 i) _ headers)
      as [e1 | tx1];
      destruct (Csv.parseCSVTransaction toISOString (now2 i) (rnd2 i) _ headers)
      as [e2 | tx2]; try contradiction.
    + exact Hacc.
    + assert (tx_amount tx1 = tx_amount tx2) as Ha
        by (apply (f_equal (fun c => snd (fst (fst c)))) in H; exact H).
      rewrite Ha. destruct (gtZero (tx_amount tx2)); simpl; [ | exact Hacc].
      rewrite !map_app. simpl. rewrite Hacc, H. reflexivity.
Qed.

(** C9. Two runs of the import on the same content, with the same value of
    today's date, return transactions with the same (date, description,
    amount, direction, category) tuples, in the same order and hence as
    multisets, whatever the clock readings and random draws that go into the
    ids and whatever [lastIndex] values the shared pattern objects hold at
    the start of each run.  This holds for the PDF import, where the
    extraction yields the same text both times, and for the CSV import. *)
Theorem C9_import_is_idempotent :
  forall (pdfToText : File -> Thrown + str) (today : str)
         (now1 now2 : nat -> Z) (rnd1 rnd2 : nat -> str)
         (file : option File) (config : PDFParseConfig)
         (st1 st2 : RegexState) (csv : str),
    (exists result1 result2 calls,
        fst (parsePDFBankStatement pdfToText today now1 file config st1)
        = (Resolved result1, calls) /\
        fst (parsePDFBankStatement pdfToText today now2 file config st2)
        = (Resolved result2, calls) /\
        map content (transactions result1) = map content (transactions result2) /\
        Permutation (map content (transactions result1))
                    (map content (transactions result2))) /\
    map content (transactions (Csv.parseCSVFile toISOString now1 rnd1 csv)) =
    map content (transactions (Csv.parseCSVFile toISOString now2 rnd2 csv)) /\
    Permutation
      (map content (transactions (Csv.parseCSVFile toISOString now1 rnd1 csv)))
      (map content (transactions (Csv.parseCSVFile toISOString now2 rnd2 csv))).
Proof.
  intros pdfToText today now1 now2 rnd1 rnd2 file config st1 st2 csv.
  assert (map content (transactions (Csv.parseCSVFile toISOString now1 rnd1 csv)) =
          map content (transactions (Csv.parseCSVFile toISOString now2 rnd2 csv)))
    as Hcsv.
  { unfold Csv.parseCSVFile.
    destruct (filter truthyStr (map trim (splitChar "010" csv))) as [ | h [ | d ds]];
      try reflexivity.
    apply csvRows_content. reflexivity. }
  split; [ | split; [exact Hcsv | rewrite Hcsv; apply Permutation_refl]].
  assert (forall r1 r2 : ParseResult,
             map content (transactions r1) = map content (transactions r2) ->
             forall calls : nat,
             exists (result1 result2 : ParseResult) (calls' : nat),
               (Resolved r1, calls) = (Resolved result1, calls') /\
               (Resolved r2, calls) = (Resolved result2, calls') /\
               map content (transactions result1) = map content (transactions result2) /\
               Permutation (map content (transactions result1))
                           (map content (transactions result2))) as Hfin.
  { intros r1 r2 H calls. exists r1, r2, calls.
    repeat split; [exact H | rewrite H; apply Permutation_refl]. }
  destruct file as [f | ].
  2:{ rewrite !parsePDF_invalid_type by exact I. apply Hfin. reflexivity. }
  destruct (str_eqb (file_type f) pdfMime) eqn:Ht.
  2:{ rewrite !parsePDF_invalid_type by exact Ht. apply Hfin. reflexivity. }
  destruct (Z.ltb_spec sizeLimit (file_size f)) as [Hs | Hs].
  { rewrite !parsePDF_oversize by assumption. apply Hfin. reflexivity. }
  destruct (pdfToText f) as [e | text] eqn:He.
  { rewrite !(parsePDF_extraction_throws pdfToText today _ f config _ e)
      by assumption.
    apply Hfin. reflexivity. }
  destruct (noText text) eqn:Hn.
  { rewrite !(parsePDF_no_text pdfToText today _ f config _ text) by assumption.
    apply Hfin. reflexivity. }
  rewrite !(parsePDF_text pdfToText today _ f config _ text) by assumption.
  cbv zeta. apply Hfin. simpl transactions.
  rewrite !parseTransactionsFromText_content.
  rewrite (recognise_indep (detectedBankType config text) today today text st1 st2).
  reflexivity.
Qed.

End Idempotence.

(** ** The CSV scenario *)

(** C8, as the code has it.  With a date parser that reads the text
    01/04/2024, the file of the scenario yields exactly one transaction, a
    debit of 500 with description ATM WDL, and no error; its category is
    [Other], because the keyword table of the CSV import has no entry for
    cash withdrawals. *)
Theorem C8_csv_scenario :
  forall (toISOString : str -> Thrown + str) (now : nat -> Z) (rnd : nat -> str)
         (iso : str),
    toISOString $"01/04/2024" = inr iso ->
    Csv.parseCSVFile toISOString now rnd scenarioCsv =
    {| transactions :=
         [ {| tx_id := $"parsed_" ++ intToString (now 1) ++ $"_" ++ rnd 1;
              tx_date := iso;
              tx_description := $"ATM WDL";
              tx_amount := Fin 500;
              tx_type := debit;
              tx_category := $"Other";
              tx_balance := Some (Fin 1200);
              tx_reference := None;
              tx_isReconciled := false;
              tx_confidence := (9 # 10)%Q |} ];
       errors := [] |}.
Proof.
  intros toISOString now rnd iso H.
  vm_compute in H. vm_compute. rewrite H. reflexivity.
Qed.

Lemma C8_witness :
  map (fun tx => (tx_type tx, tx_amount tx, tx_category tx))
      (transactions (Csv.parseCSVFile isoMidnight (fun _ => 0%Z) (fun _ => $"k3j9x0a1b")
                       scenarioCsv))
  = [(debit, Fin 500, $"Other")].
Proof.
  rewrite (C8_csv_scenario isoMidnight (fun _ => 0%Z) (fun _ => $"k3j9x0a1b")
             ($"01/04/2024" ++ $"T00:00:00.000Z")).
  - reflexivity.
  - reflexivity.
Defined.

(** C8 as stated fails: the category of the transaction is not [cash]. *)
Lemma C8_counterexample :
  map (fun tx => (tx_type tx, tx_amount tx, tx_category tx))
      (transactions (Csv.parseCSVFile isoMidnight (fun _ => 0%Z) (fun _ => $"k3j9x0a1b")
                       scenarioCsv))
  <> [(debit, Fin 500, $"cash")].
Proof. vm_compute. discriminate. Qed.

(* ===================================================================== *)
(** * Further properties of the code *)
(* ===================================================================== *)

(** ** Substrings and letter case *)

Module TextFacts.
Import JS.

Lemma toLowerCase_app a b : toLowerCase (a ++ b) = toLowerCase a ++ toLowerCase b.
Proof. apply map_app. Qed.

Lemma startsWith_app sub : forall post, startsWith sub (sub ++ post) = true.
Proof.
  induction sub as [ | c sub IH]; intros post; simpl; [reflexivity | ].
  rewrite Ascii.eqb_refl. apply IH.
Qed.

Lemma includes_unfold s sub :
  includes s sub =
  startsWith sub s || match s with [] => false | _ :: s' => includes s' sub end.
Proof. destruct s; reflexivity. Qed.

Lemma includes_app sub : forall pre post, includes (pre ++ sub ++ post) sub = true.
Proof.
  induction pre as [ | c pre IH]; intros post.
  - simpl app. rewrite includes_unfold, startsWith_app. reflexivity.
  - change ((c :: pre) ++ sub ++ post) with (c :: (pre ++ sub ++ post)).
    rewrite includes_unfold, IH. apply orb_true_r.
Qed.

(** A word occurs in a text whatever its letter case. *)
Lemma includes_lower pre w post kw :
  toLowerCase w = kw -> includes (toLowerCase (pre ++ w ++ post)) kw = true.
Proof.
  intros <-. rewrite !toLowerCase_app. apply includes_app.
Qed.

Lemma startsWith_includes sub s : startsWith sub s = true -> includes s sub = true.
Proof. intros H. rewrite includes_unfold, H. reflexivity. Qed.

End TextFacts.

Module ClassifierFacts.
Import JS Regex Num Model PdfParser.
Import Samples RegexFacts NumFacts PatternFacts StrategyFacts Independence Emission.
Import TextFacts Notions.

(** ** Bank detection and categories *)

(** X1. The name HDFC, in any letter case and anywhere in the text, selects the
    hdfc profile, whatever other bank names the text holds. *)
Theorem detectBankType_hdfc_anywhere :
  forall pre w post : str,
    toLowerCase w = $"hdfc" ->
    detectBankType (pre ++ w ++ post) = hdfc.
Proof.
  intros pre w post H. unfold detectBankType.
  rewrite (includes_lower pre w post _ H). reflexivity.
Qed.

Lemma detectBankType_hdfc_anywhere_witness :
  detectBankType ($"State Bank of India / " ++ $"HdFc" ++ $" Bank statement") = hdfc.
Proof.
  apply (detectBankType_hdfc_anywhere $"State Bank of India / " $"HdFc"
           $" Bank statement").
  reflexivity.
Defined.

Lemma firstRule_range rules desc :
  In (firstRule rules desc) ($"other" :: map snd rules).
Proof.
  induction rules as [ | [kws cat] rules IH]; simpl; [auto | ].
  destruct (existsb (includes desc) kws); [auto | ].
  destruct IH as [IH | IH]; auto.
Qed.

(** X2. The classifier of the PDF strategies answers one of eleven labels. *)
Theorem categorizeTransaction_range :
  forall description : str, In (categorizeTransaction description) pdfCategories.
Proof.
  intros description. unfold categorizeTransaction.
  pose proof (firstRule_range categoryRules (toLowerCase description)) as H.
  remember (firstRule categoryRules (toLowerCase description)) as c eqn:E. clear E.
  unfold pdfCategories. simpl in H.
  repeat (destruct H as [H | H]; [subst c; simpl; tauto | ]).
  contradiction.
Qed.

(** X3. An income word, in any letter case and anywhere in the description,
    makes the category income, whatever else the description says. *)
Theorem categorizeTransaction_income_first :
  forall (pre w post kw : str),
    In kw incomeWords ->
    toLowerCase w = kw ->
    categorizeTransaction (pre ++ w ++ post) = $"income".
Proof.
  intros pre w post kw Hin Hw.
  pose proof (includes_lower pre w post _ Hw) as Hinc.
  unfold categorizeTransaction, categoryRules.
  remember (toLowerCase (pre ++ w ++ post)) as d eqn:E. clear E.
  unfold incomeWords in Hin. cbv [lit list_ascii_of_string In] in Hin |- *.
  cbn [firstRule existsb].
  destruct Hin as [<- | [<- | [<- | [<- | [<- | [<- | [<- | []]]]]]]];
    rewrite Hinc; rewrite ?orb_true_r; cbn [orb];
    repeat match goal with
           | |- (if ?b then _ else _) = _ => destruct b; try reflexivity
           end;
    reflexivity.
Qed.

Lemma categorizeTransaction_income_first_witness :
  categorizeTransaction ($"" ++ $"CREDIT" ++ $" CARD BILL PAYMENT") = $"income".
Proof.
  apply (categorizeTransaction_income_first $"" $"CREDIT" $" CARD BILL PAYMENT"
           $"credit").
  - simpl. auto.
  - reflexivity.
Defined.

End ClassifierFacts.

Module DateFacts.
Import JS Regex Num Model PdfParser.
Import Samples RegexFacts NumFacts PatternFacts TextFacts.

Lemma filter_keep_all {A} (f : A -> bool) (l : list A) :
  Forall (fun x => f x = true) l -> filter f l = l.
Proof.
  induction 1 as [ | x l Hx _ IH]; simpl; [reflexivity | ].
  rewrite Hx, IH. reflexivity.
Qed.

Lemma cleaned_filter dateStr :
  replaceG (Cls (fun c => negb (isDigit c || isDateSep c))) [] dateStr =
  filter (fun c => isDigit c || isDateSep c) dateStr.
Proof.
  rewrite replaceG_cls. apply filter_ext. intros c. apply negb_involutive.
Qed.

Lemma standardizeDate_assembles today d s1 m s2 y :
  digits d -> digits m -> digits y ->
  isDateSep s1 = true -> isDateSep s2 = true ->
  standardizeDate today (d ++ s1 :: m ++ s2 :: y) =
  (if length y =? 2 then $"20" ++ y else y)
    ++ $"-" ++ padStart0 2 m ++ $"-" ++ padStart0 2 d.
Proof.
  intros Fd Fm Fy H1 H2. unfold standardizeDate. rewrite cleaned_filter.
  assert (forall s, digits s ->
            Forall (fun c => (isDigit c || isDateSep c) = true) s) as Hd.
  { intros s. apply Forall_impl. intros c Hc. rewrite Hc. reflexivity. }
  rewrite filter_keep_all.
  - rewrite split_cls.
    rewrite splitBy_three by (try apply digits_not_sep; assumption).
    reflexivity.
  - apply Forall_app. split; [auto | ].
    constructor; [rewrite H1; apply orb_true_r | ].
    apply Forall_app. split; [auto | ].
    constructor; [rewrite H2; apply orb_true_r | auto].
Qed.

Lemma length_padStart0_2 s : 1 <= length s <= 2 -> length (padStart0 2 s) = 2.
Proof.
  intros H. unfold padStart0. rewrite length_app, repeat_length. lia.
Qed.

(** X4. A day and a month of one or two digits and a year of two or four digits,
    separated by [/] or [-], are rewritten to the ten characters YYYY-MM-DD:
    the year comes first, a two-digit year gets the century 20, and day and
    month are padded with a zero. *)
Theorem standardizeDate_iso_format :
  forall (today d m y : str) (s1 s2 : ascii),
    digits d -> digits m -> digits y ->
    isDateSep s1 = true -> isDateSep s2 = true ->
    1 <= length d <= 2 -> 1 <= length m <= 2 ->
    length y = 2 \/ length y = 4 ->
    standardizeDate today (d ++ s1 :: m ++ s2 :: y) =
    (if length y =? 2 then $"20" ++ y else y)
      ++ $"-" ++ padStart0 2 m ++ $"-" ++ padStart0 2 d /\
    length (standardizeDate today (d ++ s1 :: m ++ s2 :: y)) = 10.
Proof.
  intros today d m y s1 s2 Fd Fm Fy H1 H2 Ld Lm Ly.
  rewrite (standardizeDate_assembles today d s1 m s2 y) by assumption.
  split; [reflexivity | ].
  rewrite !length_app, !length_padStart0_2 by assumption.
  change (length $"-") with 1.
  destruct Ly as [Ly | Ly]; rewrite Ly; simpl; [ | lia].
  rewrite Ly. reflexivity.
Qed.

Lemma standardizeDate_iso_format_witness :
  standardizeDate $"2026-11-02" ($"7" ++ "/"%char :: $"12" ++ "-"%char :: $"24")
  = $"2024-12-07" /\
  length (standardizeDate $"2026-11-02" ($"7" ++ "/"%char :: $"12" ++ "-"%char :: $"24"))
  = 10.
Proof.
  apply (standardizeDate_iso_format $"2026-11-02" $"7" $"12" $"24" "/"%char "-"%char);
    try reflexivity; try (simpl; lia);
    try (repeat constructor).
Defined.

(** *** When the helper falls back to today's date *)

Lemma length_splitBy p : forall s piece,
  length (splitBy p piece s) = S (length (filter p s)).
Proof.
  induction s as [ | c s IH]; intros piece; simpl; [reflexivity | ].
  destruct (p c); simpl; rewrite IH; reflexivity.
Qed.

Lemma filter_filter_sep dateStr :
  filter isDateSep (filter (fun c => isDigit c || isDateSep c) dateStr) =
  filter isDateSep dateStr.
Proof.
  induction dateStr as [ | c s IH]; simpl; [reflexivity | ].
  destruct (isDateSep c) eqn:E.
  - rewrite orb_true_r. simpl. rewrite E, IH. reflexivity.
  - rewrite orb_false_r. destruct (isDigit c); simpl; [rewrite E | ]; exact IH.
Qed.

Lemma parts_length dateStr :
  length (split (Cls isDateSep)
            (replaceG (Cls (fun c => negb (isDigit c || isDateSep c))) [] dateStr))
  = S (length (filter isDateSep dateStr)).
Proof.
  rewrite cleaned_filter, split_cls, length_splitBy, filter_filter_sep. reflexivity.
Qed.

(** X5. [standardizeDate] answers today's date exactly for the texts whose number
    of [/] and [-] characters is not two; with two of them its answer is
    assembled from the text and does not depend on today's date. *)
Theorem standardizeDate_fallback_iff_not_two_separators :
  forall (today dateStr : str),
    (length (filter isDateSep dateStr) <> 2 ->
     standardizeDate today dateStr = today) /\
    (length (filter isDateSep dateStr) = 2 ->
     forall today' : str,
       standardizeDate today' dateStr = standardizeDate today dateStr).
Proof.
  intros today dateStr. pose proof (parts_length dateStr) as HL.
  unfold standardizeDate.
  destruct (split (Cls isDateSep) _) as [ | a [ | b [ | c [ | e rest]]]];
    simpl in HL; split; intros H; try reflexivity; lia.
Qed.

Lemma standardizeDate_fallback_witness :
  standardizeDate $"2026-11-02" $"12 April 2024" = $"2026-11-02" /\
  (forall today' : str,
      standardizeDate today' $"ab/cd-ef" = standardizeDate $"2026-11-02" $"ab/cd-ef").
Proof.
  split.
  - apply (proj1 (standardizeDate_fallback_iff_not_two_separators
                    $"2026-11-02" $"12 April 2024")).
    intros H. vm_compute in H. discriminate.
  - apply (proj2 (standardizeDate_fallback_iff_not_two_separators
                    $"2026-11-02" $"ab/cd-ef")).
    vm_compute. reflexivity.
Defined.

End DateFacts.

Module PipelineFacts.
Import JS Regex Num Model PdfParser.
Import Samples RegexFacts NumFacts PatternFacts StrategyFacts Independence Emission.
Import TextFacts Notions.

(** ** How many transactions a strategy can emit *)

Lemma tabularRow_length today p raw acc st :
  length (fst (tabularRow today p raw acc st))
  <= length acc + (if dataLine raw then 1 else 0).
Proof.
  unfold dataLine. destruct (10 <=? length (trim raw)) eqn:E.
  - destruct (tabularRow_cases today p raw acc st)
      as [-> | (d0 & drest & a0 & arest & description & _ & _ & _ & _ & ->)].
    + lia.
    + rewrite length_app. simpl. lia.
  - unfold tabularRow.
    assert ((length (trim raw) <? 10) = true) as ->
      by (apply Nat.ltb_lt; apply Nat.leb_gt in E; exact E).
    rewrite orb_true_r. simpl. lia.
Qed.

Lemma forEachM_tabular_length today p : forall rows acc st,
  length (fst (forEachM (tabularRow today p) rows acc st))
  <= length acc + length (filter dataLine rows).
Proof.
  induction rows as [ | raw rows IH]; intros acc st; simpl.
  - lia.
  - unfold bind. pose proof (tabularRow_length today p raw acc st) as H.
    destruct (tabularRow today p raw acc st) as [acc' st']. simpl in H.
    specialize (IH acc' st'). destruct (dataLine raw); simpl; lia.
Qed.

Lemma filter_skipn_length {A} (f : A -> bool) : forall n (l : list A),
  length (filter f (skipn n l)) <= length (filter f l).
Proof.
  induction n as [ | n IH]; intros l; simpl; [lia | ].
  destruct l as [ | x l]; simpl; [lia | ].
  specialize (IH l). destruct (f x); simpl; lia.
Qed.

Lemma regexRow_length today p line acc st :
  length (fst (regexRow today p line acc st)) <= S (length acc).
Proof.
  destruct (regexRow_cases today p line acc st)
    as [-> | (d0 & drest & a0 & arest & description & _ & _ & _ & _ & ->)].
  - lia.
  - rewrite length_app. simpl. lia.
Qed.

Lemma forEachM_regex_length today p : forall rows acc st,
  length (fst (forEachM (regexRow today p) rows acc st))
  <= length acc + length rows.
Proof.
  induction rows as [ | line rows IH]; intros acc st; simpl.
  - lia.
  - unfold bind. pose proof (regexRow_length today p line acc st) as H.
    destruct (regexRow today p line acc st) as [acc' st']. simpl in H.
    specialize (IH acc' st'). lia.
Qed.

Lemma windowStep_length today p c n t acc st :
  length (fst (windowStep today p c n t acc st)) <= S (length acc).
Proof.
  destruct (windowStep_cases today p c n t acc st)
    as [-> | (d0 & drest & a0 & arest & description & _ & _ & ->)].
  - lia.
  - rewrite length_app. simpl. lia.
Qed.

Lemma lineWindows_length today p : forall lines acc st,
  length (fst (lineWindows today p lines acc st))
  <= length acc + (length lines - 2).
Proof.
  induction lines as [ | c rest IH]; intros acc st.
  - simpl. lia.
  - simpl lineWindows. destruct rest as [ | n [ | t rest']]; try (simpl; lia).
    unfold bind. pose proof (windowStep_length today p c n t acc st) as H.
    destruct (windowStep today p c n t acc st) as [acc' st']. simpl in H.
    specialize (IH acc' st'). simpl in IH |- *. lia.
Qed.

(** X6. A strategy emits at most one transaction per line it looks at: the
    tabular strategy at most one per line of ten or more characters, the
    line-grouped strategy at most one per window of three lines (none for
    fewer than three lines), the regex strategy at most one per non-blank
    line of the text. *)
Theorem strategy_output_bounds :
  forall (today : str) (lines : list str) (text : str) (p : BankPattern)
         (st : RegexState),
    length (fst (parseTabularFormat today lines p st))
      <= length (filter dataLine lines) /\
    length (fst (parseLineByLineFormat today lines p st)) <= length lines - 2 /\
    length (fst (parseRegexFormat today text p st)) <= length (splitLines text).
Proof.
  intros today lines text p st. repeat split.
  - unfold parseTabularFormat, bind.
    match goal with
    | |- length (fst (let (_, _) := ?c in _)) <= _ => destruct c as [h st']
    end.
    etransitivity; [apply forEachM_tabular_length | ].
    simpl. apply filter_skipn_length.
  - unfold parseLineByLineFormat.
    etransitivity; [apply lineWindows_length | ]. simpl. lia.
  - unfold parseRegexFormat.
    etransitivity; [apply forEachM_regex_length | ]. simpl.
    unfold splitLines. apply Nat.eq_le_incl. f_equal. apply filter_ext.
    intros line. destruct (trim line); reflexivity.
Qed.

(** ** The winner of the strategy loop *)

Lemma recognise_one_strategy today text bank st :
  exists s st',
    snd (fst (recognise today text bank st)) =
    fst (runStrategy today (BANK_PATTERNS bank) (splitLines text) text s st').
Proof.
  unfold recognise, strategies. simpl strategyLoop. unfold bind, runStrategy, ret.
  destruct (parseTabularFormat today (splitLines text) (BANK_PATTERNS bank) st)
    as [t s1] eqn:E1.
  destruct (0 <? length t).
  { exists Tabular, st. simpl. rewrite E1. reflexivity. }
  destruct (parseLineByLineFormat today (splitLines text) (BANK_PATTERNS bank) s1)
    as [l s2] eqn:E2.
  destruct (0 <? length l).
  { exists LineGrouped, s1. simpl. rewrite E2. reflexivity. }
  destruct (parseRegexFormat today text (BANK_PATTERNS bank) s2) as [g s3] eqn:E3.
  exists RegexSweep, s2. simpl. rewrite E3. destruct g; reflexivity.
Qed.

Lemma Forall_mapIndexed_filter (Q : ParsedTransaction -> Prop) (f : nat -> str) :
  (forall tx id, Q tx -> Q (withId tx id)) ->
  forall l i,
    Forall Q l ->
    Forall Q (mapIndexed (fun tx index => withId tx (f index)) (filter isValid l) i).
Proof.
  intros Hid. induction l as [ | tx l IH]; intros i F; simpl; [constructor | ].
  inversion F; subst. destruct (isValid tx); simpl; auto.
Qed.

(** X7. All transactions of one result come from a single strategy, so they
    carry one and the same confidence, 0.8, 0.7 or 0.6; none is marked as
    reconciled and none has a balance or a reference. *)
Theorem result_has_uniform_confidence :
  forall (today : str) (now : nat -> Z) (text : str) (bank : BankType)
         (st : RegexState),
    exists c : Q,
      In c [(8 # 10)%Q; (7 # 10)%Q; (6 # 10)%Q] /\
      Forall (fun tx => tx_confidence tx = c /\ tx_isReconciled tx = false /\
                        tx_balance tx = None /\ tx_reference tx = None)
             (transactions (fst (parseTransactionsFromText today now text bank st))).
Proof.
  intros today now text bank st.
  rewrite parseTransactionsFromText_run. cbv zeta. simpl transactions.
  destruct (recognise_one_strategy today text bank st) as (s & st' & E).
  rewrite E. destruct s; simpl runStrategy.
  - exists (8 # 10)%Q. split; [simpl; auto | ].
    apply (Forall_mapIndexed_filter _ (fun index => pdfId (now index) index));
      [intros tx id H; exact H | ].
    apply tabular_emits. intros. simpl. auto.
  - exists (7 # 10)%Q. split; [simpl; auto | ].
    apply (Forall_mapIndexed_filter _ (fun index => pdfId (now index) index));
      [intros tx id H; exact H | ].
    apply lineGrouped_emits. intros. simpl. auto.
  - exists (6 # 10)%Q. split; [simpl; auto | ].
    apply (Forall_mapIndexed_filter _ (fun index => pdfId (now index) index));
      [intros tx id H; exact H | ].
    apply regexSweep_emits. intros. simpl. auto.
Qed.

(** ** Amounts of the returned transactions *)

Lemma gtZero_of_ge_ne x : geZero x = true -> neZero x = true -> gtZero x = true.
Proof.
  destruct x as [ | | | q]; simpl; try congruence.
  unfold neZero. simpl. intros Hge Hne.
  destruct (Qle_bool q 0) eqn:Hle; [ | reflexivity].
  apply Qle_bool_iff in Hge. apply Qle_bool_iff in Hle.
  assert (q == 0)%Q as Heq by (apply Qle_antisym; assumption).
  apply Qeq_bool_iff in Heq. rewrite Heq in Hne. discriminate.
Qed.

(** X8. Every transaction returned by [parseTransactionsFromText], under every
    bank profile, has an amount strictly greater than zero: candidates with
    amount zero do not pass the filter. *)
Theorem returned_amounts_positive :
  forall (today : str) (now : nat -> Z) (text : str) (bank : BankType)
         (st : RegexState),
    Forall (fun tx => gtZero (tx_amount tx) = true)
           (transactions (fst (parseTransactionsFromText today now text bank st))).
Proof.
  intros today now text bank st.
  rewrite parseTransactionsFromText_run. cbv zeta. simpl transactions.
  assert (Forall (fun tx => geZero (tx_amount tx) = true)
            (snd (fst (recognise today text bank st)))) as Hge.
  { destruct (recognise_one_strategy today text bank st) as (s & st' & E).
    rewrite E. destruct s; simpl runStrategy.
    - apply tabular_emits. intros. simpl. apply geZero_abs. apply pickAmount_number.
    - apply lineGrouped_emits. intros. simpl. apply geZero_abs.
      eapply first_amount_number. eassumption.
    - apply regexSweep_emits. intros. simpl. apply geZero_abs. apply pickAmount_number. }
  remember (snd (fst (recognise today text bank st))) as l eqn:El. clear El.
  generalize 0 as i.
  induction l as [ | tx l IH]; intros i; simpl; [constructor | ].
  inversion Hge; subst.
  destruct (isValid tx) eqn:Ev; simpl; [ | apply IH; assumption].
  constructor; [ | apply IH; assumption].
  simpl. unfold isValid in Ev. apply andb_prop in Ev.
  apply gtZero_of_ge_ne; tauto.
Qed.

End PipelineFacts.

Module IdFacts.
Import JS Regex Num Model PdfParser.
Import Samples RegexFacts NumFacts PatternFacts StrategyFacts Independence Emission.

(** ** The ids of the returned transactions *)

Lemma lit_inj s1 s2 : lit s1 = lit s2 -> s1 = s2.
Proof.
  unfold lit. intros H.
  rewrite <- (string_of_list_ascii_of_string s1),
          <- (string_of_list_ascii_of_string s2), H.
  reflexivity.
Qed.

Lemma string_of_uint_digits d :
  Forall (fun c => isDigit c = true) (lit (NilEmpty.string_of_uint d)).
Proof.
  induction d; simpl; constructor; (reflexivity || assumption).
Qed.

Lemma natToString_digits n : Forall (fun c => isDigit c = true) (natToString n).
Proof.
  unfold natToString, NilZero.string_of_uint.
  destruct (Nat.to_uint n); try apply string_of_uint_digits.
  repeat constructor.
Qed.

Lemma natToString_inj n m : natToString n = natToString m -> n = m.
Proof.
  unfold natToString. intros H. apply lit_inj in H.
  assert (forall d, NilEmpty.uint_of_string (NilZero.string_of_uint d)
                    = Some (match d with Decimal.Nil => Decimal.D0 Decimal.Nil | _ => d end))
    as Hparse.
  { intros d. destruct d; try apply NilEmpty.usu. reflexivity. }
  apply (f_equal NilEmpty.uint_of_string) in H. rewrite !Hparse in H.
  inversion H as [H'].
  assert (forall d, Nat.of_uint (match d with
                                 | Decimal.Nil => Decimal.D0 Decimal.Nil
                                 | _ => d end) = Nat.of_uint d) as Hof
    by (intros d; destruct d; reflexivity).
  apply (f_equal Nat.of_uint) in H'. rewrite !Hof in H'.
  rewrite !DecimalNat.Unsigned.of_to in H'. exact H'.
Qed.

Lemma before_separator_unique (x : ascii) : forall p1 p2 q1 q2,
  ~ In x p1 -> ~ In x p2 -> p1 ++ x :: q1 = p2 ++ x :: q2 -> p1 = p2.
Proof.
  induction p1 as [ | a p1 IH]; intros [ | b p2] q1 q2 N1 N2 H; simpl in *.
  - reflexivity.
  - inversion H. subst. exfalso. apply N2. auto.
  - inversion H. subst. exfalso. apply N1. auto.
  - inversion H. subst. f_equal. eapply IH; eauto.
Qed.

Lemma after_separator_unique (x : ascii) l1 l2 r1 r2 :
  ~ In x r1 -> ~ In x r2 -> l1 ++ x :: r1 = l2 ++ x :: r2 -> r1 = r2.
Proof.
  intros N1 N2 H. apply (f_equal (@rev ascii)) in H.
  rewrite !rev_app_distr in H. simpl in H. rewrite <- !app_assoc in H. simpl in H.
  apply before_separator_unique in H.
  - rewrite <- (rev_involutive r1), <- (rev_involutive r2), H. reflexivity.
  - rewrite <- in_rev. exact N1.
  - rewrite <- in_rev. exact N2.
Qed.

Lemma digits_no_dash s : Forall (fun c => isDigit c = true) s -> ~ In "-"%char s.
Proof.
  intros F Hin. rewrite Forall_forall in F. apply F in Hin. discriminate.
Qed.

(** Two ids with different indices differ, whatever the clock shows. *)
Lemma pdfId_inj now1 now2 i j : pdfId now1 i = pdfId now2 j -> i = j.
Proof.
  unfold pdfId. intros H. apply app_inv_head in H.
  change ($"-" ++ natToString i) with ("-"%char :: natToString i) in H.
  change ($"-" ++ natToString j) with ("-"%char :: natToString j) in H.
  apply after_separator_unique in H.
  - apply natToString_inj. exact H.
  - apply digits_no_dash, natToString_digits.
  - apply digits_no_dash, natToString_digits.
Qed.

Lemma map_id_mapIndexed (f : nat -> str) : forall l i,
  map tx_id (mapIndexed (fun tx index => withId tx (f index)) l i)
  = map f (seq i (length l)).
Proof.
  induction l as [ | tx l IH]; intros i; simpl; [reflexivity | ].
  rewrite IH. reflexivity.
Qed.

(** X9. The transactions returned by [parseTransactionsFromText] are numbered
    from zero in their order, each id being [pdf-<clock>-<index>]; the ids of
    one result are pairwise distinct even when the clock does not advance. *)
Theorem returned_ids_unique :
  forall (today : str) (now : nat -> Z) (text : str) (bank : BankType)
         (st : RegexState),
    let txs := transactions (fst (parseTransactionsFromText today now text bank st)) in
    map tx_id txs = map (fun i => pdfId (now i) i) (seq 0 (length txs)) /\
    NoDup (map tx_id txs).
Proof.
  intros today now text bank st txs.
  assert (map tx_id txs = map (fun i => pdfId (now i) i) (seq 0 (length txs))) as H.
  { subst txs. rewrite parseTransactionsFromText_run. cbv zeta. simpl transactions.
    rewrite length_mapIndexed.
    apply (map_id_mapIndexed (fun i => pdfId (now i) i)). }
  split; [exact H | ]. rewrite H.
  apply Finite.Injective_map_NoDup; [ | apply seq_NoDup].
  intros i j E. apply pdfId_inj in E. exact E.
Qed.

(** ** The report of [parsePDFBankStatement] *)

(** the three shapes of the report *)
Lemma parsePDF_cases pdfToText today now file config st :
  exists calls,
    calls <= 1 /\
    ((exists message,
         fst (parsePDFBankStatement pdfToText today now file config st)
         = (Resolved (failed message), calls)) \/
     (exists tx txs,
         fst (parsePDFBankStatement pdfToText today now file config st)
         = (Resolved {| transactions := tx :: txs; errors := [] |}, calls)) \/
     fst (parsePDFBankStatement pdfToText today now file config st)
     = (Resolved {| transactions := [];
                    errors := [noValidTransactions; noTransactionsFound] |}, calls)).
Proof.
  destruct file as [f | ].
  2:{ rewrite parsePDF_invalid_type by exact I. exists 0. split; [lia | ]. simpl. eauto. }
  destruct (str_eqb (file_type f) pdfMime) eqn:Ht.
  2:{ rewrite parsePDF_invalid_type by exact Ht. exists 0. split; [lia | ]. simpl. eauto. }
  destruct (Z.ltb_spec sizeLimit (file_size f)) as [Hs | Hs].
  { rewrite parsePDF_oversize by assumption. exists 0. split; [lia | ]. simpl. eauto. }
  destruct (pdfToText f) as [e | text] eqn:He.
  { rewrite (parsePDF_extraction_throws pdfToText today now f config st e)
      by assumption.
    exists 1. split; [lia | ]. simpl. eauto. }
  destruct (noText text) eqn:Hn.
  { rewrite (parsePDF_no_text pdfToText today now f config st text) by assumption.
    exists 1. split; [lia | ]. simpl. eauto. }
  rewrite (parsePDF_text pdfToText today now f config st text) by assumption.
  cbv zeta. rewrite parseTransactionsFromText_run. cbv zeta. simpl.
  match goal with
  | |- context [mapIndexed ?g ?l 0] => remember (mapIndexed g l 0) as valid eqn:E
  end.
  clear E. exists 1. split; [lia | ].
  destruct valid as [ | tx valid]; simpl; eauto.
Qed.

(** X10. The promise is always fulfilled and the extraction is called at most
    once.  The report either has transactions and no error entry, or has no
    transaction and at least one entry of error severity. *)
Theorem report_has_transactions_or_an_error :
  forall (pdfToText : File -> Thrown + str) (today : str) (now : nat -> Z)
         (file : option File) (config : PDFParseConfig) (st : RegexState),
    exists (result : ParseResult) (calls : nat),
      fst (parsePDFBankStatement pdfToText today now file config st)
      = (Resolved result, calls) /\
      calls <= 1 /\
      ((transactions result <> [] /\ errors result = []) \/
       (transactions result = [] /\
        Exists (fun e => err_severity e = error) (errors result))).
Proof.
  intros pdfToText today now file config st.
  destruct (parsePDF_cases pdfToText today now file config st)
    as (calls & Hc & [(message & ->) | [(tx & txs & ->) | ->]]);
    eexists; exists calls; (split; [reflexivity | ]); (split; [exact Hc | ]).
  - right. split; [reflexivity | ]. simpl. constructor. reflexivity.
  - left. split; [discriminate | reflexivity].
  - right. split; [reflexivity | ]. simpl. apply Exists_cons_tl.
    constructor. reflexivity.
Qed.

End IdFacts.

Module DescriptionFacts.
Import JS Regex Num Model PdfParser Nullable.
Import Samples RegexFacts NumFacts PatternFacts StrategyFacts Independence Emission Notions.

(** ** No digit survives in a description *)

(** A pattern that matches the empty text never fails in front of a
    continuation that never fails. *)
Lemma rmatch_nullable (A : Type) (r : regex) :
  nullable r = true ->
  forall (s : str) (k : str -> option A),
    (forall s', k s' <> None) -> rmatch r s k <> None.
Proof.
  induction r as [ | p | r1 IH1 r2 IH2 | r1 IH1 r2 IH2 | r IH];
    intros Hn s k Hk; simpl in Hn |- *.
  - apply Hk.
  - discriminate.
  - apply andb_prop in Hn. destruct Hn as [H1 H2].
    apply IH1; [assumption | ]. intros s'. apply IH2; assumption.
  - destruct (rmatch r1 s k) eqn:E; [discriminate | ].
    destruct (nullable r1) eqn:N1.
    + exfalso. revert E. apply IH1; [reflexivity | assumption].
    + simpl in Hn. apply IH2; assumption.
  - generalize (length s) as fuel. intros fuel. revert s.
    induction fuel as [ | fuel IHf]; intros s; [apply Hk | ].
    match goal with
    | |- match ?m with _ => _ end <> None => destruct m
    end; [discriminate | apply Hk].
Qed.

Lemma matchAt_optional_then_class q p r1 r2 c s :
  q c = false -> p c = true -> nullable r1 = true -> nullable r2 = true ->
  matchAt (Seq (Opt (Cls q)) (Seq (Seq (Seq (Cls p) Eps) r1) r2)) (c :: s) <> None.
Proof.
  intros Hq Hp N1 N2. unfold matchAt, Opt. simpl. rewrite Hq, Hp.
  apply rmatch_nullable; [exact N1 | ].
  intros s'. apply rmatch_nullable; [exact N2 | ].
  intros s''. discriminate.
Qed.

(** The amount pattern matches at every digit. *)
Lemma matchAt_amount_digit c s : isDigit c = true -> matchAt amountRe (c :: s) <> None.
Proof.
  intros Hc.
  assert (isSign c = false) as Hs.
  { unfold isSign.
    rewrite (digit_neq c "+"), (digit_neq c "-") by (reflexivity || assumption).
    reflexivity. }
  exact (matchAt_optional_then_class isSign isDigit (RepUpTo 2 digit)
           (Seq (Star (seqs [Chr ","; Rep 3 digit]))
                (Seq (Opt (seqs [Chr "."; Rep 2 digit])) Eps))
           c s Hs Hc eq_refl eq_refl).
Qed.

(** *** Patterns that match wherever a code unit of a class stands *)

Section Covering.
Variable r : regex.
Variable p : ascii -> bool.
Hypothesis covers : forall c s, p c = true -> matchAt r (c :: s) <> None.
Hypothesis nonempty : forall m, lang r m -> m <> [].

Lemma search_skips_outside : forall s,
  match search r s with
  | Some (b, _, _) => Forall (fun c => p c = false) b
  | None => Forall (fun c => p c = false) s
  end.
Proof.
  induction s as [ | c s IH]; rewrite search_unfold.
  - destruct (matchAt r []); constructor.
  - destruct (matchAt r (c :: s)) eqn:E; [constructor | ].
    assert (p c = false) as Hc.
    { destruct (p c) eqn:D; [ | reflexivity].
      exfalso. revert E. apply covers. exact D. }
    destruct (search r s) as [[[b m] a] | ]; constructor; assumption.
Qed.

(** What is left after the replacement: code units outside the class, and
    the replacement. *)
Lemma replaceAllFuel_covering (P : ascii -> Prop) by_ :
  Forall P by_ ->
  forall fuel s,
    length s < fuel ->
    (forall c, In c s -> p c = false -> P c) ->
    Forall P (replaceAllFuel fuel r by_ s).
Proof.
  intros Hby. induction fuel as [ | fuel IH]; intros s Hlen Hs; [lia | ].
  simpl. pose proof (search_skips_outside s) as Hb.
  destruct (search r s) as [[[b m] a] | ] eqn:E.
  - apply search_sound in E. destruct E as [-> L].
    pose proof (nonempty m L) as Hm.
    destruct m as [ | c m]; [congruence | ].
    apply Forall_app. split.
    + apply Forall_forall. intros x Hx. apply Hs.
      * apply in_or_app. auto.
      * rewrite Forall_forall in Hb. apply Hb. exact Hx.
    + apply Forall_app. split; [exact Hby | ]. apply IH.
      * rewrite !length_app in Hlen. simpl in Hlen. lia.
      * intros x Hx. apply Hs. apply in_or_app. right. apply in_or_app. auto.
  - apply Forall_forall. intros x Hx. apply Hs; [exact Hx | ].
    rewrite Forall_forall in Hb. apply Hb. exact Hx.
Qed.

Lemma replaceG_covering (P : ascii -> Prop) by_ s :
  Forall P by_ ->
  (forall c, In c s -> p c = false -> P c) ->
  Forall P (replaceG r by_ s).
Proof. intros Hby Hs. apply replaceAllFuel_covering; [exact Hby | lia | exact Hs]. Qed.

End Covering.

Lemma amount_match_nonempty m : lang amountRe m -> m <> [].
Proof.
  intros H. apply amount_lang_shape in H.
  destruct H as (sgn & c & rest & -> & _ & _). destruct sgn; discriminate.
Qed.

Lemma stripAmount_no_digit s : noDigit (replaceG amountRe [] s).
Proof.
  apply (replaceG_covering amountRe isDigit matchAt_amount_digit amount_match_nonempty).
  - constructor.
  - intros c _ H. exact H.
Qed.

(** Replacing the matches of any pattern keeps a property that holds of every
    code unit of the text and of the replacement. *)
Lemma replaceAllFuel_Forall (P : ascii -> Prop) r by_ : Forall P by_ ->
  forall fuel s, Forall P s -> Forall P (replaceAllFuel fuel r by_ s).
Proof.
  intros Hby. induction fuel as [ | fuel IH]; intros s Hs; [exact Hs | ].
  simpl. destruct (search r s) as [[[b m] a] | ] eqn:E; [ | exact Hs].
  apply search_sound in E. destruct E as [-> _].
  apply Forall_app in Hs. destruct Hs as [Hb Hs].
  apply Forall_app in Hs. destruct Hs as [_ Ha].
  apply Forall_app. split; [exact Hb | ].
  apply Forall_app. split; [exact Hby | ].
  destruct m as [ | c m].
  - destruct a as [ | c a]; [constructor | ].
    inversion Ha; subst. constructor; [assumption | apply IH; assumption].
  - apply IH. exact Ha.
Qed.

Lemma replaceG_Forall (P : ascii -> Prop) r by_ s :
  Forall P by_ -> Forall P s -> Forall P (replaceG r by_ s).
Proof. intros. apply replaceAllFuel_Forall; assumption. Qed.

Lemma trimStart_Forall (P : ascii -> Prop) : forall s, Forall P s -> Forall P (trimStart s).
Proof.
  induction s as [ | c s IH]; intros H; simpl; [constructor | ].
  destruct (isWhiteSpace c); [ | exact H]. inversion H; subst. auto.
Qed.

Lemma trim_Forall (P : ascii -> Prop) s : Forall P s -> Forall P (trim s).
Proof.
  intros H. unfold trim, trimEnd. apply Forall_rev. apply trimStart_Forall.
  apply Forall_rev. apply trimStart_Forall. exact H.
Qed.

Lemma truncate100_no_digit s : noDigit s -> noDigit (truncate100 s).
Proof.
  intros H. unfold truncate100, substring0. destruct (100 <? length s); [ | exact H].
  apply Forall_app. split.
  - rewrite <- (firstn_skipn 100 s) in H. apply Forall_app in H. tauto.
  - repeat constructor.
Qed.

Lemma orTransaction_no_digit s : noDigit s -> noDigit (orTransaction s).
Proof.
  intros H. unfold orTransaction. destruct (truthyStr s); [exact H | ].
  repeat constructor.
Qed.

Lemma alnumTokens_no_digit s : noDigit s -> noDigit (alnumTokens s).
Proof.
  intros H. unfold alnumTokens. apply trim_Forall.
  apply replaceG_Forall; [repeat constructor | ].
  apply replaceG_Forall; [repeat constructor | exact H].
Qed.

Lemma amountPattern_bank bank : amountPattern (BANK_PATTERNS bank) = amountRe.
Proof. destruct bank; reflexivity. Qed.

Lemma tabularRow_description today bank raw acc st :
  Forall (fun tx => noDigit (tx_description tx)) acc ->
  Forall (fun tx => noDigit (tx_description tx))
         (fst (tabularRow today (BANK_PATTERNS bank) raw acc st)).
Proof.
  intros Hacc. unfold tabularRow.
  destruct (negb (truthyStr (trim raw)) || (length (trim raw) <? 10)); [exact Hacc | ].
  unfold bind, matchDate, matchAmount.
  destruct (nonEmpty (matchAll (datePattern _) (trim raw))) as [[d0 drest] | ];
    [ | exact Hacc].
  destruct (nonEmpty (matchAll (amountPattern _) (trim raw))) as [[a0 arest] | ];
    [ | exact Hacc].
  destruct (findIndexM (testDate _) _ _) as [dateIndex st1].
  destruct (findIndexM (testAmount _) _ _) as [amountIndex st2].
  unfold stripAmount, ret. rewrite amountPattern_bank.
  match goal with
  | |- context [if ?b then _ else _] => destruct b
  end; [ | exact Hacc].
  apply Forall_app. split; [exact Hacc | ]. constructor; [ | constructor].
  simpl. apply orTransaction_no_digit, truncate100_no_digit, trim_Forall.
  apply stripAmount_no_digit.
Qed.

Lemma windowStep_description today bank c n t acc st :
  Forall (fun tx => noDigit (tx_description tx)) acc ->
  Forall (fun tx => noDigit (tx_description tx))
         (fst (windowStep today (BANK_PATTERNS bank) c n t acc st)).
Proof.
  intros Hacc. unfold windowStep, bind, matchDate, matchAmount.
  destruct (nonEmpty (matchAll (datePattern _) _)) as [[d0 drest] | ]; [ | exact Hacc].
  destruct (nonEmpty (matchAll (amountPattern _) _)) as [[a0 arest] | ]; [ | exact Hacc].
  unfold stripDate, stripAmount, ret. rewrite amountPattern_bank.
  apply Forall_app. split; [exact Hacc | ]. constructor; [ | constructor].
  simpl. apply orTransaction_no_digit, trim_Forall, stripAmount_no_digit.
Qed.

Lemma regexRow_description today bank line acc st :
  Forall (fun tx => noDigit (tx_description tx)) acc ->
  Forall (fun tx => noDigit (tx_description tx))
         (fst (regexRow today (BANK_PATTERNS bank) line acc st)).
Proof.
  intros Hacc. unfold regexRow, bind, matchDate, matchAmount.
  destruct (nonEmpty (matchAll (datePattern _) _)) as [[d0 drest] | ]; [ | exact Hacc].
  destruct (nonEmpty (matchAll (amountPattern _) _)) as [[a0 arest] | ]; [ | exact Hacc].
  unfold stripDate, stripAmount, ret. rewrite amountPattern_bank.
  match goal with
  | |- context [if ?b then _ else _] => destruct b
  end; [ | exact Hacc].
  apply Forall_app. split; [exact Hacc | ]. constructor; [ | constructor].
  simpl. apply orTransaction_no_digit, alnumTokens_no_digit, trim_Forall.
  apply stripAmount_no_digit.
Qed.

(** X11. Under every bank profile the description of an emitted transaction holds
    no decimal digit: the amount pattern matches at every digit, so removing
    its matches removes reference numbers, dates and account numbers along
    with the amounts.  This holds in the three strategies. *)
Theorem descriptions_hold_no_digit :
  forall (bank : BankType) (today : str) (lines : list str) (text : str)
         (st : RegexState),
    Forall (fun tx => noDigit (tx_description tx))
           (fst (parseTabularFormat today lines (BANK_PATTERNS bank) st)) /\
    Forall (fun tx => noDigit (tx_description tx))
           (fst (parseLineByLineFormat today lines (BANK_PATTERNS bank) st)) /\
    Forall (fun tx => noDigit (tx_description tx))
           (fst (parseRegexFormat today text (BANK_PATTERNS bank) st)).
Proof.
  intros bank today lines text st. repeat split.
  - unfold parseTabularFormat, bind.
    match goal with
    | |- Forall _ (fst (let (_, _) := ?c in _)) => destruct c as [h st']
    end.
    apply forEachM_inv; [ | constructor].
    intros. apply tabularRow_description. assumption.
  - unfold parseLineByLineFormat. apply lineWindows_inv; [ | constructor].
    intros. apply windowStep_description. assumption.
  - unfold parseRegexFormat. apply forEachM_inv; [ | constructor].
    intros. apply regexRow_description. assumption.
Qed.

(** ** The descriptions of the regex strategy *)

Lemma class_covers p c s : p c = true -> matchAt (Cls p) (c :: s) <> None.
Proof. intros H. unfold matchAt. simpl. rewrite H. discriminate. Qed.

Lemma class_nonempty p m : lang (Cls p) m -> m <> [].
Proof. intros H. apply lang_Cls_inv in H. destruct H as (c & -> & _). discriminate. Qed.

Lemma plus_covers p c s : p c = true -> matchAt (Plus (Cls p)) (c :: s) <> None.
Proof.
  intros H. unfold matchAt, Plus.
  change (rmatch (Seq (Cls p) (Star (Cls p))) (c :: s) Some)
    with (if p c then rmatch (Star (Cls p)) s Some else None).
  rewrite H. apply rmatch_nullable; [reflexivity | discriminate].
Qed.

Lemma plus_nonempty p m : lang (Plus (Cls p)) m -> m <> [].
Proof.
  unfold Plus. intros H. apply lang_Seq_inv in H.
  destruct H as (s1 & s2 & -> & H1 & _). apply lang_Cls_inv in H1.
  destruct H1 as (c & -> & _). discriminate.
Qed.

Lemma alnumTokens_chars s :
  Forall (fun c => isWordChar c = true \/ c = " "%char) (alnumTokens s).
Proof.
  unfold alnumTokens. apply trim_Forall.
  apply (replaceG_covering (Plus space) isWhiteSpace).
  - apply plus_covers.
  - apply plus_nonempty.
  - constructor; [right; reflexivity | constructor].
  - intros c Hin Hws. left.
    assert (Forall (fun c => (isWordChar c || isWhiteSpace c) = true)
              (replaceG (Cls (fun c => negb (isWordChar c || isWhiteSpace c))) $" " s))
      as HF.
    { apply (replaceG_covering
               (Cls (fun c => negb (isWordChar c || isWhiteSpace c)))
               (fun c => negb (isWordChar c || isWhiteSpace c))).
      - apply class_covers.
      - apply class_nonempty.
      - repeat constructor.
      - intros x _ Hx. apply negb_false_iff in Hx. exact Hx. }
    rewrite Forall_forall in HF. specialize (HF c Hin).
    rewrite Hws, orb_false_r in HF. exact HF.
Qed.

Lemma alnumTokens_plain s : noDigit s -> Forall plainChar (alnumTokens s).
Proof.
  intros H. pose proof (alnumTokens_chars s) as H1.
  pose proof (alnumTokens_no_digit s H) as H2.
  unfold noDigit in H2. rewrite Forall_forall in *.
  intros c Hin. destruct (H1 c Hin) as [Hw | ->]; [left | right; reflexivity].
  split; [exact Hw | apply H2; exact Hin].
Qed.

Lemma regexRow_plain today bank line acc st :
  Forall (fun tx => Forall plainChar (tx_description tx)) acc ->
  Forall (fun tx => Forall plainChar (tx_description tx))
         (fst (regexRow today (BANK_PATTERNS bank) line acc st)).
Proof.
  intros Hacc. unfold regexRow, bind, matchDate, matchAmount.
  destruct (nonEmpty (matchAll (datePattern _) _)) as [[d0 drest] | ]; [ | exact Hacc].
  destruct (nonEmpty (matchAll (amountPattern _) _)) as [[a0 arest] | ]; [ | exact Hacc].
  unfold stripDate, stripAmount, ret. rewrite amountPattern_bank.
  match goal with
  | |- context [if truthyStr ?d && _ then _ else _] => destruct (truthyStr d) eqn:Et
  end; [ | exact Hacc].
  simpl andb. cbv iota.
  match goal with
  | |- context [if ?b then _ else _] => destruct b
  end; [ | exact Hacc].
  apply Forall_app. split; [exact Hacc | ]. constructor; [ | constructor].
  simpl. rewrite orTransaction_truthy by exact Et.
  apply alnumTokens_plain. apply trim_Forall. apply stripAmount_no_digit.
Qed.

(** X12. Under every bank profile a description emitted by the regex strategy is
    made of the letters A-Z and a-z, underscores and spaces only: every other
    character has been replaced by a space and the digits are gone with the
    amounts. *)
Theorem regex_descriptions_are_plain_words :
  forall (bank : BankType) (today : str) (text : str) (st : RegexState),
    Forall (fun tx => Forall plainChar (tx_description tx))
           (fst (parseRegexFormat today text (BANK_PATTERNS bank) st)).
Proof.
  intros bank today text st. unfold parseRegexFormat.
  apply forEachM_inv; [ | constructor].
  intros. apply regexRow_plain. assumption.
Qed.

End DescriptionFacts.

Module GamificationFacts.
Import JS Gamification.

(** ** Levels and streaks *)

Lemma calculateLevel_eq totalXP :
  calculateLevel totalXP =
  if (8000 <=? totalXP)%Z then 8
  else if (4000 <=? totalXP)%Z then 7
  else if (2000 <=? totalXP)%Z then 6
  else if (1000 <=? totalXP)%Z then 5
  else if (500 <=? totalXP)%Z then 4
  else if (250 <=? totalXP)%Z then 3
  else if (100 <=? totalXP)%Z then 2
  else if (0 <=? totalXP)%Z then 1
  else 1.
Proof. reflexivity. Qed.

Ltac split_levels :=
  repeat match goal with
         | |- context [(?a <=? ?b)%Z] => destruct (Z.leb_spec a b)
         | H : context [(?a <=? ?b)%Z] |- _ => destruct (Z.leb_spec a b)
         end.

(** X13. The level never decreases when the XP total grows, and lies between 1
    and 8 for every total, negative ones included. *)
Theorem calculateLevel_monotone :
  forall xp1 xp2 : Z,
    (xp1 <= xp2)%Z ->
    1 <= calculateLevel xp1 /\
    calculateLevel xp1 <= calculateLevel xp2 /\
    calculateLevel xp2 <= 8.
Proof.
  intros xp1 xp2 H. rewrite !calculateLevel_eq. split_levels; lia.
Qed.

Lemma calculateLevel_monotone_witness :
  1 <= calculateLevel 120 /\ calculateLevel 120 <= calculateLevel 2500 /\
  calculateLevel 2500 <= 8.
Proof. apply (calculateLevel_monotone 120 2500). lia. Defined.

Lemma roundToDouble_exact z :
  (Z.abs z < 2 ^ 53)%Z -> roundToDouble z = z.
Proof.
  intros H. unfold roundToDouble. cbv zeta.
  apply Z.ltb_lt in H. rewrite H. reflexivity.
Qed.

Lemma calculateXPToNextLevel_eq totalXP :
  calculateXPToNextLevel totalXP =
  match calculateLevel totalXP with
  | 1 => jsSub 100 totalXP
  | 2 => jsSub 250 totalXP
  | 3 => jsSub 500 totalXP
  | 4 => jsSub 1000 totalXP
  | 5 => jsSub 2000 totalXP
  | 6 => jsSub 4000 totalXP
  | 7 => jsSub 8000 totalXP
  | _ => 0%Z
  end.
Proof.
  unfold calculateXPToNextLevel. rewrite calculateLevel_eq.
  split_levels; reflexivity.
Qed.

(** in the range where the subtraction is exact *)
Lemma calculateXPToNextLevel_exact totalXP :
  (- 2 ^ 53 + 8000 < totalXP)%Z ->
  calculateXPToNextLevel totalXP =
  match calculateLevel totalXP with
  | 1 => (100 - totalXP)%Z
  | 2 => (250 - totalXP)%Z
  | 3 => (500 - totalXP)%Z
  | 4 => (1000 - totalXP)%Z
  | 5 => (2000 - totalXP)%Z
  | 6 => (4000 - totalXP)%Z
  | 7 => (8000 - totalXP)%Z
  | _ => 0%Z
  end.
Proof.
  change (2 ^ 53)%Z with 9007199254740992%Z. intros H.
  rewrite calculateXPToNextLevel_eq, calculateLevel_eq. unfold jsSub.
  split_levels; try reflexivity; apply roundToDouble_exact;
    change (2 ^ 53)%Z with 9007199254740992%Z; lia.
Qed.

(** X14. For an XP total below 8000 and above -2^53 + 8000, where the
    subtraction of the code is exact, the amount returned by
    [calculateXPToNextLevel] is positive and is exactly the gap to the next
    level: adding it raises the level by one, adding less leaves the level
    unchanged.  From 8000 XP on the level is 8 and the amount is 0. *)
Theorem xp_to_next_level_is_the_gap :
  forall totalXP : Z,
    ((- 2 ^ 53 + 8000 < totalXP < 8000)%Z ->
     (0 < calculateXPToNextLevel totalXP)%Z /\
     calculateLevel (jsAdd totalXP (calculateXPToNextLevel totalXP))
       = S (calculateLevel totalXP) /\
     forall d : Z,
       (0 <= d < calculateXPToNextLevel totalXP)%Z ->
       calculateLevel (jsAdd totalXP d) = calculateLevel totalXP) /\
    ((8000 <= totalXP)%Z ->
     calculateLevel totalXP = 8 /\ calculateXPToNextLevel totalXP = 0%Z).
Proof.
  intros totalXP. split.
  - intros [Hlo Hlt]. rewrite (calculateXPToNextLevel_exact totalXP Hlo).
    change (2 ^ 53)%Z with 9007199254740992%Z in Hlo.
    assert (forall d, (0 <= d <= 8000 - totalXP)%Z -> jsAdd totalXP d = (totalXP + d)%Z)
      as Hadd.
    { intros d Hd. apply roundToDouble_exact.
      change (2 ^ 53)%Z with 9007199254740992%Z. lia. }
    repeat split.
    + rewrite calculateLevel_eq. split_levels; lia.
    + rewrite (calculateLevel_eq totalXP). split_levels; try lia;
        (rewrite Hadd by lia); rewrite calculateLevel_eq; split_levels; lia.
    + intros d. rewrite (calculateLevel_eq totalXP).
      split_levels; try lia; intros Hd; (rewrite Hadd by lia);
        rewrite calculateLevel_eq; split_levels; lia.
  - intros Hge. rewrite calculateXPToNextLevel_eq, calculateLevel_eq.
    split_levels; try lia; split; reflexivity.
Qed.

Lemma xp_to_next_level_witness :
  (0 < calculateXPToNextLevel 730)%Z /\
  calculateLevel (jsAdd 730 (calculateXPToNextLevel 730)) = S (calculateLevel 730) /\
  (forall d : Z,
      (0 <= d < calculateXPToNextLevel 730)%Z ->
      calculateLevel (jsAdd 730 d) = calculateLevel 730) /\
  calculateLevel 9000 = 8 /\ calculateXPToNextLevel 9000 = 0%Z.
Proof.
  destruct (xp_to_next_level_is_the_gap 730) as [H _].
  destruct (xp_to_next_level_is_the_gap 9000) as [_ H'].
  destruct H as (H1 & H2 & H3); [vm_compute; split; reflexivity | ].
  destruct H' as (H4 & H5); [lia | ].
  repeat split; assumption.
Defined.

(** Below that range the subtraction rounds: at -(2^53 - 1) the amount is
    one more than the gap, and at -2^60 the amount is 2^60, which added to the
    total gives 0 and leaves the level at 1. *)
Lemma xp_gap_is_rounded_for_huge_totals :
  calculateXPToNextLevel (-9007199254740991) = 9007199254741092%Z /\
  calculateXPToNextLevel (- 2 ^ 60) = (2 ^ 60)%Z /\
  calculateLevel (- 2 ^ 60) = 1 /\
  calculateLevel (jsAdd (- 2 ^ 60) (calculateXPToNextLevel (- 2 ^ 60))) = 1.
Proof. vm_compute. repeat split; reflexivity. Qed.

(** X15. The streak multiplier is 1, 1.5, 2 or 3 and never decreases when the
    streak grows. *)
Theorem calculateStreakMultiplier_monotone :
  forall count1 count2 : Z,
    (count1 <= count2)%Z ->
    (1 <= calculateStreakMultiplier count1)%Q /\
    (calculateStreakMultiplier count1 <= calculateStreakMultiplier count2)%Q /\
    (calculateStreakMultiplier count2 <= 3)%Q.
Proof.
  intros count1 count2 H. unfold calculateStreakMultiplier.
  split_levels; try lia; repeat split; unfold Qle; simpl; lia.
Qed.

Lemma calculateStreakMultiplier_witness :
  (1 <= calculateStreakMultiplier 7)%Q /\
  (calculateStreakMultiplier 7 <= calculateStreakMultiplier 15)%Q /\
  (calculateStreakMultiplier 15 <= 3)%Q.
Proof. apply (calculateStreakMultiplier_monotone 7 15). lia. Defined.

End GamificationFacts.

Module ImportUiFacts.
Import JS Regex Num Model PdfParser ImportUi.
Import Samples RegexFacts NumFacts PatternFacts StrategyFacts Independence Emission.
Import TextFacts.

(** ** The two bank detectors *)

Lemma firstBank_none table lowerText :
  firstBank table lowerText = None ->
  forall bank patterns kw,
    In (bank, patterns) table -> In kw patterns -> includes lowerText kw = false.
Proof.
  induction table as [ | [b pats] table IH]; intros H bank patterns kw Hin Hkw.
  - contradiction.
  - simpl in H. destruct (existsb (includes lowerText) pats) eqn:E; [discriminate | ].
    destruct Hin as [Heq | Hin].
    + inversion Heq; subst.
      destruct (includes lowerText kw) eqn:K; [ | reflexivity].
      assert (existsb (includes lowerText) patterns = true) as C
        by (apply existsb_exists; eauto).
      congruence.
    + eapply IH; eassumption.
Qed.

(** X16. When the detector of the context finds no bank in a text, the detector
    of the PDF parser answers generic for it: every name the parser looks
    for is in the table of the context. *)
Theorem no_bank_in_table_means_generic :
  forall text : str,
    detectBankFromText text = None -> detectBankType text = generic.
Proof.
  intros text H. unfold detectBankFromText in H. unfold detectBankType.
  pose proof (firstBank_none _ _ H) as Hn.
  rewrite (Hn $"HDFC" [$"hdfc"; $"hdfc bank"] $"hdfc") by (simpl; auto 12).
  rewrite (Hn $"ICICI" [$"icici"; $"icici bank"] $"icici") by (simpl; auto 12).
  rewrite (Hn $"SBI" [$"state bank"; $"sbi"; $"state bank of india"] $"state bank")
    by (simpl; auto 12).
  rewrite (Hn $"SBI" [$"state bank"; $"sbi"; $"state bank of india"] $"sbi")
    by (simpl; auto 12).
  rewrite (Hn $"AXIS" [$"axis"; $"axis bank"] $"axis") by (simpl; auto 12).
  reflexivity.
Qed.

Lemma no_bank_in_table_witness :
  detectBankType $"monthly statement april.csv" = generic.
Proof.
  apply (no_bank_in_table_means_generic $"monthly statement april.csv").
  vm_compute. reflexivity.
Defined.

(** X17. The two detectors rank the banks differently: for a text that names both
    HDFC and SBI, in any letter case and with anything around, the parser
    answers hdfc and the context answers SBI. *)
Theorem detectors_rank_banks_differently :
  forall (a w1 b w2 c : str),
    toLowerCase w1 = $"hdfc" ->
    toLowerCase w2 = $"sbi" ->
    detectBankType (a ++ w1 ++ b ++ w2 ++ c) = hdfc /\
    detectBankFromText (a ++ w1 ++ b ++ w2 ++ c) = Some $"SBI".
Proof.
  intros a w1 b w2 c H1 H2. split.
  - unfold detectBankType. rewrite (includes_lower a w1 (b ++ w2 ++ c) _ H1).
    reflexivity.
  - unfold detectBankFromText, Gamification.BANK_PATTERNS.
    assert (includes (toLowerCase (a ++ w1 ++ b ++ w2 ++ c)) $"sbi" = true) as Hs.
    { replace (a ++ w1 ++ b ++ w2 ++ c) with ((a ++ w1 ++ b) ++ w2 ++ c)
        by (rewrite <- !app_assoc; reflexivity).
      apply includes_lower. exact H2. }
    cbn [firstBank existsb]. rewrite Hs. rewrite orb_true_r. reflexivity.
Qed.

Lemma detectors_rank_banks_differently_witness :
  detectBankType ($"" ++ $"HDFC" ++ $" to " ++ $"SBI" ++ $" transfer.pdf") = hdfc /\
  detectBankFromText ($"" ++ $"HDFC" ++ $" to " ++ $"SBI" ++ $" transfer.pdf")
  = Some $"SBI".
Proof.
  apply (detectors_rank_banks_differently $"" $"HDFC" $" to " $"SBI" $" transfer.pdf");
    reflexivity.
Defined.

(** ** The import component and the parser *)

Lemma failed_is_flagged message : isImageBasedPDFError (errors (failed message)) = true.
Proof.
  unfold failed, isImageBasedPDFError, errorEntry.
  cbn [errors existsb err_message].
  assert (includes (toLowerCase ($"PDF parsing failed: " ++ message))
            $"pdf parsing failed" = true) as H.
  { rewrite toLowerCase_app.
    change (toLowerCase $"PDF parsing failed: ") with ($"pdf parsing failed" ++ $": ").
    rewrite <- app_assoc. apply (includes_app $"pdf parsing failed" []). }
  rewrite H, orb_true_r. reflexivity.
Qed.

(** X18. [isImageBasedPDFError] flags the report of [parsePDFBankStatement]
    exactly when the parser did not get to read a text: not only for a PDF
    without text layer, but also for a missing file, a wrong type, a file
    above 50MB and a failed extraction; a report built from an extracted text
    is never flagged. *)
Theorem image_based_flag_means_no_text_was_parsed :
  forall (pdfToText : File -> Thrown + str) (today : str) (now : nat -> Z)
         (file : option File) (config : PDFParseConfig) (st : RegexState),
    let textParsed :=
      match file with
      | None => false
      | Some f =>
          str_eqb (file_type f) pdfMime && (file_size f <=? sizeLimit)%Z &&
          match pdfToText f with
          | inr text => negb (noText text)
          | inl _ => false
          end
      end in
    exists (result : ParseResult) (calls : nat),
      fst (parsePDFBankStatement pdfToText today now file config st)
      = (Resolved result, calls) /\
      isImageBasedPDFError (errors result) = negb textParsed.
Proof.
  intros pdfToText today now file config st textParsed. subst textParsed.
  destruct file as [f | ].
  2:{ rewrite parsePDF_invalid_type by exact I. do 2 eexists.
      split; [reflexivity | ]. apply failed_is_flagged. }
  destruct (str_eqb (file_type f) pdfMime) eqn:Ht.
  2:{ rewrite parsePDF_invalid_type by exact Ht. do 2 eexists.
      split; [reflexivity | ]. apply failed_is_flagged. }
  destruct (Z.ltb_spec sizeLimit (file_size f)) as [Hs | Hs].
  { rewrite parsePDF_oversize by assumption. do 2 eexists.
    split; [reflexivity | ].
    replace (file_size f <=? sizeLimit)%Z with false
      by (symmetry; apply Z.leb_gt; exact Hs).
    apply failed_is_flagged. }
  replace (file_size f <=? sizeLimit)%Z with true
    by (symmetry; apply Z.leb_le; exact Hs).
  destruct (pdfToText f) as [e | text] eqn:He.
  { rewrite (parsePDF_extraction_throws pdfToText today now f config st e)
      by assumption.
    do 2 eexists. split; [reflexivity | ]. apply failed_is_flagged. }
  destruct (noText text) eqn:Hn.
  { rewrite (parsePDF_no_text pdfToText today now f config st text) by assumption.
    do 2 eexists. split; [reflexivity | ]. apply failed_is_flagged. }
  rewrite (parsePDF_text pdfToText today now f config st text) by assumption.
  cbv zeta. rewrite parseTransactionsFromText_run. cbv zeta. simpl transactions.
  simpl errors.
  match goal with
  | |- context [mapIndexed ?g ?l 0] => remember (mapIndexed g l 0) as valid eqn:E
  end.
  clear E. do 2 eexists. split; [reflexivity | ].
  destruct valid as [ | tx valid]; vm_compute; reflexivity.
Qed.

(** X19. A PDF that the import component accepts (type and at most 10MB) is never
    turned away by the checks of the parser: the text extraction is called,
    exactly once. *)
Theorem accepted_pdf_reaches_extraction :
  forall (pdfToText : File -> Thrown + str) (today : str) (now : nat -> Z)
         (f : File) (config : PDFParseConfig) (st : RegexState),
    fst (isValidFile f) = true ->
    str_eqb (file_type f) pdfMime = true ->
    snd (fst (parsePDFBankStatement pdfToText today now (Some f) config st)) = 1.
Proof.
  intros pdfToText today now f config st Hv Ht.
  assert (file_size f <= sizeLimit)%Z as Hs.
  { unfold isValidFile in Hv.
    destruct (negb (existsb (str_eqb (file_type f)) _)); [discriminate | ].
    destruct (Z.ltb_spec (10 * 1024 * 1024) (file_size f)); [discriminate | ].
    unfold sizeLimit. lia. }
  destruct (pdfToText f) as [e | text] eqn:He.
  { rewrite (parsePDF_extraction_throws pdfToText today now f config st e)
      by assumption.
    reflexivity. }
  destruct (noText text) eqn:Hn.
  { rewrite (parsePDF_no_text pdfToText today now f config st text) by assumption.
    reflexivity. }
  rewrite (parsePDF_text pdfToText today now f config st text) by assumption.
  reflexivity.
Qed.

Lemma accepted_pdf_reaches_extraction_witness :
  snd (fst (parsePDFBankStatement (fun _ => inr $"hello world") $"2026-11-02"
              (fun _ => 0%Z) (Some smallPdf) defaultConfig st0)) = 1.
Proof.
  apply (accepted_pdf_reaches_extraction (fun _ => inr $"hello world") $"2026-11-02"
           (fun _ => 0%Z) smallPdf defaultConfig st0); reflexivity.
Defined.

End ImportUiFacts.

Module CsvFacts.
Import JS Regex Num Model Csv.
Import Samples NumFacts TextFacts Notions.

(** ** The CSV import *)

Section WithDate.
Variable toISOString : str -> Thrown + str.
Variables (now : nat -> Z) (rnd : nat -> str).

Lemma csvRows_step headers line rest i acc :
  exists acc',
    csvRows toISOString now rnd headers (line :: rest) i acc
    = csvRows toISOString now rnd headers rest (S i) acc' /\
    ((transactions acc' = transactions acc /\
      exists e, errors acc' = errors acc ++ [e] /\ err_row e = Some (i + 1)) \/
     (errors acc' = errors acc /\
      exists tx, transactions acc' = transactions acc ++ [tx] /\
                 gtZero (tx_amount tx) = true /\
                 parseCSVTransaction toISOString (now i) (rnd i)
                   (map cleanCell (splitChar "," line)) headers = inr tx)).
Proof.
  simpl csvRows.
  destruct (negb (length (map cleanCell (splitChar "," line)) =? length headers)).
  - eexists. split; [reflexivity | ]. left. simpl. eauto.
  - destruct (parseCSVTransaction toISOString (now i) (rnd i) _ headers)
      as [e | tx] eqn:E.
    + eexists. split; [reflexivity | ]. left. simpl. eauto.
    + destruct (gtZero (tx_amount tx)) eqn:G.
      * eexists. split; [reflexivity | ]. right. simpl. eauto.
      * eexists. split; [reflexivity | ]. left. simpl. eauto.
Qed.

Lemma csvRows_count headers : forall lines i acc,
  length (transactions (csvRows toISOString now rnd headers lines i acc))
  + length (errors (csvRows toISOString now rnd headers lines i acc))
  = length (transactions acc) + length (errors acc) + length lines.
Proof.
  induction lines as [ | line rest IH]; intros i acc.
  - simpl. lia.
  - destruct (csvRows_step headers line rest i acc) as (acc' & -> & H).
    rewrite IH. simpl length.
    destruct H as [(Ht & e & He & _) | (He & tx & Ht & _)];
      rewrite Ht, He, length_app; simpl; lia.
Qed.

Lemma csvRows_error_rows headers lo hi : forall lines i acc,
  lo <= i + 1 -> i + length lines <= hi ->
  Forall (rowBetween lo hi) (errors acc) ->
  Forall (rowBetween lo hi) (errors (csvRows toISOString now rnd headers lines i acc)).
Proof.
  induction lines as [ | line rest IH]; intros i acc Hlo Hhi Hacc.
  - exact Hacc.
  - destruct (csvRows_step headers line rest i acc) as (acc' & -> & H).
    simpl length in Hhi. apply IH; try lia.
    destruct H as [(_ & e & He & Hr) | (He & _)]; rewrite He; [ | exact Hacc].
    apply Forall_app. split; [exact Hacc | ]. constructor; [ | constructor].
    exists (i + 1). split; [exact Hr | lia].
Qed.

Lemma csvRows_positive headers : forall lines i acc,
  Forall (fun tx => gtZero (tx_amount tx) = true) (transactions acc) ->
  Forall (fun tx => gtZero (tx_amount tx) = true)
         (transactions (csvRows toISOString now rnd headers lines i acc)).
Proof.
  induction lines as [ | line rest IH]; intros i acc Hacc.
  - exact Hacc.
  - destruct (csvRows_step headers line rest i acc) as (acc' & -> & H).
    apply IH.
    destruct H as [(Ht & _) | (_ & tx & Ht & G & _)]; rewrite Ht; [exact Hacc | ].
    apply Forall_app. split; [exact Hacc | ]. constructor; [exact G | constructor].
Qed.

Lemma parseCSVFile_rows csv header line rest :
  csvLines csv = header :: line :: rest ->
  parseCSVFile toISOString now rnd csv
  = csvRows toISOString now rnd (map cleanCell (splitChar "," header))
      (line :: rest) 1 {| transactions := []; errors := [] |}.
Proof.
  unfold parseCSVFile, csvLines. intros ->. reflexivity.
Qed.

(** X20. A CSV text with fewer than two non-blank lines, the empty text
    included, gives no transaction and the single error that a header and a
    data row are needed. *)
Theorem csv_needs_header_and_row :
  forall csv : str,
    length (csvLines csv) < 2 ->
    parseCSVFile toISOString now rnd csv =
    {| transactions := [];
       errors := [ {| err_row := None;
                      err_message := $"CSV file must contain at least a header and one data row";
                      err_severity := error |} ] |}.
Proof.
  intros csv H. unfold parseCSVFile. unfold csvLines in H.
  destruct (filter truthyStr (map trim (splitChar "010" csv))) as [ | h [ | l rest]];
    try reflexivity.
  simpl in H. lia.
Qed.

(** X21. With a header and at least one data row, every data row is accounted
    for: it adds either one transaction or one error entry, and every error
    entry carries the number of its row, counted over the non-blank lines
    with the header as row 1. *)
Theorem csv_every_row_accounted :
  forall csv : str,
    2 <= length (csvLines csv) ->
    let result := parseCSVFile toISOString now rnd csv in
    length (transactions result) + length (errors result)
      = length (csvLines csv) - 1 /\
    Forall (rowBetween 2 (length (csvLines csv))) (errors result).
Proof.
  intros csv H result. subst result.
  destruct (csvLines csv) as [ | header [ | line rest]] eqn:E;
    try (simpl in H; lia).
  rewrite (parseCSVFile_rows csv header line rest E). split.
  - rewrite csvRows_count. simpl. lia.
  - apply csvRows_error_rows; simpl; try lia. constructor.
Qed.

(** X22. Every transaction of a CSV import has an amount strictly greater than
    zero; a row whose amount is missing, zero or not a number gives an error
    entry instead. *)
Theorem csv_amounts_positive :
  forall csv : str,
    Forall (fun tx => gtZero (tx_amount tx) = true)
           (transactions (parseCSVFile toISOString now rnd csv)).
Proof.
  intros csv. unfold parseCSVFile.
  destruct (filter truthyStr (map trim (splitChar "010" csv))) as [ | h [ | l rest]];
    try constructor.
  apply csvRows_positive. constructor.
Qed.

(** *** A file without an amount column *)

Lemma findIndexFrom_none {A} (f : A -> bool) : forall l i,
  (forall x, In x l -> f x = false) -> findIndexFrom f l i = (-1)%Z.
Proof.
  induction l as [ | x l IH]; intros i H; simpl; [reflexivity | ].
  rewrite (H x) by (simpl; auto). apply IH. intros y Hy. apply H. simpl. auto.
Qed.

Lemma getField_missing row headers : forall names,
  (forall h name, In h headers -> In name names ->
                  includes (toLowerCase h) (toLowerCase name) = false) ->
  getField row headers names = [].
Proof.
  induction names as [ | name names IH]; intros H; simpl; [reflexivity | ].
  unfold findIndex. rewrite findIndexFrom_none.
  - simpl. apply IH. intros h n Hh Hn. apply H; simpl; auto.
  - intros h Hh. apply H; simpl; auto.
Qed.

Lemma no_amount_field row headers :
  (forall h name, In h headers -> In name amountFieldNames ->
                  includes (toLowerCase h) name = false) ->
  getField row headers [$"debit"; $"withdrawal"; $"debit amount"] = [] /\
  getField row headers [$"credit"; $"deposit"; $"credit amount"] = [].
Proof.
  intros H. split; apply getField_missing; intros h name Hh Hn;
    simpl in Hn;
    repeat (destruct Hn as [<- | Hn];
            [apply (H h); [exact Hh | unfold amountFieldNames; simpl; tauto] | ]);
    contradiction.
Qed.

Lemma csvRows_no_amount headers :
  (forall h name, In h headers -> In name amountFieldNames ->
                  includes (toLowerCase h) name = false) ->
  forall lines i acc,
    transactions acc = [] ->
    transactions (csvRows toISOString now rnd headers lines i acc) = [].
Proof.
  intros H. induction lines as [ | line rest IH]; intros i acc Hacc.
  - exact Hacc.
  - destruct (csvRows_step headers line rest i acc) as (acc' & -> & Hs).
    apply IH.
    destruct Hs as [(Ht & _) | (_ & tx & _ & G & E)]; [congruence | ].
    exfalso. unfold parseCSVTransaction in E.
    destruct (no_amount_field (map cleanCell (splitChar "," line)) headers H)
      as [Hd Hc].
    rewrite Hd, Hc in E.
    destruct (toISOString _); [discriminate | ].
    inversion E; subst tx. simpl in G. vm_compute in G. discriminate.
Qed.

(** X23. When no header of the file contains one of the words debit, withdrawal,
    credit and deposit, the import returns no transaction at all: every data
    row ends as an error entry. *)
Theorem csv_without_amount_column :
  forall csv : str,
    (forall h name, In h (csvHeaders csv) -> In name amountFieldNames ->
                    includes (toLowerCase h) name = false) ->
    transactions (parseCSVFile toISOString now rnd csv) = [].
Proof.
  intros csv H. unfold csvHeaders in H. unfold parseCSVFile.
  fold (csvLines csv).
  destruct (csvLines csv) as [ | header [ | line rest]]; try reflexivity.
  apply csvRows_no_amount; [exact H | reflexivity].
Qed.

End WithDate.

Lemma csv_needs_header_and_row_witness :
  parseCSVFile isoMidnight (fun _ => 0%Z) (fun _ => $"k3j9x0a1b")
    $"Date,Narration,Debit,Credit,Balance" =
  {| transactions := [];
     errors := [ {| err_row := None;
                    err_message := $"CSV file must contain at least a header and one data row";
                    err_severity := error |} ] |}.
Proof.
  apply (csv_needs_header_and_row isoMidnight (fun _ => 0%Z) (fun _ => $"k3j9x0a1b")
           $"Date,Narration,Debit,Credit,Balance").
  vm_compute. lia.
Defined.

Lemma csv_every_row_accounted_witness :
  length (transactions (parseCSVFile isoMidnight (fun _ => 0%Z) (fun _ => $"k3j9x0a1b")
                          scenarioCsv))
  + length (errors (parseCSVFile isoMidnight (fun _ => 0%Z) (fun _ => $"k3j9x0a1b")
                      scenarioCsv))
  = length (csvLines scenarioCsv) - 1 /\
  Forall (rowBetween 2 (length (csvLines scenarioCsv)))
         (errors (parseCSVFile isoMidnight (fun _ => 0%Z) (fun _ => $"k3j9x0a1b")
                    scenarioCsv)).
Proof.
  apply (csv_every_row_accounted isoMidnight (fun _ => 0%Z) (fun _ => $"k3j9x0a1b")
           scenarioCsv).
  vm_compute. lia.
Defined.

Lemma csv_without_amount_column_witness :
  transactions (parseCSVFile isoMidnight (fun _ => 0%Z) (fun _ => $"k3j9x0a1b")
                  noAmountCsv) = [].
Proof.
  apply (csv_without_amount_column isoMidnight (fun _ => 0%Z) (fun _ => $"k3j9x0a1b")
           noAmountCsv).
  intros h name Hh Hn. vm_compute in Hh.
  unfold amountFieldNames in Hn. simpl in Hn.
  repeat (destruct Hh as [<- | Hh];
          [repeat (destruct Hn as [<- | Hn]; [vm_compute; reflexivity | ]);
           contradiction | ]).
  contradiction.
Defined.

Lemma firstCategory_range table lowerDescription :
  In (firstCategory table lowerDescription)
     ($"Other" :: map (fun entry => capitalize (fst entry)) table).
Proof.
  induction table as [ | [category keywords] table IH]; simpl; [auto | ].
  destruct (existsb (includes lowerDescription) keywords); [auto | ].
  destruct IH as [IH | IH]; auto.
Qed.

(** X24. The classifier of the CSV import answers one of nine capitalised
    labels; it has no label for income, cash, transfers or payments, which
    the classifier of the PDF strategies has. *)
Theorem categorizeParsedTransaction_range :
  forall description : str,
    In (categorizeParsedTransaction description) csvCategories /\
    ~ In $"Income" csvCategories /\ ~ In $"Cash" csvCategories /\
    ~ In $"Transfer" csvCategories /\ ~ In $"Payment" csvCategories.
Proof.
  intros description. split.
  - unfold categorizeParsedTransaction.
    pose proof (firstCategory_range TRANSACTION_CATEGORIES (toLowerCase description))
      as H.
    remember (firstCategory TRANSACTION_CATEGORIES (toLowerCase description)) as c eqn:E.
    clear E. unfold csvCategories. simpl in H.
    repeat (destruct H as [H | H]; [subst c; simpl; tauto | ]).
    contradiction.
  - unfold csvCategories.
    repeat split; intros H; simpl in H;
      repeat (destruct H as [H | H]; [discriminate | ]); contradiction.
Qed.

End CsvFacts.

Module FinancialDataFacts.
Import JS Regex Num Model PdfParser Csv ImportUi FinancialData.
Import Samples TextFacts Notions IdFacts.

(** ** The import of a statement into the state *)

Lemma str_eqb_refl s : str_eqb s s = true.
Proof.
  induction s as [ | c s IH]; simpl; [reflexivity | ].
  rewrite Ascii.eqb_refl. exact IH.
Qed.

Lemma str_eqb_eq : forall a b, str_eqb a b = true -> a = b.
Proof.
  induction a as [ | x a IH]; intros [ | y b] H; simpl in H;
    try discriminate; [reflexivity | ].
  apply andb_prop in H. destruct H as [Hx Hab].
  apply Ascii.eqb_eq in Hx. subst y. f_equal. apply IH. exact Hab.
Qed.

(** *** The three ways the timer callback ends *)

Lemma process_csv T w file b st csv :
  bs_fileType b = ft_csv ->
  w_readAsText w file = Some csv ->
  fst (processStatement T w file b st)
  = [ UPDATE_BANK_STATEMENT (bs_id b)
        (processedUpdates st_completed (w_processedAt w)
           (detectBankFromText (file_name file))
           (parseCSVFile (w_toISOString w) (w_nowCsv w) (w_rnd w) csv));
      SET_LOADING false ].
Proof. intros H Hr. unfold processStatement. rewrite H, Hr. reflexivity. Qed.

Lemma process_unreadable T w file b st :
  bs_fileType b = ft_csv ->
  w_readAsText w file = None ->
  fst (processStatement T w file b st) = [].
Proof. intros H Hr. unfold processStatement. rewrite H, Hr. reflexivity. Qed.

Lemma process_without_parser T w file b st e :
  bs_fileType b = ft_pdf ->
  w_importParser w = Some e ->
  fst (processStatement T w file b st)
  = [ UPDATE_BANK_STATEMENT (bs_id b)
        (failedUpdates (messageOr e $"Unknown processing error"));
      SET_LOADING false ].
Proof. intros H He. unfold processStatement. rewrite H, He. reflexivity. Qed.

(** the raw text of the file from which [importStatement] picks the bank *)
Lemma process_pdf T w file b st :
  bs_fileType b = ft_pdf ->
  w_importParser w = None ->
  let bank := detectBankType (match w_fileText w file with
                              | inr text => text
                              | inl _ => []
                              end) in
  exists result calls,
    fst (parsePDFBankStatement (w_pdfToText w) (w_today w) (w_nowPdf w)
           (Some file) (importConfig bank) st) = (Resolved result, calls) /\
    fst (processStatement T w file b st)
    = [ UPDATE_BANK_STATEMENT (bs_id b)
          (processedUpdates
             (if 0 <? length (transactions result) then st_completed else st_failed)
             (w_processedAt w) (Some (bankTypeUpper bank)) result);
        SET_LOADING false ].
Proof.
  intros H Hp bank. subst bank.
  destruct (parsePDF_resolves (w_pdfToText w) (w_today w) (w_nowPdf w) (Some file)
              (importConfig (detectBankType (match w_fileText w file with
                                             | inr text => text
                                             | inl _ => []
                                             end))) st) as (result & calls & E).
  exists result, calls. split; [exact E | ].
  unfold processStatement. rewrite H, Hp. cbv zeta. unfold bind.
  destruct (parsePDFBankStatement (w_pdfToText w) (w_today w) (w_nowPdf w)
              (Some file) _ st) as [p st'].
  simpl in E. subst p. reflexivity.
Qed.

(** the callback dispatches nothing, or one update of the statement and then
    the end of loading *)
Lemma process_cases T w file b st :
  exists callback : option BankStatementUpdates,
    fst (processStatement T w file b st)
    = match callback with
      | Some updates =>
          [ UPDATE_BANK_STATEMENT (bs_id b) updates; SET_LOADING false ]
      | None => []
      end /\
    (callback = None <->
     bs_fileType b = ft_csv /\ w_readAsText w file = None) /\
    forall updates,
      callback = Some updates ->
      up_id updates = None /\ up_fileName updates = None /\
      (up_status updates = Some st_completed \/ up_status updates = Some st_failed) /\
      (exists entries, up_errors updates = Some entries).
Proof.
  destruct (bs_fileType b) eqn:Hb.
  - destruct (w_readAsText w file) as [csv | ] eqn:Hr.
    + eexists (Some _). split; [apply (process_csv T w file b st csv Hb Hr) | ].
      split; [split; [discriminate | intros [_ H]; discriminate] | ].
      intros updates H. inversion H; subst updates. simpl. eauto 10.
    + exists None. split; [apply (process_unreadable T w file b st Hb Hr) | ].
      split; [tauto | discriminate].
  - destruct (w_importParser w) as [e | ] eqn:Hp.
    + eexists (Some _).
      split; [apply (process_without_parser T w file b st e Hb Hp) | ].
      split; [split; [discriminate | intros [H _]; discriminate] | ].
      intros updates H. inversion H; subst updates. simpl. eauto 10.
    + destruct (process_pdf T w file b st Hb Hp) as (result & calls & _ & E).
      eexists (Some _). split; [exact E | ].
      split; [split; [discriminate | intros [H _]; discriminate] | ].
      intros updates H. inversion H; subst updates. simpl.
      destruct (0 <? length (transactions result)); eauto 10.
Qed.

(** the state after the import, for the update that the callback dispatches *)
Lemma afterImport_eq T w file st (s : FinancialDataState T) updates :
  fst (processStatement T w file (newStatement (w_clock w) (w_uploadedAt w) file) st)
  = [ UPDATE_BANK_STATEMENT (bs_id (newStatement (w_clock w) (w_uploadedAt w) file))
        updates;
      SET_LOADING false ] ->
  afterImport w file st s
  = {| bankStatements :=
         map (fun statement =>
                if str_eqb (bs_id statement)
                     (bs_id (newStatement (w_clock w) (w_uploadedAt w) file))
                then spread statement updates else statement)
             (bankStatements s)
         ++ [spread (newStatement (w_clock w) (w_uploadedAt w) file) updates];
       investmentProfile := investmentProfile s;
       budgetAlerts := budgetAlerts s;
       recurringTransactions := recurringTransactions s;
       scheduledTransactions := scheduledTransactions s;
       exportHistory := exportHistory s;
       isLoading := false;
       stateError := None |}.
Proof.
  intros E. unfold afterImport, importStatement. cbv zeta.
  cbn [fst snd]. rewrite E.
  unfold dispatchAll. cbn [fold_left financialDataReducer bankStatements
    investmentProfile budgetAlerts recurringTransactions scheduledTransactions
    exportHistory isLoading stateError].
  rewrite map_app. cbn [map]. rewrite str_eqb_refl. reflexivity.
Qed.

(** the state after the import when the callback dispatches nothing *)
Lemma afterImport_suspended T w file st (s : FinancialDataState T) :
  fst (processStatement T w file (newStatement (w_clock w) (w_uploadedAt w) file) st)
  = [] ->
  afterImport w file st s
  = {| bankStatements :=
         bankStatements s ++ [newStatement (w_clock w) (w_uploadedAt w) file];
       investmentProfile := investmentProfile s;
       budgetAlerts := budgetAlerts s;
       recurringTransactions := recurringTransactions s;
       scheduledTransactions := scheduledTransactions s;
       exportHistory := exportHistory s;
       isLoading := true;
       stateError := None |}.
Proof.
  intros E. unfold afterImport, importStatement. cbv zeta.
  cbn [fst snd]. rewrite E. reflexivity.
Qed.

Lemma last_snoc {A} (l : list A) (x d : A) : last (l ++ [x]) d = x.
Proof. apply last_last. Qed.

(** X25. Whatever the file, an import appends exactly one statement to the
    state, with the identifier and the file name it was created with, and
    sets no error; the other slices of the state are untouched; the earlier
    statements keep their places, and are unchanged when none of them has the
    identifier of the new one.  When the callback runs to its end (the file is
    parsed as PDF, or the reader delivers the text of the CSV file) the
    statement is no longer being processed and the loading flag is cleared.
    When the reader of a CSV file fails, the statement stays as it was
    returned, in processing, and the loading flag stays set. *)
Theorem import_adds_one_statement :
  forall (T : Payloads) (w : World) (file : File) (st : RegexState)
         (s : FinancialDataState T),
    let returned := fst (fst (importStatement T w file)) in
    let s' := afterImport w file st s in
    exists (earlier : list BankStatement) (final : BankStatement),
      bankStatements s' = earlier ++ [final] /\
      length earlier = length (bankStatements s) /\
      ((forall b, In b (bankStatements s) -> bs_id b <> bs_id returned) ->
       earlier = bankStatements s) /\
      bs_id final = bs_id returned /\
      bs_fileName final = file_name file /\
      stateError s' = None /\
      investmentProfile s' = investmentProfile s /\
      budgetAlerts s' = budgetAlerts s /\
      recurringTransactions s' = recurringTransactions s /\
      scheduledTransactions s' = scheduledTransactions s /\
      exportHistory s' = exportHistory s /\
      if callbackEnds w file
      then bs_status final <> st_processing /\ isLoading s' = false
      else final = returned /\ earlier = bankStatements s /\ isLoading s' = true.
Proof.
  intros T w file st s returned s'.
  destruct (process_cases T w file (newStatement (w_clock w) (w_uploadedAt w) file) st)
    as ([updates | ] & E & Hnone & Hsome).
  - destruct (Hsome updates eq_refl) as (Hid & Hname & Hstatus & _).
    assert (callbackEnds w file = true) as Hends.
    { unfold callbackEnds.
      destruct (endsWith (toLowerCase (file_name file)) $".pdf") eqn:Hpdf;
        [reflexivity | ].
      destruct (w_readAsText w file) eqn:Hr; [reflexivity | ].
      assert (Some updates = None) as H; [ | discriminate H].
      apply Hnone. split; [ | reflexivity].
      unfold newStatement. cbn [bs_fileType]. rewrite Hpdf. reflexivity. }
    rewrite Hends.
    subst s'. rewrite (afterImport_eq T w file st s updates E).
    cbn [bankStatements investmentProfile budgetAlerts recurringTransactions
         scheduledTransactions exportHistory isLoading stateError].
    eexists. eexists. split; [reflexivity | ].
    split; [apply length_map | ].
    split.
    { intros Hfresh. rewrite <- (map_id (bankStatements s)) at 2.
      apply map_ext_in. intros b Hb.
      destruct (str_eqb (bs_id b) _) eqn:Eb; [ | reflexivity].
      apply str_eqb_eq in Eb. exfalso. exact (Hfresh b Hb Eb). }
    unfold spread. cbn [bs_id bs_fileName bs_status]. rewrite Hid, Hname.
    repeat split; try reflexivity.
    destruct Hstatus as [-> | ->]; simpl; discriminate.
  - destruct (proj1 Hnone eq_refl) as [Hcsv Hr].
    assert (callbackEnds w file = false) as Hends.
    { unfold callbackEnds. rewrite Hr.
      unfold newStatement in Hcsv. cbn [bs_fileType] in Hcsv.
      destruct (endsWith (toLowerCase (file_name file)) $".pdf");
        [discriminate | reflexivity]. }
    rewrite Hends.
    subst s'. rewrite (afterImport_suspended T w file st s E).
    cbn [bankStatements investmentProfile budgetAlerts recurringTransactions
         scheduledTransactions exportHistory isLoading stateError].
    exists (bankStatements s), (newStatement (w_clock w) (w_uploadedAt w) file).
    repeat split; reflexivity.
Qed.

(** X26. For a file whose name ends in [.pdf], when the parser module loads: the
    stored statement is completed exactly when the report has transactions,
    and then it carries no error entry; otherwise it is failed, counts no
    transaction and carries an entry of error severity.  The bank name is the
    upper-cased bank type found in the raw text of the file. *)
Theorem pdf_import_outcome :
  forall (T : Payloads) (w : World) (file : File) (st : RegexState)
         (s : FinancialDataState T),
    endsWith (toLowerCase (file_name file)) $".pdf" = true ->
    w_importParser w = None ->
    let returned := fst (fst (importStatement T w file)) in
    let final := last (bankStatements (afterImport w file st s)) returned in
    ((bs_status final = st_completed /\ 0 < bs_transactionCount final /\
      bs_errors final = []) \/
     (bs_status final = st_failed /\ bs_transactionCount final = 0 /\
      Exists (fun e => err_severity e = error) (bs_errors final))) /\
    bs_processedAt final = Some (w_processedAt w) /\
    bs_bankName final
    = Some (bankTypeUpper (detectBankType (match w_fileText w file with
                                           | inr text => text
                                           | inl _ => []
                                           end))).
Proof.
  intros T w file st s Hname Hp returned final.
  assert (bs_fileType (newStatement (w_clock w) (w_uploadedAt w) file) = ft_pdf) as Hb.
  { unfold newStatement. cbn [bs_fileType]. rewrite Hname. reflexivity. }
  destruct (process_pdf T w file _ st Hb Hp) as (result & calls & Hr & E).
  subst final. rewrite (afterImport_eq T w file st s _ E).
  cbn [bankStatements]. rewrite last_snoc.
  unfold spread, processedUpdates.
  cbn [bs_status bs_transactionCount bs_errors bs_processedAt bs_bankName
       up_status up_transactionCount up_errors up_processedAt up_bankName orKeep].
  split; [ | split; reflexivity].
  destruct (parsePDF_cases (w_pdfToText w) (w_today w) (w_nowPdf w) (Some file)
              (importConfig (detectBankType (match w_fileText w file with
                                             | inr text => text
                                             | inl _ => []
                                             end))) st)
    as (calls' & _ & [(message & Hc) | [(tx & txs & Hc) | Hc]]);
    rewrite Hc in Hr; inversion Hr; subst result; simpl.
  - right. split; [reflexivity | ]. split; [reflexivity | ].
    constructor. reflexivity.
  - left. split; [reflexivity | ]. split; [lia | reflexivity].
  - right. split; [reflexivity | ]. split; [reflexivity | ].
    apply Exists_cons_tl. constructor. reflexivity.
Qed.

(** X27. For a file whose name does not end in [.pdf] and whose text the
    reader delivers, the stored statement is completed whatever the CSV
    parser reports: it carries the transaction count and the error entries of
    the report, so a file with no readable row is completed with a count of
    zero.  The bank name is looked up in the file name, not in the content. *)
Theorem read_csv_import_is_completed :
  forall (T : Payloads) (w : World) (file : File) (st : RegexState)
         (s : FinancialDataState T) (csv : str),
    endsWith (toLowerCase (file_name file)) $".pdf" = false ->
    w_readAsText w file = Some csv ->
    let returned := fst (fst (importStatement T w file)) in
    let final := last (bankStatements (afterImport w file st s)) returned in
    let report := parseCSVFile (w_toISOString w) (w_nowCsv w) (w_rnd w) csv in
    bs_status final = st_completed /\
    bs_transactionCount final = length (transactions report) /\
    bs_errors final = errors report /\
    bs_bankName final = detectBankFromText (file_name file) /\
    isLoading (afterImport w file st s) = false.
Proof.
  intros T w file st s csv Hname Hr returned final report.
  assert (bs_fileType (newStatement (w_clock w) (w_uploadedAt w) file) = ft_csv) as Hb.
  { unfold newStatement. cbn [bs_fileType]. rewrite Hname. reflexivity. }
  pose proof (process_csv T w file _ st csv Hb Hr) as E.
  subst final. rewrite (afterImport_eq T w file st s _ E).
  cbn [bankStatements]. rewrite last_snoc.
  repeat split.
Qed.

(** X28. The import component accepts a file by its type, [importStatement]
    picks the parser by the name, and the PDF parser checks the type again:
    a file of type [text/csv] of at most 10MB whose name ends in [.pdf] is
    accepted by the component and then stored as failed, with the single
    entry that the PDF is invalid. *)
Theorem csv_named_pdf_is_accepted_then_fails :
  forall (T : Payloads) (w : World) (file : File) (st : RegexState)
         (s : FinancialDataState T),
    file_type file = $"text/csv" ->
    (file_size file <= 10 * 1024 * 1024)%Z ->
    endsWith (toLowerCase (file_name file)) $".pdf" = true ->
    w_importParser w = None ->
    let returned := fst (fst (importStatement T w file)) in
    let final := last (bankStatements (afterImport w file st s)) returned in
    fst (isValidFile file) = true /\
    bs_status final = st_failed /\
    bs_errors final
    = [errorEntry $"PDF parsing failed: Invalid PDF file provided"].
Proof.
  intros T w file st s Htype Hsize Hname Hp returned final.
  split.
  { unfold isValidFile. rewrite Htype. simpl.
    destruct (Z.ltb_spec 10485760 (file_size file)); [lia | reflexivity]. }
  assert (bs_fileType (newStatement (w_clock w) (w_uploadedAt w) file) = ft_pdf) as Hb.
  { unfold newStatement. cbn [bs_fileType]. rewrite Hname. reflexivity. }
  destruct (process_pdf T w file _ st Hb Hp) as (result & calls & Hr & E).
  subst final. rewrite (afterImport_eq T w file st s _ E).
  cbn [bankStatements]. rewrite last_snoc.
  rewrite parsePDF_invalid_type in Hr by (rewrite Htype; reflexivity).
  simpl in Hr. inversion Hr; subst result. split; reflexivity.
Qed.

(** X29. [handleImport] checks the statement that [importStatement] returns,
    which is built before the file is parsed.  For a PDF without text layer
    the stored statement ends up failed with an error that
    [isImageBasedPDFError] flags, but the returned one has no error entry, so
    the alert about a scanned PDF is not shown. *)
Theorem scanned_pdf_alert_is_not_shown :
  forall (T : Payloads) (w : World) (file : File) (st : RegexState)
         (s : FinancialDataState T) (text : str),
    endsWith (toLowerCase (file_name file)) $".pdf" = true ->
    str_eqb (file_type file) pdfMime = true ->
    (file_size file <= sizeLimit)%Z ->
    w_importParser w = None ->
    w_pdfToText w file = inr text ->
    noText text = true ->
    let returned := fst (fst (importStatement T w file)) in
    let final := last (bankStatements (afterImport w file st s)) returned in
    bs_status final = st_failed /\
    scannedPdfAlert final = true /\
    bs_status returned = st_processing /\
    scannedPdfAlert returned = false.
Proof.
  intros T w file st s text Hname Htype Hsize Hp Ht Hn returned final.
  assert (bs_fileType (newStatement (w_clock w) (w_uploadedAt w) file) = ft_pdf) as Hb.
  { unfold newStatement. cbn [bs_fileType]. rewrite Hname. reflexivity. }
  destruct (process_pdf T w file _ st Hb Hp) as (result & calls & Hr & E).
  subst final. rewrite (afterImport_eq T w file st s _ E).
  cbn [bankStatements]. rewrite last_snoc.
  rewrite (parsePDF_no_text (w_pdfToText w) (w_today w) (w_nowPdf w) file _ st text)
    in Hr by assumption.
  simpl in Hr. inversion Hr; subst result.
  repeat split; reflexivity.
Qed.

(** two callbacks that address the identifier that two appended statements
    share; each dispatches nothing or one update *)
Lemma two_callbacks_reach_both T (s : FinancialDataState T) b1 b2
    (first_done second_done : option BankStatementUpdates) :
  bs_id b2 = bs_id b1 ->
  bs_status b1 = bs_status b2 -> bs_errors b1 = bs_errors b2 ->
  (forall u, first_done = Some u ->
             up_id u = None /\ up_fileName u = None /\
             (up_status u = Some st_completed \/ up_status u = Some st_failed) /\
             (exists entries, up_errors u = Some entries)) ->
  (forall u, second_done = Some u ->
             up_id u = None /\ up_fileName u = None /\
             (up_status u = Some st_completed \/ up_status u = Some st_failed) /\
             (exists entries, up_errors u = Some entries)) ->
  exists earlier first second,
    bankStatements
      (dispatchAll
         (dispatchAll
            (dispatchAll s [SET_LOADING true; SET_ERROR None; ADD_BANK_STATEMENT b1])
            [SET_LOADING true; SET_ERROR None; ADD_BANK_STATEMENT b2])
         (match first_done with
          | Some u => [UPDATE_BANK_STATEMENT (bs_id b1) u; SET_LOADING false]
          | None => []
          end ++
          match second_done with
          | Some u => [UPDATE_BANK_STATEMENT (bs_id b1) u; SET_LOADING false]
          | None => []
          end))
    = earlier ++ [first; second] /\
    bs_fileName first = bs_fileName b1 /\ bs_fileName second = bs_fileName b2 /\
    bs_status first = bs_status second /\
    bs_errors first = bs_errors second.
Proof.
  intros Hsame Hst Her H1 H2. unfold dispatchAll.
  assert (forall b u, up_id u = None -> bs_id (spread b u) = bs_id b) as Hkeep.
  { intros b u Hid. unfold spread. cbn [bs_id]. rewrite Hid. reflexivity. }
  destruct first_done as [u | ]; destruct second_done as [v | ];
    try (destruct (H1 u eq_refl) as (Hidu & Hnu & Hsu & (eu & Heu)));
    try (destruct (H2 v eq_refl) as (Hidv & Hnv & Hsv & (ev & Hev)));
    cbn [app fold_left financialDataReducer bankStatements investmentProfile
         budgetAlerts recurringTransactions scheduledTransactions exportHistory
         isLoading stateError];
    rewrite <- app_assoc; cbn [app]; rewrite ?map_app; cbn [map];
    rewrite ?Hsame, ?str_eqb_refl, ?Hkeep, ?Hsame, ?str_eqb_refl by assumption;
    eexists; eexists; eexists; (split; [reflexivity | ]);
    unfold spread; cbn [bs_fileName bs_status bs_errors];
    rewrite ?Hnu, ?Hnv, ?Heu, ?Hev; cbn [orKeep].
  - destruct Hsv as [-> | ->]; repeat split.
  - destruct Hsu as [-> | ->]; repeat split.
  - destruct Hsv as [-> | ->]; repeat split.
  - repeat split; assumption.
Qed.

(** X30. The identifier of a statement is the millisecond of its import.  When
    two imports start in the same millisecond, the update of each callback
    reaches both statements: once both callbacks have run, in either order,
    the two statements carry the same status and the same error entries. *)
Theorem same_millisecond_imports_collide :
  forall (T : Payloads) (w1 w2 : World) (file1 file2 : File) (st1 st2 : RegexState)
         (s : FinancialDataState T) (completions : list (FinancialDataAction T)),
    w_clock w1 = w_clock w2 ->
    completions = fst (snd (importStatement T w1 file1) st1) ++
                  fst (snd (importStatement T w2 file2) st2) \/
    completions = fst (snd (importStatement T w2 file2) st2) ++
                  fst (snd (importStatement T w1 file1) st1) ->
    let started :=
      dispatchAll (dispatchAll s (snd (fst (importStatement T w1 file1))))
                  (snd (fst (importStatement T w2 file2))) in
    let finished := dispatchAll started completions in
    exists (earlier : list BankStatement) (first second : BankStatement),
      bankStatements finished = earlier ++ [first; second] /\
      bs_fileName first = file_name file1 /\
      bs_fileName second = file_name file2 /\
      bs_status first = bs_status second /\
      bs_errors first = bs_errors second.
Proof.
  intros T w1 w2 file1 file2 st1 st2 s completions Hclock Horder started finished.
  destruct (process_cases T w1 file1
              (newStatement (w_clock w1) (w_uploadedAt w1) file1) st1)
    as (done1 & E1 & _ & H1).
  destruct (process_cases T w2 file2
              (newStatement (w_clock w2) (w_uploadedAt w2) file2) st2)
    as (done2 & E2 & _ & H2).
  assert (bs_id (newStatement (w_clock w2) (w_uploadedAt w2) file2)
          = bs_id (newStatement (w_clock w1) (w_uploadedAt w1) file1)) as Hsame.
  { unfold newStatement. cbn [bs_id]. rewrite Hclock. reflexivity. }
  subst finished started. unfold importStatement in *. cbv zeta in *.
  cbn [fst snd] in *. rewrite E1, E2, Hsame in Horder.
  destruct Horder as [-> | ->].
  - destruct (two_callbacks_reach_both T s _ _ done1 done2 Hsame eq_refl eq_refl H1 H2)
      as (earlier & first & second & E & Hf1 & Hf2 & Ha & Hb).
    exists earlier, first, second. split; [exact E | ].
    rewrite Hf1, Hf2. repeat split; assumption.
  - destruct (two_callbacks_reach_both T s _ _ done2 done1 Hsame eq_refl eq_refl H2 H1)
      as (earlier & first & second & E & Hf1 & Hf2 & Ha & Hb).
    exists earlier, first, second. split; [exact E | ].
    rewrite Hf1, Hf2. repeat split; assumption.
Qed.

Lemma pdf_import_outcome_witness :
  endsWith (toLowerCase (file_name smallPdf)) $".pdf" = true /\
  bs_bankName (last (bankStatements
                       (afterImport sampleWorld smallPdf st0 (initialState unitPayloads)))
                    (fst (fst (importStatement unitPayloads sampleWorld smallPdf))))
  = Some $"HDFC".
Proof.
  split; [reflexivity | ].
  apply (pdf_import_outcome unitPayloads sampleWorld smallPdf st0
           (initialState unitPayloads)); reflexivity.
Defined.

Lemma read_csv_import_witness :
  endsWith (toLowerCase (file_name emptyCsvFile)) $".pdf" = false /\
  bs_status (last (bankStatements
                     (afterImport sampleWorld emptyCsvFile st0
                        (initialState unitPayloads)))
                  (fst (fst (importStatement unitPayloads sampleWorld emptyCsvFile))))
  = st_completed /\
  bs_transactionCount
    (last (bankStatements
             (afterImport sampleWorld emptyCsvFile st0 (initialState unitPayloads)))
          (fst (fst (importStatement unitPayloads sampleWorld emptyCsvFile))))
  = 0.
Proof.
  split; [reflexivity | ].
  destruct (read_csv_import_is_completed unitPayloads sampleWorld emptyCsvFile st0
              (initialState unitPayloads) []) as (H1 & H2 & _);
    try reflexivity.
  split; [exact H1 | exact H2].
Defined.

Lemma csv_named_pdf_witness :
  fst (isValidFile csvNamedPdf) = true /\
  bs_status (last (bankStatements
                     (afterImport sampleWorld csvNamedPdf st0
                        (initialState unitPayloads)))
                  (fst (fst (importStatement unitPayloads sampleWorld csvNamedPdf))))
  = st_failed.
Proof.
  pose proof (csv_named_pdf_is_accepted_then_fails unitPayloads sampleWorld
                csvNamedPdf st0 (initialState unitPayloads)) as H.
  cbv zeta in H.
  destruct H as (Hv & Hs & _); try reflexivity; [vm_compute; discriminate | ].
  split; [exact Hv | exact Hs].
Defined.

Lemma scanned_pdf_alert_witness :
  scannedPdfAlert (last (bankStatements
                           (afterImport scannedWorld scannedPdf st0
                              (initialState unitPayloads)))
                        (fst (fst (importStatement unitPayloads scannedWorld scannedPdf))))
  = true /\
  scannedPdfAlert (fst (fst (importStatement unitPayloads scannedWorld scannedPdf)))
  = false.
Proof.
  pose proof (scanned_pdf_alert_is_not_shown unitPayloads scannedWorld scannedPdf st0
                (initialState unitPayloads) $"   ") as H.
  cbv zeta in H.
  destruct H as (_ & Ha & _ & Hb); try reflexivity; [vm_compute; discriminate | ].
  split; [exact Ha | exact Hb].
Defined.

Lemma same_millisecond_witness :
  exists (earlier : list BankStatement) (first second : BankStatement),
    bankStatements
      (dispatchAll
         (dispatchAll
            (dispatchAll (initialState unitPayloads)
               (snd (fst (importStatement unitPayloads sampleWorld smallPdf))))
            (snd (fst (importStatement unitPayloads scannedWorld emptyCsvFile))))
         (fst (snd (importStatement unitPayloads scannedWorld emptyCsvFile) st0) ++
          fst (snd (importStatement unitPayloads sampleWorld smallPdf) st0)))
    = earlier ++ [first; second] /\
    bs_fileName first = file_name smallPdf /\
    bs_fileName second = file_name emptyCsvFile /\
    bs_status first = bs_status second /\
    bs_errors first = bs_errors second.
Proof.
  apply (same_millisecond_imports_collide unitPayloads sampleWorld scannedWorld
           smallPdf emptyCsvFile st0 st0 (initialState unitPayloads)
           (fst (snd (importStatement unitPayloads scannedWorld emptyCsvFile) st0) ++
            fst (snd (importStatement unitPayloads sampleWorld smallPdf) st0))).
  - reflexivity.
  - right. reflexivity.
Defined.

End FinancialDataFacts.
